(** * The agent memory subsystem of agent-kit

    A shallow embedding of [templates/basic-agent/src/memory.ts] (the
    shipped implementation) and of the classes printed in
    [guide/03-memory.md] (the tutorial implementation), with the properties
    of the memory specification stated and settled against them.

    Modelling conventions.
    - A JavaScript string is a [string]: a sequence of code units, each an
      [ascii] read as a code unit in 0..255.  [length], [slice] and
      [charCodeAt] count code units, as in JavaScript.
    - A JavaScript [number] that holds an integer (lengths, token estimates,
      epoch milliseconds, counters, 32-bit hashes) is a [Z]; 32-bit
      wrap-around is written out with [toInt32].
    - A JavaScript [number] that holds a fraction (importance, similarity,
      vector components after normalisation) is a real number [R]: rounding
      is not modelled, so a statement about such a number is a statement
      about the exact value the floating-point result approximates.
    - [Date.now()] is an explicit argument.
    - The SQLite table [memories] is the list of its rows in rowid order,
      the order a full scan ([SELECT * FROM memories]) visits them. *)

From Stdlib Require Import ZArith List String Ascii Bool Lia.
From Stdlib Require Import Reals Lra.
From Stdlib Require Import DecimalString.
From Stdlib Require Import Permutation Sorted.
Import ListNotations.

Open Scope string_scope.
Open Scope Z_scope.

(** ** JavaScript primitives used by the sources *)

Module JS.

(** [s.charCodeAt(i)] for the code unit held in an [ascii]. *)
Definition charCode (c : ascii) : Z := Z.of_N (N_of_ascii c).

(** [s.length]. *)
Definition length (s : string) : Z := Z.of_nat (String.length s).

(** [s.slice(start, end)] for integers [0 <= start <= end]. *)
Definition slice (s : string) (start stop : nat) : string :=
  substring start (stop - start) s.

(** [ToInt32]: what [x | 0] and [x << k] return for an integer [x]. *)
Definition toInt32 (x : Z) : Z := (x + 2 ^ 31) mod 2 ^ 32 - 2 ^ 31.

(** [x << k] on an integer. *)
Definition shl (x : Z) (k : Z) : Z := toInt32 (Z.shiftl (toInt32 x) k).

(** [Math.ceil(a / b)] for integers [a] and [b > 0]. *)
Definition ceilDiv (a b : Z) : Z := - ((- a) / b).

(** [String(n)] for a non-negative integer. *)
Definition ofNat (n : nat) : string := NilEmpty.string_of_uint (Nat.to_uint n).

(** [parts.join(sep)]. *)
Fixpoint join (sep : string) (parts : list string) : string :=
  match parts with
  | [] => ""
  | [p] => p
  | p :: rest => p ++ sep ++ join sep rest
  end.

(** The code units below 256 that [\s] and [trim()] treat as white space:
    TAB, LF, VT, FF, CR, SPACE and NO-BREAK SPACE. *)
Definition isSpace (c : ascii) : bool :=
  let n := charCode c in
  ((9 <=? n) && (n <=? 13)) || (n =? 32) || (n =? 160).

(** [toLowerCase] on one code unit below 256: A-Z and the Latin-1 capitals
    (all of 0xC0..0xDE but the multiplication sign 0xD7) move up by 32. *)
Definition lowerChar (c : ascii) : ascii :=
  let n := charCode c in
  if ((65 <=? n) && (n <=? 90))
     || ((192 <=? n) && (n <=? 222) && negb (n =? 215))
  then ascii_of_N (Z.to_N (n + 32))
  else c.

Fixpoint toLowerCase (s : string) : string :=
  match s with
  | EmptyString => EmptyString
  | String c s' => String (lowerChar c) (toLowerCase s')
  end.

Fixpoint trimStart (s : string) : string :=
  match s with
  | EmptyString => EmptyString
  | String c s' => if isSpace c then trimStart s' else s
  end.

(** [trimEnd]: a white-space character is dropped when everything after it
    has been dropped. *)
Fixpoint trimEnd (s : string) : string :=
  match s with
  | EmptyString => EmptyString
  | String c s' =>
      match trimEnd s' with
      | EmptyString => if isSpace c then EmptyString else String c EmptyString
      | t => String c t
      end
  end.

Definition trim (s : string) : string := trimEnd (trimStart s).

(** [s.split(/\s+/)]: the pieces between maximal runs of white space; a run
    at either end leaves an empty piece there, and the empty string splits
    into one empty piece.  [cur] is the piece being read;
    [inRun] says that the previous character was white space. *)
Fixpoint splitWsFrom (cur : string) (inRun : bool) (s : string) : list string :=
  match s with
  | EmptyString => [cur]
  | String c s' =>
      if isSpace c then
        if inRun then splitWsFrom cur true s'
        else cur :: splitWsFrom EmptyString true s'
      else splitWsFrom (cur ++ String c EmptyString) false s'
  end.

Definition splitWs (s : string) : list string := splitWsFrom "" false s.

(** [arr.slice(0, n)]: a negative [n] counts from the end. *)
Definition sliceTo {A} (l : list A) (n : Z) : list A :=
  if n <? 0 then firstn (Z.to_nat (Z.of_nat (List.length l) + n)) l
  else firstn (Z.to_nat n) l.

(** [arr.slice(-k)] for [k > 0]: the last [k] elements. *)
Definition sliceLast {A} (l : list A) (k : nat) : list A :=
  skipn (List.length l - k) l.

(** [arr[i] = f(arr[i])] on an array of fixed length: an index outside the
    array changes nothing. *)
Fixpoint update {A} (l : list A) (i : nat) (f : A -> A) : list A :=
  match l, i with
  | [], _ => []
  | x :: l', O => f x :: l'
  | x :: l', S i' => x :: update l' i' f
  end.

End JS.

(** ** [memory.ts]: utilities *)

Module Util.

(** [function hash(str)]: [h = ((h << 5) - h + str.charCodeAt(i)) | 0]. *)
Definition hashStep (h : Z) (c : ascii) : Z :=
  JS.toInt32 (JS.shl h 5 - h + JS.charCode c).

Fixpoint hashFrom (h : Z) (str : string) : Z :=
  match str with
  | EmptyString => h
  | String c str' => hashFrom (hashStep h c) str'
  end.

Definition hash (str : string) : Z := hashFrom 0 str.

End Util.

(** ** [memory.ts]: short-term memory *)

Module ShortTerm.

(** The parts of a [ChatCompletionMessageParam] that the class reads. *)
Inductive ContentPart :=
| TextPart (text : string)
| OtherPart.

Inductive Content :=
| ContentString (s : string)
| ContentParts (parts : list ContentPart)
| ContentAbsent.

Record ToolCall := { fn_name : string; fn_arguments : string }.

Record Message := {
  role : string;
  content : Content;
  tool_calls : option (list ToolCall)
}.

Record TrackedMessage := {
  message : Message;
  timestamp : Z;
  tokenEstimate : Z
}.

Record ShortTermMemory := {
  messages : list TrackedMessage;
  maxTokens : Z
}.

(** [estimateTokens]: [Math.ceil(text.length / 4)]. *)
Definition estimateTokens (text : string) : Z := JS.ceilDiv (JS.length text) 4.

Definition extractContent (m : Message) : string :=
  match content m with
  | ContentString s => s
  | ContentParts parts =>
      JS.join " "
        (map (fun part => match part with
                          | TextPart text => text
                          | OtherPart => "[non-text]"
                          end) parts)
  | ContentAbsent =>
      match tool_calls m with
      | Some calls =>
          JS.join "; "
            (map (fun tc => fn_name tc ++ "(" ++ fn_arguments tc ++ ")") calls)
      | None => ""
      end
  end.

(** [new ShortTermMemory(systemPrompt, maxTokens)]. *)
Definition create (now : Z) (systemPrompt : string) (maxTokens : Z)
  : ShortTermMemory :=
  {| messages :=
       [ {| message := {| role := "system";
                          content := ContentString systemPrompt;
                          tool_calls := None |};
            timestamp := now;
            tokenEstimate := estimateTokens systemPrompt |} ];
     maxTokens := maxTokens |}.

Definition tokensOf (l : list TrackedMessage) : Z :=
  fold_left (fun sum m => sum + tokenEstimate m) l 0.

(** [getTokenCount]. *)
Definition getTokenCount (m : ShortTermMemory) : Z := tokensOf (messages m).

(** [getMessages]. *)
Definition getMessages (m : ShortTermMemory) : list Message :=
  map message (messages m).

(** The body of the first loop of [compactIfNeeded] at one index. *)
Definition truncateTool (tracked : TrackedMessage) : TrackedMessage :=
  if (role (message tracked) =? "tool")%string && (300 <? tokenEstimate tracked)
  then
    let content := extractContent (message tracked) in
    let truncated :=
      JS.slice content 0 500 ++ String (ascii_of_nat 10) "...[truncated for brevity]" in
    {| message := {| role := role (message tracked);
                     content := ContentString truncated;
                     tool_calls := tool_calls (message tracked) |};
       timestamp := timestamp tracked;
       tokenEstimate := estimateTokens truncated |}
  else tracked.

(** [for (let i = 1; i < this.messages.length - 6; i++)]. *)
Definition truncateOld (l : list TrackedMessage) : list TrackedMessage :=
  fold_left (fun acc i => JS.update acc i truncateTool)
            (seq 1 (List.length l - 6 - 1)) l.

Definition keep : nat := 3.
Definition keepEnd : nat := 8.

Definition marker (now : Z) (dropped : nat) : TrackedMessage :=
  {| message :=
       {| role := "system";
          content := ContentString
            ("[" ++ JS.ofNat dropped ++ " earlier messages omitted for context length]");
          tool_calls := None |};
     timestamp := now;
     tokenEstimate := 20 |}.

(** The second step of [compactIfNeeded]: drop the middle messages. *)
Definition dropMiddle (now : Z) (limit : Z) (l : list TrackedMessage)
  : list TrackedMessage :=
  if limit <? tokensOf l then
    if (keep + keepEnd <? List.length l)%nat then
      let head := firstn keep l in
      let tail := JS.sliceLast l keepEnd in
      let dropped := (List.length l - keep - keepEnd)%nat in
      (head ++ marker now dropped :: tail)%list
    else l
  else l.

Definition compactIfNeeded (now : Z) (m : ShortTermMemory) : ShortTermMemory :=
  if getTokenCount m <=? maxTokens m then m
  else {| messages := dropMiddle now (maxTokens m) (truncateOld (messages m));
          maxTokens := maxTokens m |}.

(** [add(message)]. *)
Definition add (now : Z) (msg : Message) (m : ShortTermMemory) : ShortTermMemory :=
  compactIfNeeded now
    {| messages := (messages m ++
                   [ {| message := msg;
                        timestamp := now;
                        tokenEstimate := estimateTokens (extractContent msg) |} ])%list;
       maxTokens := maxTokens m |}.

(** The messages that the second step of [compactIfNeeded] leaves out:
    everything between the first [keep] and the last [keepEnd]. *)
Definition middle (l : list TrackedMessage) : list TrackedMessage :=
  skipn keep (firstn (List.length l - keepEnd) l).

(** [get length()]. *)
Definition length (m : ShortTermMemory) : nat := List.length (messages m).

End ShortTerm.

(** ** [crypto.createHash('sha256')]

    The digest of Node's [crypto] module, written out from FIPS 180-4 so
    that record ids can be computed. *)

Module Sha256.

Definition w32 (x : Z) : Z := x mod 2 ^ 32.

Definition rotr (n x : Z) : Z :=
  Z.lor (Z.shiftr x n) (w32 (Z.shiftl x (32 - n))).

Definition xor3 (x y z : Z) : Z := Z.lxor (Z.lxor x y) z.

Definition Ch (x y z : Z) : Z :=
  Z.lxor (Z.land x y) (Z.land (Z.lxor x (2 ^ 32 - 1)) z).
Definition Maj (x y z : Z) : Z :=
  xor3 (Z.land x y) (Z.land x z) (Z.land y z).
Definition Sigma0 (x : Z) : Z := xor3 (rotr 2 x) (rotr 13 x) (rotr 22 x).
Definition Sigma1 (x : Z) : Z := xor3 (rotr 6 x) (rotr 11 x) (rotr 25 x).
Definition sigma0 (x : Z) : Z := xor3 (rotr 7 x) (rotr 18 x) (Z.shiftr x 3).
Definition sigma1 (x : Z) : Z := xor3 (rotr 17 x) (rotr 19 x) (Z.shiftr x 10).

(** The first 64 primes. *)
Definition primes : list Z :=
  [ 2; 3; 5; 7; 11; 13; 17; 19; 23; 29; 31; 37; 41; 43; 47; 53;
    59; 61; 67; 71; 73; 79; 83; 89; 97; 101; 103; 107; 109; 113; 127; 131;
    137; 139; 149; 151; 157; 163; 167; 173; 179; 181; 191; 193; 197; 199;
    211; 223; 227; 229; 233; 239; 241; 251; 257; 263; 269; 271; 277; 281;
    283; 293; 307; 311 ].

(** The integer cube root of [n], found bit by bit from bit [bits - 1]
    down. *)
Fixpoint cubeRoot (bits : nat) (n r : Z) : Z :=
  match bits with
  | O => r
  | S b =>
      let r' := r + 2 ^ Z.of_nat b in
      cubeRoot b n (if r' * r' * r' <=? n then r' else r)
  end.

(** The round constants: the first 32 bits of the fractional part of the
    cube root of each prime. *)
Definition K : list Z :=
  Eval vm_compute in map (fun p => w32 (cubeRoot 36 (p * 2 ^ 96) 0)) primes.

(** The initial hash value: the same of the square roots of the first 8
    primes. *)
Definition H0 : list Z :=
  Eval vm_compute in map (fun p => w32 (Z.sqrt (p * 2 ^ 64))) (firstn 8 primes).

(** [update(content)] reads a string as UTF-8: a code unit below 128 is one
    byte, one in 128..255 is two. *)
Fixpoint utf8 (s : string) : list Z :=
  match s with
  | EmptyString => []
  | String c s' =>
      let n := JS.charCode c in
      if n <? 128 then n :: utf8 s'
      else Z.lor 192 (Z.shiftr n 6) :: Z.lor 128 (Z.land n 63) :: utf8 s'
  end.

(** The big-endian bytes of [x], [n] of them. *)
Fixpoint bigEndian (n : nat) (x : Z) : list Z :=
  match n with
  | O => []
  | S n' => (Z.shiftr x (8 * Z.of_nat n')) mod 256 :: bigEndian n' x
  end.

(** Padding: a 1 bit, zeros up to 56 modulo 64, the bit length on 8 bytes. *)
Definition pad (bytes : list Z) : list Z :=
  let len := Z.of_nat (List.length bytes) in
  let zeros := Z.to_nat ((55 - len) mod 64) in
  (bytes ++ 128 :: repeat 0 zeros ++ bigEndian 8 (8 * len))%list.

Fixpoint words (fuel : nat) (bytes : list Z) : list Z :=
  match fuel, bytes with
  | S fuel', b0 :: b1 :: b2 :: b3 :: rest =>
      (b0 * 2 ^ 24 + b1 * 2 ^ 16 + b2 * 2 ^ 8 + b3) :: words fuel' rest
  | _, _ => []
  end.

(** The message schedule, latest word first. *)
Fixpoint schedule (n : nat) (w : list Z) : list Z :=
  match n with
  | O => w
  | S n' =>
      let next := w32 (sigma1 (nth 1 w 0) + nth 6 w 0
                       + sigma0 (nth 14 w 0) + nth 15 w 0) in
      schedule n' (next :: w)
  end.

Definition round (st : list Z) (kw : Z * Z) : list Z :=
  match st with
  | [a; b; c; d; e; f; g; h] =>
      let t1 := h + Sigma1 e + Ch e f g + fst kw + snd kw in
      let t2 := Sigma0 a + Maj a b c in
      [w32 (t1 + t2); a; b; c; w32 (d + t1); e; f; g]
  | _ => st
  end.

Definition compress (hs : list Z) (block : list Z) : list Z :=
  let w := rev (schedule 48 (rev block)) in
  let st := fold_left round (combine K w) hs in
  map (fun p => w32 (fst p + snd p)) (combine hs st).

Fixpoint blocks (fuel : nat) (hs : list Z) (ws : list Z) : list Z :=
  match fuel, ws with
  | _, [] => hs
  | O, _ => hs
  | S fuel', _ => blocks fuel' (compress hs (firstn 16 ws)) (skipn 16 ws)
  end.

Definition hexDigit (d : Z) : ascii :=
  ascii_of_N (Z.to_N (if d <? 10 then 48 + d else 87 + d)).

Fixpoint hexOf (digits : nat) (x : Z) : string :=
  match digits with
  | O => EmptyString
  | S n' => String (hexDigit ((Z.shiftr x (4 * Z.of_nat n')) mod 16)) (hexOf n' x)
  end.

(** [createHash('sha256').update(content).digest('hex')]. *)
Definition hex (content : string) : string :=
  let ws := words (String.length content + 64) (pad (utf8 content)) in
  let hs := blocks (List.length ws) H0 ws in
  JS.join "" (map (hexOf 8) hs).

End Sha256.

(** ** Comparisons of fractional numbers, as booleans *)

Module Num.

Definition ltb (x y : R) : bool := if Rlt_dec x y then true else false.
Definition leb (x y : R) : bool := if Rle_dec x y then true else false.
Definition eqb (x y : R) : bool := if Req_dec_T x y then true else false.

End Num.

(** ** [memory.ts]: long-term memory *)

Module LongTerm.

Inductive MemoryType := fact | preference | procedure | note.

(** A row of the table [memories]. *)
Module Db.
Record Row := {
  id : string;
  content : string;
  embedding : list R;
  type : MemoryType;
  source : string;
  importance : R;
  created_at : Z;
  access_count : Z;
  last_accessed : Z
}.
End Db.

Record MemoryRecord := {
  id : string;
  content : string;
  type : MemoryType;
  source : string;
  importance : R;
  createdAt : Z;
  accessCount : Z
}.

Record SearchResult := {
  record : MemoryRecord;
  similarity : R
}.

(** The state of a [LongTermMemory]: the table and [this.dimension]. *)
Record LongTermMemory := {
  db : list Db.Row;
  dimension : nat
}.

(** [new LongTermMemory(dbPath, dimension)] on a fresh database file. *)
Definition create (dimension : nat) : LongTermMemory :=
  {| db := []; dimension := dimension |}.

(** [vec[Math.abs(h) % dimension] += (h > 0 ? 1 : -1) * weight].  With
    [dimension = 0] the index is [NaN] in the source and beyond the (empty)
    vector here: nothing is written either way. *)
Definition bump (dimension : nat) (weight : Z) (vec : list Z) (h : Z) : list Z :=
  JS.update vec (Z.to_nat (Z.rem (Z.abs h) (Z.of_nat dimension)))
            (fun v => v + (if 0 <? h then 1 else -1) * weight).

(** The two feature loops of [embed]: the vector before normalisation.  Its
    components are sums of [+-1] and [+-2], which the [Float32Array] of the
    source holds exactly, so they are integers here. *)
Definition features (dimension : nat) (text : string) : list Z :=
  let normalized := JS.trim (JS.toLowerCase text) in
  let vec := repeat 0 dimension in
  let vec :=
    fold_left (fun vec i =>
                 let trigram := JS.slice normalized i (i + 3) in
                 bump dimension 1 vec (Util.hash trigram))
              (seq 0 (String.length normalized - 2)) vec in
  fold_left (fun vec word =>
               if (String.length word <? 2)%nat then vec
               else bump dimension 2 vec (Util.hash word))
            (JS.splitWs normalized) vec.

(** [mag += vec[i] * vec[i]] over the vector. *)
Definition sumSquares (vec : list R) : R :=
  fold_left (fun mag v => (mag + v * v)%R) vec 0%R.

(** [embed(text)]: the features, L2-normalised when their magnitude is
    positive. *)
Definition embed (dimension : nat) (text : string) : list R :=
  let vec := map IZR (features dimension text) in
  let mag := sqrt (sumSquares vec) in
  if Rlt_dec 0 mag then map (fun v => (v / mag)%R) vec else vec.

(** The loop of [cosineSimilarity]: [dot], [magA] and [magB] over the
    indices of [a].  [None] when [b] is shorter than [a]: [b[i]] is then
    [undefined] and the sums that read it are [NaN]. *)
Fixpoint sums (a b : list R) (dot magA magB : R) : option (R * R * R) :=
  match a, b with
  | [], _ => Some (dot, magA, magB)
  | x :: a', y :: b' =>
      sums a' b' (dot + x * y)%R (magA + x * x)%R (magB + y * y)%R
  | _ :: _, [] => None
  end.

(** [cosineSimilarity(a, b)]: [magA && magB ? dot / (magA * magB) : 0].
    A zero magnitude is falsy, and so is the [NaN] of a short [b]. *)
Definition cosineSimilarity (a b : list R) : R :=
  match sums a b 0%R 0%R 0%R with
  | None => 0%R
  | Some (dot, magA, magB) =>
      let magA := sqrt magA in
      let magB := sqrt magB in
      if Num.eqb magA 0 then 0%R
      else if Num.eqb magB 0 then 0%R
      else (dot / (magA * magB))%R
  end.

(** [INSERT OR REPLACE]: a row with the same primary key is deleted, and
    the new row is added at the end of the table. *)
Definition insertOrReplace (row : Db.Row) (rows : list Db.Row) : list Db.Row :=
  (filter (fun r => negb (Db.id r =? Db.id row)%string) rows ++ [row])%list.

(** The id of a content: the first 12 hexadecimal digits of its SHA-256. *)
Definition idOf (content : string) : string :=
  JS.slice (Sha256.hex content) 0 12.

(** [store(content, type, source, importance)]: the id returned and the
    memory afterwards. *)
Definition store (now : Z) (content : string) (type : MemoryType)
    (source : string) (importance : R) (m : LongTermMemory)
  : string * LongTermMemory :=
  let id := idOf content in
  let embedding := embed (dimension m) content in
  (id,
   {| db := insertOrReplace
              {| Db.id := id; Db.content := content; Db.embedding := embedding;
                 Db.type := type; Db.source := source;
                 Db.importance := importance; Db.created_at := now;
                 Db.access_count := 0; Db.last_accessed := now |}
              (db m);
      dimension := dimension m |}).

Definition toRecord (row : Db.Row) : MemoryRecord :=
  {| id := Db.id row; content := Db.content row; type := Db.type row;
     source := Db.source row; importance := Db.importance row;
     createdAt := Db.created_at row; accessCount := Db.access_count row |}.

(** The body of [rows.map(...)] in [search].  The stored vector is read back
    as the first [dimension] components of the blob; the rows of a memory
    are those its own [store] wrote, which hold exactly that many. *)
Definition scoreRow (queryEmbedding : list R) (dimension : nat) (row : Db.Row)
  : SearchResult :=
  let stored := firstn dimension (Db.embedding row) in
  let sim := cosineSimilarity queryEmbedding stored in
  let boosted := (sim * 0.8 + Db.importance row * 0.2)%R in
  {| record := toRecord row; similarity := boosted |}.

(** [arr.sort(cmp)], which is stable: an element moves in front of the
    elements that [cmp] orders strictly after it, and of no other. *)
Fixpoint insertBy {A} (cmp : A -> A -> R) (x : A) (l : list A) : list A :=
  match l with
  | [] => [x]
  | y :: l' => if Num.ltb 0 (cmp x y) then y :: insertBy cmp x l' else x :: l
  end.

Definition sortBy {A} (cmp : A -> A -> R) (l : list A) : list A :=
  fold_right (insertBy cmp) [] l.

(** [UPDATE memories SET access_count = access_count + 1, last_accessed = ?
    WHERE id = ?]. *)
Definition touch (now : Z) (id : string) (rows : list Db.Row) : list Db.Row :=
  map (fun r =>
         if (Db.id r =? id)%string then
           {| Db.id := Db.id r; Db.content := Db.content r;
              Db.embedding := Db.embedding r; Db.type := Db.type r;
              Db.source := Db.source r; Db.importance := Db.importance r;
              Db.created_at := Db.created_at r;
              Db.access_count := Db.access_count r + 1;
              Db.last_accessed := now |}
         else r) rows.

(** The update loop of [search]; [clock k] is the value of the [k]-th
    [Date.now()] it reads. *)
Fixpoint touchAll (clock : nat -> Z) (k : nat) (results : list SearchResult)
    (rows : list Db.Row) : list Db.Row :=
  match results with
  | [] => rows
  | r :: rest => touchAll clock (S k) rest (touch (clock k) (id (record r)) rows)
  end.

(** The ranked list that [search] builds, before the access counts are
    updated. *)
Definition ranked (query : string) (limit : Z) (minSimilarity : R)
    (m : LongTermMemory) : list SearchResult :=
  let queryEmbedding := embed (dimension m) query in
  JS.sliceTo
    (sortBy (fun a b => (similarity b - similarity a)%R)
       (filter (fun r => Num.leb minSimilarity (similarity r))
          (map (scoreRow queryEmbedding (dimension m)) (db m))))
    limit.

(** [search(query, limit, minSimilarity)]: the results and the memory
    afterwards. *)
Definition search (clock : nat -> Z) (query : string) (limit : Z)
    (minSimilarity : R) (m : LongTermMemory)
  : list SearchResult * LongTermMemory :=
  let results := ranked query limit minSimilarity m in
  (results,
   {| db := touchAll clock 0 results (db m); dimension := dimension m |}).

(** [getAll()]: [ORDER BY importance DESC]; rows of equal importance are
    left in scan order. *)
Definition getAll (m : LongTermMemory) : list MemoryRecord :=
  map toRecord
      (sortBy (fun a b => (Db.importance b - Db.importance a)%R) (db m)).

(** [delete(id)]. *)
Definition delete (id : string) (m : LongTermMemory) : bool * LongTermMemory :=
  let kept := filter (fun r => negb (Db.id r =? id)%string) (db m) in
  ((List.length kept <? List.length (db m))%nat,
   {| db := kept; dimension := dimension m |}).

(** The [WHERE] clause of [decay]. *)
Definition decays (cutoff : R) (row : Db.Row) : bool :=
  Num.ltb (IZR (Db.last_accessed row)) cutoff
  && Num.ltb (Db.importance row) 0.7
  && (Db.access_count row <? 3).

(** [decay(maxAgeDays)]: the number of rows deleted and the memory
    afterwards. *)
Definition decay (now : Z) (maxAgeDays : R) (m : LongTermMemory)
  : Z * LongTermMemory :=
  let cutoff := (IZR now - maxAgeDays * 24 * 60 * 60 * 1000)%R in
  (Z.of_nat (List.length (filter (decays cutoff) (db m))),
   {| db := filter (fun r => negb (decays cutoff r)) (db m);
      dimension := dimension m |}).

End LongTerm.

(** ** [memory.ts]: session persistence *)

Module SessionStore.

(** A row of the table [sessions].  The column [messages] holds the JSON
    text of the messages; they are plain JSON data, which [JSON.parse]
    gives back as [JSON.stringify] took them, so the messages themselves
    stand for their text. *)
Record Row := {
  id : string;
  messages : list ShortTerm.Message;
  created_at : Z;
  updated_at : Z;
  summary : option string
}.

(** The table, in rowid order. *)
Definition SessionStore := list Row.

(** [save(sessionId, messages, summary)]: [INSERT OR REPLACE] with
    [created_at = COALESCE((SELECT created_at ... WHERE id = ?), now)]. *)
Definition save (now : Z) (sessionId : string)
    (messages : list ShortTerm.Message) (summary : option string)
    (db : SessionStore) : SessionStore :=
  let created :=
    match find (fun r => (id r =? sessionId)%string) db with
    | Some r => created_at r
    | None => now
    end in
  (filter (fun r => negb (id r =? sessionId)%string) db ++
   [ {| id := sessionId; messages := messages; created_at := created;
        updated_at := now; summary := summary |} ])%list.

(** [load(sessionId)]; [None] is [null]. *)
Definition load (sessionId : string) (db : SessionStore)
  : option (list ShortTerm.Message) :=
  match find (fun r => (id r =? sessionId)%string) db with
  | Some row => Some (messages row)
  | None => None
  end.

(** An element of [list()]: the columns [id], [summary], [updated_at]. *)
Record Listed := {
  listedId : string;
  listedSummary : option string;
  listedUpdatedAt : Z
}.

(** [list()]: [ORDER BY updated_at DESC LIMIT 20]; sessions updated at the
    same time are left in table order. *)
Definition list (db : SessionStore) : list Listed :=
  map (fun r => {| listedId := id r; listedSummary := summary r;
                   listedUpdatedAt := updated_at r |})
      (firstn 20
         (LongTerm.sortBy (fun a b => IZR (updated_at b - updated_at a)) db)).

End SessionStore.

(** ** [index.ts]: the agent's use of its memories *)

Module Agent.

Record Agent := {
  memory : ShortTerm.ShortTermMemory;
  longTermMemory : LongTerm.LongTermMemory;
  sessionStore : SessionStore.SessionStore;
  sessionId : string
}.



(** [truncate(str, max)]. *)
Definition truncate (str : string) (max : nat) : string :=
  if (max <? String.length str)%nat then JS.slice str 0 max ++ "..." else str.

End Agent.

(** ** [guide/03-memory.md]: the tutorial classes *)

Module Guide.

(** *** Messages and the short-term buffer *)

Module ShortTerm.

Inductive Role := system | user | assistant | tool.

Inductive Importance := low | medium | high.

Record Metadata := {
  tokenEstimate : Z;
  importance : Importance
}.

(** A message object.  [getForAPI] builds objects that carry [tool_call_id]
    and neither [timestamp] nor [metadata]; [buildContext] returns them as
    [Message]s all the same, so every property but [role] and [content] is
    optional here. *)
Record Message := {
  role : Role;
  content : string;
  name : option string;
  toolCallId : option string;
  tool_call_id : option string;
  timestamp : option Z;
  metadata : option Metadata
}.

Record ShortTermMemory := {
  messages : list Message;
  maxTokens : Z
}.

(** [getMessages()]: [[...this.messages]]. *)
Definition getMessages (m : ShortTermMemory) : list Message := messages m.

(** [getForAPI()]; an empty [toolCallId] is falsy. *)
Definition getForAPI (m : ShortTermMemory) : list Message :=
  map (fun msg =>
         {| role := role msg; content := content msg; name := None;
            toolCallId := None;
            tool_call_id :=
              match toolCallId msg with
              | Some t => if (String.length t =? 0)%nat then None else Some t
              | None => None
              end;
            timestamp := None; metadata := None |})
      (messages m).

End ShortTerm.

(** *** Long-term memory *)

Module LongTerm.

Inductive EntryType := fact | preference | procedure | entity.

Definition typeName (t : EntryType) : string :=
  match t with
  | fact => "fact"
  | preference => "preference"
  | procedure => "procedure"
  | entity => "entity"
  end.

Module Db.
Record Row := {
  id : string;
  content : string;
  embedding : list R;
  type : EntryType;
  source : string;
  created_at : Z;
  access_count : Z;
  last_accessed : Z;
  importance : R
}.
End Db.

Record EntryMetadata := {
  type : EntryType;
  source : string;
  createdAt : Z;
  accessCount : Z;
  lastAccessed : Z;
  importance : R
}.

Record MemoryEntry := {
  id : string;
  content : string;
  embedding : list R;
  metadata : EntryMetadata
}.

Record SearchResult := {
  entry : MemoryEntry;
  similarity : R
}.

(** The state of a [LongTermMemory].  [provider] is the embedding service
    that [getEmbedding] calls when [OPENAI_API_KEY] is set, [None] when the
    variable is unset. *)
Record LongTermMemory := {
  db : list Db.Row;
  embeddingDimension : nat;
  provider : option (string -> list R)
}.

(** [simpleHash] computes what [hash] of [memory.ts] computes:
    [hash = ((hash << 5) - hash) + char; hash |= 0]. *)
Definition simpleHash (str : string) : Z := Util.hash str.

(** The two feature loops of [localEmbedding]; every word counts, also the
    empty one and those of one character. *)
Definition localFeatures (dimension : nat) (text : string) : list Z :=
  let normalized := JS.trim (JS.toLowerCase text) in
  let embedding := repeat 0 dimension in
  let embedding :=
    fold_left (fun embedding i =>
                 let trigram := JS.slice normalized i (i + 3) in
                 LongTerm.bump dimension 1 embedding (simpleHash trigram))
              (seq 0 (String.length normalized - 2)) embedding in
  fold_left (fun embedding word =>
               LongTerm.bump dimension 2 embedding (simpleHash word))
            (JS.splitWs normalized) embedding.

(** [localEmbedding(text)]. *)
Definition localEmbedding (dimension : nat) (text : string) : list R :=
  let embedding := map IZR (localFeatures dimension text) in
  let magnitude :=
    sqrt (fold_left (fun sum val => (sum + val * val)%R) embedding 0%R) in
  if Rlt_dec 0 magnitude then map (fun v => (v / magnitude)%R) embedding
  else embedding.

(** [getEmbedding(text)]. *)
Definition getEmbedding (m : LongTermMemory) (text : string) : list R :=
  match provider m with
  | Some remote => remote text
  | None => localEmbedding (embeddingDimension m) text
  end.

(** [cosineSimilarity(a, b)]; [None] is the thrown
    [Error('Vector length mismatch')]. *)
Definition cosineSimilarity (a b : list R) : option R :=
  if (List.length a =? List.length b)%nat then
    match LongTerm.sums a b 0%R 0%R 0%R with
    | Some (dotProduct, magnitudeA, magnitudeB) =>
        let magnitudeA := sqrt magnitudeA in
        let magnitudeB := sqrt magnitudeB in
        if Num.eqb magnitudeA 0 || Num.eqb magnitudeB 0 then Some 0%R
        else Some (dotProduct / (magnitudeA * magnitudeB))%R
    | None => None
    end
  else None.

(** [store(content, type, source, importance = 0.5)]; [clock k] and
    [clock (k + 1)] are its two readings of [Date.now()].  [access_count]
    is not listed in the [INSERT] and takes the column default 0. *)
Definition store (clock : nat -> Z) (k : nat) (content : string)
    (type : EntryType) (source : string) (importance : option R)
    (m : LongTermMemory) : string * LongTermMemory :=
  let importance := match importance with Some v => v | None => 0.5%R end in
  let id := JS.slice (Sha256.hex content) 0 16 in
  let embedding := getEmbedding m content in
  (id,
   {| db :=
        (filter (fun r => negb (Db.id r =? id)%string) (db m) ++
         [ {| Db.id := id; Db.content := content; Db.embedding := embedding;
              Db.type := type; Db.source := source;
              Db.created_at := clock k; Db.access_count := 0;
              Db.last_accessed := clock (S k);
              Db.importance := importance |} ])%list;
      embeddingDimension := embeddingDimension m;
      provider := provider m |}).

Definition thirtyDays : R := (30 * 24 * 60 * 60 * 1000)%R.

(** The body of [rows.map(...)] in [search], at the time [now] that its
    [Date.now()] reads. *)
Definition scoreRow (queryEmbedding : list R) (now : Z) (row : Db.Row)
  : option SearchResult :=
  let storedEmbedding := Db.embedding row in
  match cosineSimilarity queryEmbedding storedEmbedding with
  | None => None
  | Some similarity =>
      let recencyBoost :=
        Rmax 0 (1 - IZR (now - Db.last_accessed row) / thirtyDays) in
      let boostedSimilarity :=
        (similarity * 0.7 + Db.importance row * 0.2 + recencyBoost * 0.1)%R in
      Some {| entry :=
                {| id := Db.id row; content := Db.content row;
                   embedding := storedEmbedding;
                   metadata :=
                     {| type := Db.type row; source := Db.source row;
                        createdAt := Db.created_at row;
                        accessCount := Db.access_count row;
                        lastAccessed := Db.last_accessed row;
                        importance := Db.importance row |} |};
              similarity := boostedSimilarity |}
  end.

(** [rows.map(...)]: the rows read [clock k], [clock (k + 1)], ...; the
    first row whose vector has another length than the query's makes the
    whole call throw. *)
Fixpoint scoreRows (queryEmbedding : list R) (clock : nat -> Z) (k : nat)
    (rows : list Db.Row) : option (list SearchResult) :=
  match rows with
  | [] => Some []
  | row :: rest =>
      match scoreRow queryEmbedding (clock k) row with
      | None => None
      | Some r =>
          match scoreRows queryEmbedding clock (S k) rest with
          | None => None
          | Some rs => Some (r :: rs)
          end
      end
  end.

Definition touch (now : Z) (id : string) (rows : list Db.Row) : list Db.Row :=
  map (fun r =>
         if (Db.id r =? id)%string then
           {| Db.id := Db.id r; Db.content := Db.content r;
              Db.embedding := Db.embedding r; Db.type := Db.type r;
              Db.source := Db.source r; Db.created_at := Db.created_at r;
              Db.access_count := Db.access_count r + 1;
              Db.last_accessed := now;
              Db.importance := Db.importance r |}
         else r) rows.

Fixpoint touchAll (clock : nat -> Z) (k : nat) (results : list SearchResult)
    (rows : list Db.Row) : list Db.Row :=
  match results with
  | [] => rows
  | r :: rest => touchAll clock (S k) rest (touch (clock k) (id (entry r)) rows)
  end.

(** [search(query, { limit, type, minSimilarity })]: [None] when it throws,
    else the results and the memory afterwards.  Its readings of
    [Date.now()] are [clock k], [clock (k + 1)], ... in the order the call
    makes them: one for each row scanned, then one for each result. *)
Definition search (clock : nat -> Z) (k : nat) (query : string) (limit : Z)
    (type : option EntryType) (minSimilarity : R) (m : LongTermMemory)
  : option (list SearchResult * LongTermMemory) :=
  let queryEmbedding := getEmbedding m query in
  let rows :=
    match type with
    | Some t =>
        filter (fun r => (typeName (Db.type r) =? typeName t)%string) (db m)
    | None => db m
    end in
  match scoreRows queryEmbedding clock k rows with
  | None => None
  | Some scored =>
      let results :=
        JS.sliceTo
          (LongTerm.sortBy (fun a b => (similarity b - similarity a)%R)
             (filter (fun r => Num.leb minSimilarity (similarity r)) scored))
          limit in
      Some (results,
            {| db := touchAll clock (k + List.length rows) results (db m);
               embeddingDimension := embeddingDimension m;
               provider := provider m |})
  end.

(** The [WHERE] clause of [decay]. *)
Definition decays (cutoff : R) (row : Db.Row) : bool :=
  Num.ltb (IZR (Db.last_accessed row)) cutoff
  && Num.ltb (Db.importance row) 0.8
  && (Db.access_count row <? 3).

(** [decay(maxAge)], [maxAge] in milliseconds. *)
Definition decay (now : Z) (maxAge : R) (m : LongTermMemory)
  : Z * LongTermMemory :=
  let cutoff := (IZR now - maxAge)%R in
  (Z.of_nat (List.length (filter (decays cutoff) (db m))),
   {| db := filter (fun r => negb (decays cutoff r)) (db m);
      embeddingDimension := embeddingDimension m;
      provider := provider m |}).


End LongTerm.

(** *** Episodic memory *)

Module Episodic.

(** A row of the table [episodes].  The columns [tools_used], [topics] and
    [lessons] hold the JSON text of an array of strings: the array is kept
    here and its text is [jsonArray] of it. *)
Record Row := {
  id : string;
  session_id : string;
  summary : string;
  messages : list ShortTerm.Message;
  started_at : Z;
  ended_at : Z;
  user_goal : option string;
  outcome : string;
  tools_used : list string;
  topics : list string;
  lessons : option (list string)
}.

Definition EpisodicMemory := list Row.

(** [JSON.stringify] of a string. *)
Definition jsonChar (c : ascii) : string :=
  let n := JS.charCode c in
  if n =? 34 then String (ascii_of_nat 92) (String c EmptyString)
  else if n =? 92 then "\\"
  else if n =? 8 then "\b" else if n =? 12 then "\f"
  else if n =? 10 then "\n" else if n =? 13 then "\r"
  else if n =? 9 then "\t"
  else if n <? 32 then "\u00" ++ Sha256.hexOf 2 n
  else String c EmptyString.

Fixpoint jsonChars (s : string) : string :=
  match s with
  | EmptyString => EmptyString
  | String c s' => jsonChar c ++ jsonChars s'
  end.

Definition jsonString (s : string) : string :=
  String (ascii_of_nat 34) (jsonChars s ++ String (ascii_of_nat 34) EmptyString).

(** [JSON.stringify] of an array of strings. *)
Definition jsonArray (l : list string) : string :=
  "[" ++ JS.join "," (map jsonString l) ++ "]".

(** The case folding of SQLite's [LIKE]: the 26 letters of ASCII. *)
Definition fold (c : ascii) : ascii :=
  let n := JS.charCode c in
  if (65 <=? n) && (n <=? 90) then ascii_of_N (Z.to_N (n + 32)) else c.

(** [text LIKE pattern]: [%] stands for any run of characters, [_] for any
    one character, letters match without regard to case. *)
Fixpoint like (pattern : string) : string -> bool :=
  match pattern with
  | EmptyString =>
      fun text => match text with EmptyString => true | _ => false end
  | String p pattern' =>
      if (JS.charCode p =? 37) then
        fix rest (text : string) : bool :=
          like pattern' text
          || match text with
             | EmptyString => false
             | String _ text' => rest text'
             end
      else if (JS.charCode p =? 95) then
        fun text =>
          match text with
          | EmptyString => false
          | String _ text' => like pattern' text'
          end
      else
        fun text =>
          match text with
          | EmptyString => false
          | String c text' =>
              (JS.charCode (fold p) =? JS.charCode (fold c)) && like pattern' text'
          end
  end.

(** [LIMIT n]: a negative [n] is no limit. *)
Definition limitTo {A} (n : Z) (l : list A) : list A :=
  if n <? 0 then l else firstn (Z.to_nat n) l.

(** The [WHERE] clause of [searchEpisodes]; a [NULL] goal matches nothing. *)
Definition matches (query : string) (row : Row) : bool :=
  let pattern := "%" ++ query ++ "%" in
  like pattern (summary row)
  || like pattern (jsonArray (topics row))
  || match user_goal row with
     | Some goal => like pattern goal
     | None => false
     end.

(** [searchEpisodes(query, limit)], as rows: [rowToEpisode] renames the
    columns. *)
Definition searchEpisodes (query : string) (limit : Z) (e : EpisodicMemory)
  : list Row :=
  limitTo limit
    (LongTerm.sortBy (fun a b => IZR (started_at b - started_at a))
       (filter (matches query) e)).

(** [[...new Set(allLessons)]]: the first occurrence of each lesson, in
    order. *)
Fixpoint dedupe (seen : list string) (l : list string) : list string :=
  match l with
  | [] => []
  | x :: l' =>
      if existsb (String.eqb x) seen then dedupe seen l'
      else x :: dedupe (x :: seen) l'
  end.

(** [getLessons()]. *)
Definition getLessons (e : EpisodicMemory) : list string :=
  let rows :=
    filter (fun row => match lessons row with
                       | Some l => negb (jsonArray l =? "[]")%string
                       | None => false
                       end) e in
  let allLessons :=
    flat_map (fun row => match lessons row with Some l => l | None => [] end)
             rows in
  dedupe [] allLessons.

(** [getRecent(limit)]: [ORDER BY started_at DESC LIMIT ?]. *)
Definition getRecent (limit : Z) (e : EpisodicMemory) : list Row :=
  limitTo limit
    (LongTerm.sortBy (fun a b => IZR (started_at b - started_at a)) e).

(** What the model answers to [saveEpisode], once parsed. *)
Record Meta := {
  metaSummary : string;
  userGoal : option string;
  metaOutcome : string;
  toolsUsed : option (list string);
  topicsDiscussed : option (list string);
  lessonsLearned : option (list string)
}.

(** [String(n)] for an integer. *)
Definition ofZ (n : Z) : string :=
  if n <? 0 then "-" ++ JS.ofNat (Z.to_nat (- n)) else JS.ofNat (Z.to_nat n).

Definition orEmpty (l : option (list string)) : list string :=
  match l with Some x => x | None => [] end.

(** [saveEpisode(sessionId, messages, llm)], given the answer [meta] of the
    model.  [clock k] names the episode; [started_at] and [ended_at] are
    the times of the first and of the last message, and a further reading
    of the clock where the message or its time is missing.  The [INSERT]
    fails ([None]) when an episode has the id already. *)
Definition saveEpisode (clock : nat -> Z) (k : nat) (sessionId : string)
    (messages : list ShortTerm.Message) (meta : Meta) (e : EpisodicMemory)
  : option (string * EpisodicMemory) :=
  let id := "ep_" ++ sessionId ++ "_" ++ ofZ (clock k) in
  let first :=
    match messages with
    | m :: _ => ShortTerm.timestamp m
    | [] => None
    end in
  let started := match first with Some t => t | None => clock (S k) end in
  let k' := match first with Some _ => S k | None => S (S k) end in
  let ended :=
    match last (map ShortTerm.timestamp messages) None with
    | Some t => t
    | None => clock k'
    end in
  if existsb (fun r => (Episodic.id r =? id)%string) e then None
  else
    Some (id,
          (e ++ [ {| id := id; session_id := sessionId;
                     summary := metaSummary meta; messages := messages;
                     started_at := started; ended_at := ended;
                     user_goal := userGoal meta; outcome := metaOutcome meta;
                     tools_used := orEmpty (toolsUsed meta);
                     topics := orEmpty (topicsDiscussed meta);
                     lessons := Some (orEmpty (lessonsLearned meta)) |} ])%list).

End Episodic.

(** *** The three memories together *)

Module Agent.

Record AgentMemory := {
  shortTerm : ShortTerm.ShortTermMemory;
  longTerm : LongTerm.LongTermMemory;
  episodic : Episodic.EpisodicMemory
}.

(** [arr.splice(1, 0, x)]. *)
Definition spliceAt1 {A} (l : list A) (x : A) : list A :=
  (firstn 1 l ++ x :: skipn 1 l)%list.

Definition newline : string := String (ascii_of_nat 10) EmptyString.

(** The text that [buildContext] builds from the two searches and the
    lessons; [toLocaleDateString] is the date format of the host's locale. *)
Definition contextInjection (toLocaleDateString : Z -> string)
    (relevantMemories : list LongTerm.SearchResult)
    (relevantEpisodes : list Episodic.Row) (lessons : list string) : string :=
  let injection := "" in
  let injection :=
    if (0 <? List.length relevantMemories)%nat then
      fold_left
        (fun acc mem =>
           acc ++ "- ["
               ++ LongTerm.typeName
                    (LongTerm.type (LongTerm.metadata (LongTerm.entry mem)))
               ++ "] " ++ LongTerm.content (LongTerm.entry mem) ++ newline)
        relevantMemories
        (injection ++ newline ++ newline
           ++ "## Relevant Information from Memory" ++ newline)
    else injection in
  let injection :=
    if (0 <? List.length relevantEpisodes)%nat then
      fold_left
        (fun acc ep =>
           acc ++ "- [" ++ toLocaleDateString (Episodic.started_at ep) ++ "] "
               ++ Episodic.summary ep ++ " (outcome: " ++ Episodic.outcome ep
               ++ ")" ++ newline)
        relevantEpisodes
        (injection ++ newline ++ newline ++ "## Relevant Past Sessions" ++ newline)
    else injection in
  if (0 <? List.length lessons)%nat then
    fold_left (fun acc lesson => acc ++ "- " ++ lesson ++ newline)
              (JS.sliceLast lessons 10)
              (injection ++ newline ++ newline ++ "## Lessons Learned" ++ newline)
  else injection.

Definition systemMessage (text : string) : ShortTerm.Message :=
  {| ShortTerm.role := ShortTerm.system; ShortTerm.content := text;
     ShortTerm.name := None; ShortTerm.toolCallId := None;
     ShortTerm.tool_call_id := None; ShortTerm.timestamp := None;
     ShortTerm.metadata := None |}.

(** [buildContext(userMessage)]: [None] when the search throws, else the
    messages returned and the memory afterwards (the search has touched the
    rows it returned). *)
Definition buildContext (toLocaleDateString : Z -> string) (clock : nat -> Z)
    (userMessage : string) (a : AgentMemory)
  : option (list ShortTerm.Message * AgentMemory) :=
  match LongTerm.search clock 0 userMessage 5 None 0.3 (longTerm a) with
  | None => None
  | Some (relevantMemories, longTerm') =>
      let relevantEpisodes := Episodic.searchEpisodes userMessage 3 (episodic a) in
      let lessons := Episodic.getLessons (episodic a) in
      let injection :=
        contextInjection toLocaleDateString relevantMemories relevantEpisodes
                         lessons in
      let a' := {| shortTerm := shortTerm a; longTerm := longTerm';
                   episodic := episodic a |} in
      if (0 <? String.length injection)%nat then
        Some (spliceAt1 (ShortTerm.getForAPI (shortTerm a))
                        (systemMessage ("Context from your memory:" ++ injection)),
              a')
      else Some (ShortTerm.getMessages (shortTerm a), a')
  end.






(** [maintenance()]: [decay()] with its default of 90 days. *)
Definition maintenance (now : Z) (a : AgentMemory) : Z * AgentMemory :=
  let r := LongTerm.decay now (90 * 24 * 60 * 60 * 1000)%R (longTerm a) in
  (fst r, {| shortTerm := shortTerm a; longTerm := snd r;
             episodic := episodic a |}).

End Agent.

(** *** Memory management strategies *)

Module Strategies.

(** [s.includes(word)]. *)
Fixpoint includes (word s : string) : bool :=
  prefix word s
  || match s with
     | EmptyString => false
     | String _ s' => includes word s'
     end.

Fixpoint foldCase (s : string) : string :=
  match s with
  | EmptyString => EmptyString
  | String c s' => String (Episodic.fold c) (foldCase s')
  end.

(** [/w1|w2|.../i.test(content)] for alternatives in lower case. *)
Definition test (alternatives : list string) (content : string) : bool :=
  existsb (fun w => includes w (foldCase content)) alternatives.

(** [scoreImportance(content, context)]. *)
Definition scoreImportance (content context : string) : R :=
  let score := 0.5%R in
  let score :=
    if test ["prefer"; "always"; "never"; "like"; "hate"; "want"] content
    then (score + 0.2)%R else score in
  let score :=
    if test ["step"; "process"; "how to"; "guide"; "command"] content
    then (score + 0.15)%R else score in
  let score :=
    if test ["password"; "key"; "secret"; "name"; "email"; "url"; "port"] content
    then (score + 0.2)%R else score in
  let score :=
    if test ["actually"; "correction"; "wrong"; "mistake"; "instead"] content
    then (score + 0.25)%R else score in
  Rmin score 1.0.

End Strategies.

(** *** Plan and execute: the order of the steps *)

Module Plan.

(** A [PlanStep].  Its [params] and [result] are left out: the sort reads
    [id] and [dependencies] only and moves the steps as they are.  The ids
    are integers. *)
Record PlanStep := {
  id : Z;
  description : string;
  tool : string;
  dependencies : list Z;
  status : string
}.

(** The two variables that [visit] writes: the array [sorted] and the set
    [visited], which is used through [has] and [add] only. *)
Record State := { sorted : list PlanStep; visited : list Z }.

Definition has (i : Z) (visited : list Z) : bool := existsb (Z.eqb i) visited.

(** [steps.find(s => s.id === depId)]. *)
Definition findStep (steps : list PlanStep) (depId : Z) : option PlanStep :=
  find (fun s => id s =? depId) steps.

(** The loop [for (const depId of step.dependencies)], for a given
    [visit]. *)
Fixpoint visitAll (visit : PlanStep -> State -> option State)
    (steps : list PlanStep) (deps : list Z) (st : State) : option State :=
  match deps with
  | [] => Some st
  | depId :: deps' =>
      match findStep steps depId with
      | Some dep =>
          match visit dep st with
          | Some st' => visitAll visit steps deps' st'
          | None => None
          end
      | None => visitAll visit steps deps' st
      end
  end.

(** [visit(step)], with a bound on the depth of the recursion: [None] when
    the bound is reached. *)
Fixpoint visit (fuel : nat) (steps : list PlanStep) (step : PlanStep)
    (st : State) : option State :=
  match fuel with
  | O => None
  | S fuel' =>
      if has (id step) (visited st) then Some st
      else
        match visitAll (visit fuel' steps) steps (dependencies step)
                       {| sorted := sorted st;
                          visited := id step :: visited st |} with
        | Some st' =>
            Some {| sorted := (sorted st' ++ [step])%list;
                    visited := visited st' |}
        | None => None
        end
  end.

(** [steps.forEach(visit)]. *)
Fixpoint forEach (visit : PlanStep -> State -> option State)
    (l : list PlanStep) (st : State) : option State :=
  match l with
  | [] => Some st
  | step :: l' =>
      match visit step st with
      | Some st' => forEach visit l' st'
      | None => None
      end
  end.

(** [topologicalSort(steps)].  The recursion is given one level more than
    the plan has steps. *)
Definition topologicalSort (steps : list PlanStep) : option (list PlanStep) :=
  match forEach (visit (S (List.length steps)) steps) steps
                {| sorted := []; visited := [] |} with
  | Some st => Some (sorted st)
  | None => None
  end.

End Plan.

(** *** Messages between agents *)

Module Network.

Record AgentMessage := {
  from : string;
  to : string;
  content : string;
  timestamp : Z
}.

(** [mailboxes], a [Map] from names to arrays: its entries in the order of
    insertion. *)
Definition AgentNetwork := list (string * list AgentMessage).

(** [mailboxes.get(name)]. *)
Definition get (name : string) (net : AgentNetwork)
  : option (list AgentMessage) :=
  match find (fun e => (fst e =? name)%string) net with
  | Some e => Some (snd e)
  | None => None
  end.

(** [mailboxes.set(name, value)]. *)
Fixpoint set (name : string) (value : list AgentMessage) (net : AgentNetwork)
  : AgentNetwork :=
  match net with
  | [] => [(name, value)]
  | (k, x) :: net' =>
      if (k =? name)%string then (k, value) :: net'
      else (k, x) :: set name value net'
  end.

(** [mailboxes.get(name) ?? []]. *)
Definition inboxOf (name : string) (net : AgentNetwork) : list AgentMessage :=
  match get name net with
  | Some inbox => inbox
  | None => []
  end.

(** [send(msg)]. *)
Definition send (msg : AgentMessage) (net : AgentNetwork) : AgentNetwork :=
  set (to msg) (inboxOf (to msg) net ++ [msg])%list net.

(** [receive(agentName)]: the messages and the network afterwards. *)
Definition receive (agentName : string) (net : AgentNetwork)
  : list AgentMessage * AgentNetwork :=
  (inboxOf agentName net, set agentName [] net).

End Network.

End Guide.

(** ** The specification's own words

    Notions that the specification uses and the sources do not define, and
    the operations it describes where it describes them otherwise than the
    sources implement them. *)

Module Spec.

(** The dot product of two vectors. *)
Fixpoint dot (a b : list R) : R :=
  match a, b with
  | x :: a', y :: b' => (x * y + dot a' b')%R
  | _, _ => 0%R
  end.

(** The Euclidean norm of a vector. *)
Definition norm (v : list R) : R := sqrt (LongTerm.sumSquares v).

(** Some feature of the vector is not zero. *)
Definition nonzero (v : list Z) : bool := existsb (fun z => negb (z =? 0)) v.

(** The invariant of the table: every row carries the id of its content,
    as [store] writes it. *)
Definition idsFromContent (rows : list LongTerm.Db.Row) : Prop :=
  forall r, In r rows -> LongTerm.Db.id r = LongTerm.idOf (LongTerm.Db.content r).


(** The condition of [decay(max_age, importance_floor, access_floor)] as the
    specification words it; [access_floor = None] is an infinite floor. *)
Definition decays (now : Z) (max_age importance_floor : R)
    (access_floor : option Z) (row : LongTerm.Db.Row) : bool :=
  Num.ltb max_age (IZR (now - LongTerm.Db.last_accessed row))
  && Num.ltb (LongTerm.Db.importance row) importance_floor
  && match access_floor with
     | Some floor => LongTerm.Db.access_count row <? floor
     | None => true
     end.

(** The rows that the specification's [decay] leaves. *)
Definition decay (now : Z) (max_age importance_floor : R)
    (access_floor : option Z) (m : LongTerm.LongTermMemory)
  : list LongTerm.Db.Row :=
  filter (fun r => negb (decays now max_age importance_floor access_floor r))
         (LongTerm.db m).

(** The order of the specification's [search]: the higher blended score
    first and, between equal scores, the row accessed last first. *)
Definition before (a b : LongTerm.Db.Row * LongTerm.SearchResult) : bool :=
  Num.ltb (LongTerm.similarity (snd b)) (LongTerm.similarity (snd a))
  || (Num.eqb (LongTerm.similarity (snd a)) (LongTerm.similarity (snd b))
      && (LongTerm.Db.last_accessed (fst b) <? LongTerm.Db.last_accessed (fst a))).

Fixpoint insertRanked (x : LongTerm.Db.Row * LongTerm.SearchResult)
    (l : list (LongTerm.Db.Row * LongTerm.SearchResult))
  : list (LongTerm.Db.Row * LongTerm.SearchResult) :=
  match l with
  | [] => [x]
  | y :: l' => if before y x then y :: insertRanked x l' else x :: l
  end.

(** [search(query, limit, min_similarity)] as the specification words it:
    the rows whose blended score reaches [min_similarity], in the order
    [before], cut to the first [limit]. *)
Definition search (query : string) (limit : Z) (minSimilarity : R)
    (m : LongTerm.LongTermMemory) : list LongTerm.SearchResult :=
  let queryEmbedding := LongTerm.embed (LongTerm.dimension m) query in
  firstn (Z.to_nat limit)
    (map snd
       (fold_right insertRanked []
          (filter (fun p => Num.leb minSimilarity (LongTerm.similarity (snd p)))
             (map (fun row =>
                     (row, LongTerm.scoreRow queryEmbedding
                                             (LongTerm.dimension m) row))
                  (LongTerm.db m))))).

(** The polynomial hash of a string in base 31, from [h]:
    [s[0] * 31^(n-1) + ... + s[n-1]], over the integers. *)
Fixpoint poly31 (h : Z) (s : string) : Z :=
  match s with
  | EmptyString => h
  | String c s' => poly31 (31 * h + JS.charCode c) s'
  end.

(** A row after [search] has returned it at time [now]. *)
Definition touched (now : Z) (r : LongTerm.Db.Row) : LongTerm.Db.Row :=
  {| LongTerm.Db.id := LongTerm.Db.id r;
     LongTerm.Db.content := LongTerm.Db.content r;
     LongTerm.Db.embedding := LongTerm.Db.embedding r;
     LongTerm.Db.type := LongTerm.Db.type r;
     LongTerm.Db.source := LongTerm.Db.source r;
     LongTerm.Db.importance := LongTerm.Db.importance r;
     LongTerm.Db.created_at := LongTerm.Db.created_at r;
     LongTerm.Db.access_count := LongTerm.Db.access_count r + 1;
     LongTerm.Db.last_accessed := now |}.

(** The primary key of the table [memories]: no two rows share an id. *)
Definition uniqueIds (rows : list LongTerm.Db.Row) : Prop :=
  NoDup (map LongTerm.Db.id rows).

(** The step is the first of the plan to carry its id. *)
Definition firstOfId (steps : list Guide.Plan.PlanStep)
    (s : Guide.Plan.PlanStep) : Prop :=
  Guide.Plan.findStep steps (Guide.Plan.id s) = Some s.

(** A ranking of the ids under which every dependency that names a step
    of the plan ranks below the step that depends on it. *)
Definition ranked (steps : list Guide.Plan.PlanStep) (rank : Z -> nat) : Prop :=
  forall s d,
    firstOfId steps s ->
    In d (Guide.Plan.dependencies s) ->
    In d (map Guide.Plan.id steps) ->
    (rank d < rank (Guide.Plan.id s))%nat.

(** The plan has no circular dependency. *)
Definition acyclic (steps : list Guide.Plan.PlanStep) : Prop :=
  exists rank : Z -> nat, ranked steps rank.

(** In the list [l], whatever a step depends on, if it names a step of the
    plan, comes before the step. *)
Definition depsFirst (steps l : list Guide.Plan.PlanStep) : Prop :=
  forall l1 s l2 d,
    l = (l1 ++ s :: l2)%list ->
    In d (Guide.Plan.dependencies s) ->
    In d (map Guide.Plan.id steps) ->
    In d (map Guide.Plan.id l1).

(** The ids whose visit has begun and has not ended. *)
Definition onStack (st : Guide.Plan.State) (v : Z) : Prop :=
  In v (Guide.Plan.visited st)
  /\ ~ In v (map Guide.Plan.id (Guide.Plan.sorted st)).

(** How many steps of the plan carry an id that is not visited yet. *)
Definition unvisited (steps : list Guide.Plan.PlanStep) (visited : list Z)
  : nat :=
  List.length (filter (fun i => negb (Guide.Plan.has i visited))
                      (map Guide.Plan.id steps)).

(** The invariant of the sort: the steps sorted so far are the first of
    their ids, no two of them share an id, and their ids are visited. *)
Definition sortInv (steps : list Guide.Plan.PlanStep) (st : Guide.Plan.State)
  : Prop :=
  (forall s, In s (Guide.Plan.sorted st) -> firstOfId steps s)
  /\ NoDup (map Guide.Plan.id (Guide.Plan.sorted st))
  /\ (forall s, In s (Guide.Plan.sorted st) ->
                In (Guide.Plan.id s) (Guide.Plan.visited st)).

(** What [visit] asks of the step: it is the first of its id, unless that
    id is visited. *)
Definition visitPre (steps : list Guide.Plan.PlanStep)
    (step : Guide.Plan.PlanStep) (st : Guide.Plan.State) : Prop :=
  Guide.Plan.has (Guide.Plan.id step) (Guide.Plan.visited st) = false ->
  firstOfId steps step.

(** What a visit of [step] that leads from [st] to [st'] has done. *)
Definition visitPost (steps : list Guide.Plan.PlanStep)
    (step : Guide.Plan.PlanStep) (st st' : Guide.Plan.State) : Prop :=
  sortInv steps st'
  /\ (exists extra,
        Guide.Plan.sorted st' = (Guide.Plan.sorted st ++ extra)%list)
  /\ (forall v, In v (Guide.Plan.visited st) -> In v (Guide.Plan.visited st'))
  /\ (forall v, onStack st' v <-> onStack st v)
  /\ In (Guide.Plan.id step) (Guide.Plan.visited st')
  /\ (forall rank,
        ranked steps rank ->
        depsFirst steps (Guide.Plan.sorted st) ->
        (forall v, onStack st v -> (rank (Guide.Plan.id step) < rank v)%nat) ->
        depsFirst steps (Guide.Plan.sorted st')).

End Spec.

(** ** Concrete buffers and memories used in the examples below *)

Module Examples.

(** A two-character user message: one token. *)
Definition hi : ShortTerm.Message :=
  {| ShortTerm.role := "user";
     ShortTerm.content := ShortTerm.ContentString "hi";
     ShortTerm.tool_calls := None |}.

(** A forty-character user message: ten tokens. *)
Definition forty : ShortTerm.Message :=
  {| ShortTerm.role := "user";
     ShortTerm.content :=
       ShortTerm.ContentString "0123456789012345678901234567890123456789";
     ShortTerm.tool_calls := None |}.

(** [new ShortTermMemory("sys", budget)] followed by [n] calls of
    [add(msg)]. *)
Fixpoint chat (budget : Z) (msg : ShortTerm.Message) (n : nat)
  : ShortTerm.ShortTermMemory :=
  match n with
  | O => ShortTerm.create 0 "sys" budget
  | S k => ShortTerm.add 0 msg (chat budget msg k)
  end.

(** The buffer that [compactIfNeeded] finds when [add(msg)] calls it: the
    message has been pushed. *)
Definition pushed (msg : ShortTerm.Message) (m : ShortTerm.ShortTermMemory)
  : ShortTerm.ShortTermMemory :=
  {| ShortTerm.messages :=
       (ShortTerm.messages m ++
        [ {| ShortTerm.message := msg; ShortTerm.timestamp := 0;
             ShortTerm.tokenEstimate :=
               ShortTerm.estimateTokens (ShortTerm.extractContent msg) |} ])%list;
     ShortTerm.maxTokens := ShortTerm.maxTokens m |}.

(** A buffer of eight messages whose second is the result of a tool, 1300
    characters long: 325 tokens. *)
Fixpoint xs (n : nat) : string :=
  match n with
  | O => EmptyString
  | S k => String "x" (xs k)
  end.

Definition tracked (msg : ShortTerm.Message) : ShortTerm.TrackedMessage :=
  {| ShortTerm.message := msg; ShortTerm.timestamp := 0;
     ShortTerm.tokenEstimate :=
       ShortTerm.estimateTokens (ShortTerm.extractContent msg) |}.

Definition toolResult : ShortTerm.Message :=
  {| ShortTerm.role := "tool";
     ShortTerm.content := ShortTerm.ContentString (xs 1300);
     ShortTerm.tool_calls := None |}.

Definition toolBuffer : list ShortTerm.TrackedMessage :=
  (ShortTerm.messages (ShortTerm.create 0 "sys" 100)
   ++ tracked toolResult :: repeat (tracked hi) 6)%list.

(** A fresh long-term memory of 256 dimensions in which the preference of
    the specification's scenario has been stored at time 1. *)
Definition darkMode : string := "User prefers dark mode".

Definition remembered (importance : R) : LongTerm.LongTermMemory :=
  snd (LongTerm.store 1 darkMode LongTerm.preference "s1" importance
                      (LongTerm.create 256)).

(** Two notes that differ by their capitals only, stored at times 1 and 2. *)
Definition twoNotes : LongTerm.LongTermMemory :=
  snd (LongTerm.store 2 "Dark Mode" LongTerm.note "s1" 0.5
         (snd (LongTerm.store 1 "dark mode" LongTerm.note "s1" 0.5
                 (LongTerm.create 256)))).

(** The rows that the two calls write. *)
Definition noteA : LongTerm.Db.Row :=
  {| LongTerm.Db.id := LongTerm.idOf "dark mode";
     LongTerm.Db.content := "dark mode";
     LongTerm.Db.embedding := LongTerm.embed 256 "dark mode";
     LongTerm.Db.type := LongTerm.note; LongTerm.Db.source := "s1";
     LongTerm.Db.importance := 0.5%R; LongTerm.Db.created_at := 1;
     LongTerm.Db.access_count := 0; LongTerm.Db.last_accessed := 1 |}.

Definition noteB : LongTerm.Db.Row :=
  {| LongTerm.Db.id := LongTerm.idOf "Dark Mode";
     LongTerm.Db.content := "Dark Mode";
     LongTerm.Db.embedding := LongTerm.embed 256 "Dark Mode";
     LongTerm.Db.type := LongTerm.note; LongTerm.Db.source := "s1";
     LongTerm.Db.importance := 0.5%R; LongTerm.Db.created_at := 2;
     LongTerm.Db.access_count := 0; LongTerm.Db.last_accessed := 2 |}.

(** The guide's classes: a long-term memory that knows the preference of the
    scenario, an episode that left a lesson, and an agent that holds both
    behind a buffer of two messages. *)
Definition ticks (start : Z) : nat -> Z := fun k => start + Z.of_nat k.

Definition guideEmpty : Guide.LongTerm.LongTermMemory :=
  {| Guide.LongTerm.db := []; Guide.LongTerm.embeddingDimension := 384;
     Guide.LongTerm.provider := None |}.

Definition guideRow : Guide.LongTerm.Db.Row :=
  {| Guide.LongTerm.Db.id := JS.slice (Sha256.hex darkMode) 0 16;
     Guide.LongTerm.Db.content := darkMode;
     Guide.LongTerm.Db.embedding := Guide.LongTerm.localEmbedding 384 darkMode;
     Guide.LongTerm.Db.type := Guide.LongTerm.preference;
     Guide.LongTerm.Db.source := "s1";
     Guide.LongTerm.Db.created_at := 1;
     Guide.LongTerm.Db.access_count := 0;
     Guide.LongTerm.Db.last_accessed := 2;
     Guide.LongTerm.Db.importance := 0.9%R |}.

Definition guideRemembered : Guide.LongTerm.LongTermMemory :=
  snd (Guide.LongTerm.store (ticks 1) 0 darkMode Guide.LongTerm.preference
                            "s1" (Some 0.9%R) guideEmpty).

Definition episode : Guide.Episodic.Row :=
  {| Guide.Episodic.id := "ep_s1_1"; Guide.Episodic.session_id := "s1";
     Guide.Episodic.summary := "Fixed the build";
     Guide.Episodic.messages := [];
     Guide.Episodic.started_at := 1; Guide.Episodic.ended_at := 2;
     Guide.Episodic.user_goal := Some "a green build";
     Guide.Episodic.outcome := "success";
     Guide.Episodic.tools_used := [];
     Guide.Episodic.topics := ["ci"];
     Guide.Episodic.lessons := Some ["Always run the tests"] |}.

Definition turn (role : Guide.ShortTerm.Role) (text : string)
  : Guide.ShortTerm.Message :=
  {| Guide.ShortTerm.role := role; Guide.ShortTerm.content := text;
     Guide.ShortTerm.name := None; Guide.ShortTerm.toolCallId := None;
     Guide.ShortTerm.tool_call_id := None;
     Guide.ShortTerm.timestamp := Some 1;
     Guide.ShortTerm.metadata :=
       Some {| Guide.ShortTerm.tokenEstimate := 2;
               Guide.ShortTerm.importance := Guide.ShortTerm.high |} |}.

Definition agent (longTerm : Guide.LongTerm.LongTermMemory)
    (episodic : Guide.Episodic.EpisodicMemory) : Guide.Agent.AgentMemory :=
  {| Guide.Agent.shortTerm :=
       {| Guide.ShortTerm.messages :=
            [turn Guide.ShortTerm.system "You help."; turn Guide.ShortTerm.user "deploy"];
          Guide.ShortTerm.maxTokens := 100000 |};
     Guide.Agent.longTerm := longTerm;
     Guide.Agent.episodic := episodic |}.


(** A host whose dates print as nothing. *)
Definition noDate : Z -> string := fun _ => "".

(** A plan of three steps, given with the last step first. *)
Definition planStep (i : Z) (deps : list Z) : Guide.Plan.PlanStep :=
  {| Guide.Plan.id := i; Guide.Plan.description := "";
     Guide.Plan.tool := "read_file"; Guide.Plan.dependencies := deps;
     Guide.Plan.status := "pending" |}.

Definition plan : list Guide.Plan.PlanStep :=
  [planStep 3 [1; 2]; planStep 2 [1]; planStep 1 []].

Definition mail (sender receiver text : string) : Guide.Network.AgentMessage :=
  {| Guide.Network.from := sender; Guide.Network.to := receiver;
     Guide.Network.content := text; Guide.Network.timestamp := 0 |}.

End Examples.

(** * Short-term memory: token estimates under compaction *)

Section TokenSums.
Import ShortTerm.

Lemma tokensOf_from (l : list TrackedMessage) (a : Z) :
  fold_left (fun sum m => sum + tokenEstimate m) l a = a + tokensOf l.
Proof.
  unfold tokensOf. revert a.
  induction l as [|x l IH]; intro a; simpl.
  - lia.
  - rewrite IH, (IH (tokenEstimate x)). lia.
Qed.

Lemma tokensOf_cons (x : TrackedMessage) (l : list TrackedMessage) :
  tokensOf (x :: l) = tokenEstimate x + tokensOf l.
Proof. unfold tokensOf at 1. simpl. now rewrite tokensOf_from. Qed.

Lemma tokensOf_app (l1 l2 : list TrackedMessage) :
  tokensOf (l1 ++ l2) = tokensOf l1 + tokensOf l2.
Proof.
  induction l1 as [|x l1 IH]; simpl.
  - reflexivity.
  - rewrite !tokensOf_cons, IH. lia.
Qed.

Lemma substring_length_le (n m : nat) (s : string) :
  (String.length (substring n m s) <= m)%nat.
Proof.
  revert n m. induction s as [|c s IH]; intros n m.
  - destruct n, m; simpl; lia.
  - destruct n as [|n].
    + destruct m as [|m]; simpl; [lia|]. specialize (IH 0%nat m). lia.
    + simpl. apply IH.
Qed.

Lemma append_length (s1 s2 : string) :
  String.length (s1 ++ s2) = (String.length s1 + String.length s2)%nat.
Proof. induction s1 as [|c s1 IH]; simpl; [reflexivity | now rewrite IH]. Qed.

(** A truncated tool result is estimated at 132 tokens at most. *)
Lemma truncated_estimate (content : string) :
  estimateTokens
    (JS.slice content 0 500 ++ String (ascii_of_nat 10) "...[truncated for brevity]")
  <= 132.
Proof.
  unfold estimateTokens, JS.ceilDiv, JS.length, JS.slice.
  rewrite append_length.
  pose proof (substring_length_le 0 (500 - 0) content) as Hs.
  set (n := String.length (substring 0 (500 - 0) content)) in *.
  change (String.length (String (ascii_of_nat 10) "...[truncated for brevity]"))
    with 27%nat.
  assert (Hn : 0 <= Z.of_nat (n + 27) <= 527) by lia.
  set (k := Z.of_nat (n + 27)) in *.
  assert (- 132 <= - k / 4).
  { apply Z.div_le_lower_bound; lia. }
  lia.
Qed.

Lemma truncateTool_le (t : TrackedMessage) :
  tokenEstimate (truncateTool t) <= tokenEstimate t.
Proof.
  unfold truncateTool.
  destruct ((role (message t) =? "tool")%string && (300 <? tokenEstimate t)) eqn:E.
  - apply andb_prop in E as [_ E]. apply Z.ltb_lt in E. simpl.
    pose proof (truncated_estimate (extractContent (message t))). lia.
  - lia.
Qed.

Lemma update_tokens_le (f : TrackedMessage -> TrackedMessage) :
  (forall t, tokenEstimate (f t) <= tokenEstimate t) ->
  forall l i, tokensOf (JS.update l i f) <= tokensOf l.
Proof.
  intros Hf. induction l as [|x l IH]; intros i; simpl.
  - destruct i; lia.
  - destruct i as [|i]; rewrite !tokensOf_cons.
    + specialize (Hf x). lia.
    + specialize (IH i). lia.
Qed.

Lemma truncate_indices_le (idxs : list nat) (l : list TrackedMessage) :
  tokensOf (fold_left (fun acc i => JS.update acc i truncateTool) idxs l)
  <= tokensOf l.
Proof.
  revert l. induction idxs as [|i idxs IH]; intro l; simpl.
  - lia.
  - specialize (IH (JS.update l i truncateTool)).
    pose proof (update_tokens_le truncateTool truncateTool_le l i). lia.
Qed.

Lemma truncateOld_le (l : list TrackedMessage) :
  tokensOf (truncateOld l) <= tokensOf l.
Proof. apply truncate_indices_le. Qed.

(** A buffer of more than [keep + keepEnd] messages is its head, its middle
    and its tail. *)
Lemma head_middle_tail (l : list TrackedMessage) :
  (keep + keepEnd < List.length l)%nat ->
  l = (firstn keep l ++ middle l ++ JS.sliceLast l keepEnd)%list.
Proof.
  intro Hlen. unfold middle, JS.sliceLast.
  set (n := (List.length l - keepEnd)%nat).
  rewrite <- (firstn_skipn n l) at 1.
  rewrite <- (firstn_skipn keep (firstn n l)) at 1.
  rewrite firstn_firstn.
  replace (Nat.min keep n) with keep.
  - now rewrite <- app_assoc.
  - unfold n, keep, keepEnd in *. lia.
Qed.

Lemma dropMiddle_tokens (now limit : Z) (l : list TrackedMessage) :
  limit < tokensOf l ->
  (keep + keepEnd < List.length l)%nat ->
  tokensOf (dropMiddle now limit l) = tokensOf l - tokensOf (middle l) + 20.
Proof.
  intros Hover Hlen. unfold dropMiddle.
  apply Z.ltb_lt in Hover. rewrite Hover.
  pose proof Hlen as Hlen'. apply Nat.ltb_lt in Hlen'. rewrite Hlen'.
  assert (Hsplit : tokensOf l
                   = tokensOf (firstn keep l) + tokensOf (middle l)
                     + tokensOf (JS.sliceLast l keepEnd)).
  { rewrite (head_middle_tail l Hlen) at 1. rewrite !tokensOf_app. lia. }
  rewrite tokensOf_app, tokensOf_cons. unfold marker. cbn [tokenEstimate]. lia.
Qed.

Lemma dropMiddle_keeps (now limit : Z) (l : list TrackedMessage) :
  tokensOf l <= limit \/ (List.length l <= keep + keepEnd)%nat ->
  dropMiddle now limit l = l.
Proof.
  intros H. unfold dropMiddle.
  destruct (limit <? tokensOf l) eqn:E1; [|reflexivity].
  destruct (keep + keepEnd <? List.length l)%nat eqn:E2; [|reflexivity].
  apply Z.ltb_lt in E1. apply Nat.ltb_lt in E2. lia.
Qed.

End TokenSums.

(** * C7 *)

(** The total after compaction, exactly: what the first step leaves, and,
    when the second step drops the middle, 20 for the marker in place of
    the estimates of the messages dropped. *)
Lemma compactIfNeeded_tokens (now : Z) (m : ShortTerm.ShortTermMemory) :
  ShortTerm.maxTokens m < ShortTerm.getTokenCount m ->
  let l1 := ShortTerm.truncateOld (ShortTerm.messages m) in
  ShortTerm.getTokenCount (ShortTerm.compactIfNeeded now m)
  = if (ShortTerm.maxTokens m <? ShortTerm.tokensOf l1)
       && (ShortTerm.keep + ShortTerm.keepEnd <? List.length l1)%nat
    then ShortTerm.tokensOf l1 - ShortTerm.tokensOf (ShortTerm.middle l1) + 20
    else ShortTerm.tokensOf l1.
Proof.
  intros Hover l1. unfold ShortTerm.compactIfNeeded.
  destruct (ShortTerm.getTokenCount m <=? ShortTerm.maxTokens m) eqn:E.
  { apply Z.leb_le in E. lia. }
  unfold ShortTerm.getTokenCount at 1. cbn [ShortTerm.messages]. fold l1.
  destruct (ShortTerm.maxTokens m <? ShortTerm.tokensOf l1) eqn:E1;
    destruct (ShortTerm.keep + ShortTerm.keepEnd <? List.length l1)%nat eqn:E2;
    cbn [andb].
  - apply dropMiddle_tokens; [now apply Z.ltb_lt | now apply Nat.ltb_lt].
  - rewrite dropMiddle_keeps; [reflexivity | right; now apply Nat.ltb_ge].
  - rewrite dropMiddle_keeps; [reflexivity | left; now apply Z.ltb_ge].
  - rewrite dropMiddle_keeps; [reflexivity | left; now apply Z.ltb_ge].
Qed.

(** C7, as the code has it.  When the buffer is over budget, compaction
    does not increase the token estimate provided that its second step
    drops nothing (the first step brought the buffer within budget, or the
    buffer holds at most [keep + keepEnd = 11] messages) or that the
    messages it drops are estimated, after the first step, at 20 tokens or
    more, the fixed estimate of the marker that replaces them. *)
Theorem compaction_does_not_increase (now : Z) (m : ShortTerm.ShortTermMemory)
    (Hover : ShortTerm.maxTokens m < ShortTerm.getTokenCount m)
    (Hdrop :
       let l1 := ShortTerm.truncateOld (ShortTerm.messages m) in
       ShortTerm.tokensOf l1 <= ShortTerm.maxTokens m
       \/ (List.length l1 <= ShortTerm.keep + ShortTerm.keepEnd)%nat
       \/ 20 <= ShortTerm.tokensOf (ShortTerm.middle l1)) :
  ShortTerm.getTokenCount (ShortTerm.compactIfNeeded now m)
  <= ShortTerm.getTokenCount m.
Proof.
  rewrite (compactIfNeeded_tokens now m Hover).
  pose proof (truncateOld_le (ShortTerm.messages m)) as H1.
  fold (ShortTerm.getTokenCount m) in H1.
  cbv zeta in Hdrop.
  set (l1 := ShortTerm.truncateOld (ShortTerm.messages m)) in *.
  destruct (ShortTerm.maxTokens m <? ShortTerm.tokensOf l1) eqn:E1;
    destruct (ShortTerm.keep + ShortTerm.keepEnd <? List.length l1)%nat eqn:E2;
    cbn [andb]; try lia.
  apply Z.ltb_lt in E1. apply Nat.ltb_lt in E2.
  destruct Hdrop as [H | [H | H]]; lia.
Qed.

(** The theorem at work: the budget is 50 tokens, the buffer holds the
    marker of an earlier compaction and a thirteenth message arrives. *)
Lemma compaction_does_not_increase_witness :
  let m := Examples.pushed Examples.forty (Examples.chat 50 Examples.forty 11) in
  ShortTerm.maxTokens m < ShortTerm.getTokenCount m
  /\ ShortTerm.getTokenCount (ShortTerm.compactIfNeeded 0 m)
     <= ShortTerm.getTokenCount m.
Proof.
  intro m. split.
  - vm_compute. reflexivity.
  - apply (compaction_does_not_increase 0 m).
    + vm_compute. reflexivity.
    + right. right. vm_compute. discriminate.
Defined.

(** C7 as stated fails.  With a budget of 5 tokens, eleven one-token
    messages after the system prompt make twelve messages and 12 tokens:
    compaction drops one message of 1 token, puts the marker of 20 tokens
    in its place, and leaves 31 tokens. *)
Lemma compaction_can_increase :
  let m := Examples.pushed Examples.hi (Examples.chat 5 Examples.hi 10) in
  ShortTerm.add 0 Examples.hi (Examples.chat 5 Examples.hi 10)
  = ShortTerm.compactIfNeeded 0 m
  /\ ShortTerm.maxTokens m < ShortTerm.getTokenCount m
  /\ ShortTerm.getTokenCount m = 12
  /\ ShortTerm.getTokenCount (ShortTerm.compactIfNeeded 0 m) = 31
  /\ ~ (ShortTerm.getTokenCount (ShortTerm.compactIfNeeded 0 m)
        <= ShortTerm.getTokenCount m).
Proof.
  intro m. repeat split; try reflexivity.
  vm_compute. intro H. apply H. reflexivity.
Qed.

(** * Vectors: sums of squares, norms and cosine similarity *)

Section Vectors.
Open Scope R_scope.

Lemma sumSquares_from (l : list R) (a : R) :
  fold_left (fun mag v => mag + v * v) l a = a + LongTerm.sumSquares l.
Proof.
  unfold LongTerm.sumSquares. revert a.
  induction l as [|x l IH]; intro a; simpl.
  - lra.
  - rewrite IH, (IH (0 + x * x)). lra.
Qed.

Lemma sumSquares_cons (x : R) (l : list R) :
  LongTerm.sumSquares (x :: l) = x * x + LongTerm.sumSquares l.
Proof.
  unfold LongTerm.sumSquares at 1. simpl. rewrite sumSquares_from. lra.
Qed.

Lemma sumSquares_nonneg (l : list R) : 0 <= LongTerm.sumSquares l.
Proof.
  induction l as [|x l IH].
  - unfold LongTerm.sumSquares. simpl. lra.
  - rewrite sumSquares_cons. pose proof (Rle_0_sqr x) as Hx.
    unfold Rsqr in Hx. lra.
Qed.

Lemma sumSquares_scale (c : R) (l : list R) :
  c <> 0 ->
  LongTerm.sumSquares (map (fun v => v / c) l) = LongTerm.sumSquares l / (c * c).
Proof.
  intro Hc. induction l as [|x l IH].
  - unfold LongTerm.sumSquares. simpl. field. exact Hc.
  - simpl. rewrite !sumSquares_cons, IH. field. exact Hc.
Qed.

(** A vector of integers none of which differs from zero sums to zero; one
    with a non-zero component has a positive sum of squares. *)
Lemma sumSquares_zero (v : list Z) :
  Spec.nonzero v = false -> LongTerm.sumSquares (map IZR v) = 0.
Proof.
  induction v as [|z v IH]; intro H.
  - reflexivity.
  - simpl in H. apply orb_false_elim in H as [Hz Hv].
    apply negb_false_iff, Z.eqb_eq in Hz. subst z.
    simpl. rewrite sumSquares_cons, (IH Hv). lra.
Qed.

Lemma sumSquares_pos (v : list Z) :
  Spec.nonzero v = true -> 0 < LongTerm.sumSquares (map IZR v).
Proof.
  induction v as [|z v IH]; intro H.
  - discriminate.
  - simpl. rewrite sumSquares_cons.
    pose proof (sumSquares_nonneg (map IZR v)) as Hv.
    simpl in H. apply orb_prop in H as [Hz | Hr].
    + apply negb_true_iff, Z.eqb_neq in Hz.
      assert (IZR z <> 0) by (now apply not_0_IZR).
      assert (0 < IZR z * IZR z) by (now apply Rsqr_pos_lt).
      lra.
    + specialize (IH Hr). pose proof (Rle_0_sqr (IZR z)) as Hz.
      unfold Rsqr in Hz. lra.
Qed.

Lemma all_zero (v : list Z) :
  Spec.nonzero v = false -> map IZR v = repeat 0 (List.length v).
Proof.
  induction v as [|z v IH]; intro H.
  - reflexivity.
  - simpl in H. apply orb_false_elim in H as [Hz Hv].
    apply negb_false_iff, Z.eqb_eq in Hz. subst z.
    simpl. now rewrite (IH Hv).
Qed.

(** The loop of [cosineSimilarity] computes the dot product and the two
    sums of squares, the second over as many components as [a] has. *)
Lemma sums_spec (a b : list R) (d ma mb : R) :
  (List.length a <= List.length b)%nat ->
  LongTerm.sums a b d ma mb
  = Some (d + Spec.dot a b, ma + LongTerm.sumSquares a,
          mb + LongTerm.sumSquares (firstn (List.length a) b)).
Proof.
  revert b d ma mb. induction a as [|x a IH]; intros b d ma mb Hlen.
  - simpl. unfold LongTerm.sumSquares. simpl.
    destruct b; do 2 f_equal; try lra; f_equal; lra.
  - destruct b as [|y b]; [simpl in Hlen; lia|].
    simpl in Hlen. simpl. rewrite IH by lia.
    rewrite !sumSquares_cons. do 2 f_equal; try lra. f_equal; lra.
Qed.

Lemma sums_short (a b : list R) (d ma mb : R) :
  (List.length b < List.length a)%nat -> LongTerm.sums a b d ma mb = None.
Proof.
  revert b d ma mb. induction a as [|x a IH]; intros b d ma mb Hlen.
  - simpl in Hlen. lia.
  - destruct b as [|y b]; [reflexivity|]. simpl in Hlen. simpl.
    apply IH. lia.
Qed.

Lemma eqb_true (x y : R) : x = y -> Num.eqb x y = true.
Proof. intro H. unfold Num.eqb. now destruct (Req_dec_T x y). Qed.

Lemma eqb_false (x y : R) : x <> y -> Num.eqb x y = false.
Proof. intro H. unfold Num.eqb. now destruct (Req_dec_T x y). Qed.

Lemma ltb_true (x y : R) : x < y -> Num.ltb x y = true.
Proof. intro H. unfold Num.ltb. now destruct (Rlt_dec x y). Qed.

Lemma ltb_false (x y : R) : ~ x < y -> Num.ltb x y = false.
Proof. intro H. unfold Num.ltb. now destruct (Rlt_dec x y). Qed.

Lemma leb_true (x y : R) : x <= y -> Num.leb x y = true.
Proof. intro H. unfold Num.leb. now destruct (Rle_dec x y). Qed.


(** Between two vectors of the same length and of norm 1, the cosine
    similarity is the dot product. *)
Lemma cosine_of_units (a b : list R) :
  List.length a = List.length b ->
  LongTerm.sumSquares a = 1 -> LongTerm.sumSquares b = 1 ->
  LongTerm.cosineSimilarity a b = Spec.dot a b.
Proof.
  intros Hlen Ha Hb. unfold LongTerm.cosineSimilarity.
  rewrite sums_spec by lia.
  rewrite Hlen, firstn_all, Ha, Hb.
  replace (0 + 1) with 1 by lra. rewrite sqrt_1.
  rewrite eqb_false by lra. field.
Qed.

(** Against a vector whose sum of squares is zero it is 0. *)
Lemma cosine_of_zero_l (a b : list R) :
  LongTerm.sumSquares a = 0 -> LongTerm.cosineSimilarity a b = 0.
Proof.
  intro Ha. unfold LongTerm.cosineSimilarity.
  destruct (Nat.le_gt_cases (List.length a) (List.length b)) as [Hlen | Hlen].
  - rewrite sums_spec by exact Hlen. rewrite Ha.
    replace (0 + 0) with 0 by lra. rewrite sqrt_0.
    now rewrite eqb_true.
  - now rewrite sums_short.
Qed.

Lemma dot_self (a : list R) : Spec.dot a a = LongTerm.sumSquares a.
Proof.
  induction a as [|x a IH].
  - reflexivity.
  - simpl. rewrite sumSquares_cons, IH. reflexivity.
Qed.

End Vectors.

(** * The embedding *)

Section Embedding.
Open Scope R_scope.

Lemma update_length {A} (f : A -> A) (l : list A) (i : nat) :
  List.length (JS.update l i f) = List.length l.
Proof.
  revert i. induction l as [|x l IH]; intro i; destruct i; simpl; auto.
Qed.

Lemma features_length (d : nat) (text : string) :
  List.length (LongTerm.features d text) = d.
Proof.
  unfold LongTerm.features.
  set (v0 := repeat 0%Z d).
  assert (H0 : List.length v0 = d) by apply repeat_length.
  clearbody v0.
  set (tri := seq 0 _). clearbody tri.
  revert v0 H0. induction tri as [|i tri IH]; intros v0 H0; simpl.
  - set (ws := JS.splitWs _). clearbody ws.
    revert v0 H0. induction ws as [|w ws IHw]; intros v0 H0; simpl.
    + exact H0.
    + apply IHw. destruct (String.length w <? 2)%nat; [exact H0|].
      unfold LongTerm.bump. now rewrite update_length.
  - apply IH. unfold LongTerm.bump. now rewrite update_length.
Qed.

Lemma embed_length (d : nat) (text : string) :
  List.length (LongTerm.embed d text) = d.
Proof.
  unfold LongTerm.embed.
  destruct (Rlt_dec 0 _); rewrite ?length_map; apply features_length.
Qed.

(** What both embeddings do to their feature vector [v]: divide by the
    magnitude when it is positive.  Without features the result is the zero
    vector; with features it has norm 1. *)
Lemma normalised_zero (v : list Z) :
  Spec.nonzero v = false ->
  (let vec := map IZR v in
   let mag := sqrt (LongTerm.sumSquares vec) in
   if Rlt_dec 0 mag then map (fun x => x / mag) vec else vec)
  = repeat 0 (List.length v).
Proof.
  intro H. cbv zeta.
  rewrite (sumSquares_zero _ H), sqrt_0.
  destruct (Rlt_dec 0 0) as [Hlt | _]; [lra|].
  exact (all_zero _ H).
Qed.

Lemma normalised_unit (v : list Z) :
  Spec.nonzero v = true ->
  LongTerm.sumSquares
    (let vec := map IZR v in
     let mag := sqrt (LongTerm.sumSquares vec) in
     if Rlt_dec 0 mag then map (fun x => x / mag) vec else vec)
  = 1.
Proof.
  intro H. cbv zeta.
  pose proof (sumSquares_pos _ H) as Hpos.
  set (S := LongTerm.sumSquares (map IZR v)) in *.
  assert (Hmag : 0 < sqrt S) by (now apply sqrt_lt_R0).
  destruct (Rlt_dec 0 (sqrt S)) as [_ | Hn]; [|contradiction].
  rewrite sumSquares_scale by lra. fold S.
  rewrite sqrt_sqrt by lra. field. lra.
Qed.

Lemma embed_zero (d : nat) (text : string) :
  Spec.nonzero (LongTerm.features d text) = false ->
  LongTerm.embed d text = repeat 0 d.
Proof.
  intro H. rewrite <- (features_length d text) at 2.
  exact (normalised_zero _ H).
Qed.

Lemma embed_unit (d : nat) (text : string) :
  Spec.nonzero (LongTerm.features d text) = true ->
  LongTerm.sumSquares (LongTerm.embed d text) = 1.
Proof. exact (normalised_unit _). Qed.

Lemma localFeatures_length (d : nat) (text : string) :
  List.length (Guide.LongTerm.localFeatures d text) = d.
Proof.
  unfold Guide.LongTerm.localFeatures.
  set (v0 := repeat 0%Z d).
  assert (H0 : List.length v0 = d) by apply repeat_length.
  clearbody v0.
  set (tri := seq 0 _). clearbody tri.
  revert v0 H0. induction tri as [|i tri IH]; intros v0 H0; simpl.
  - set (ws := JS.splitWs _). clearbody ws.
    revert v0 H0. induction ws as [|w ws IHw]; intros v0 H0; simpl.
    + exact H0.
    + apply IHw. unfold LongTerm.bump. now rewrite update_length.
  - apply IH. unfold LongTerm.bump. now rewrite update_length.
Qed.

Lemma localEmbedding_zero (d : nat) (text : string) :
  Spec.nonzero (Guide.LongTerm.localFeatures d text) = false ->
  Guide.LongTerm.localEmbedding d text = repeat 0 d.
Proof.
  intro H. rewrite <- (localFeatures_length d text) at 2.
  exact (normalised_zero _ H).
Qed.

Lemma localEmbedding_unit (d : nat) (text : string) :
  Spec.nonzero (Guide.LongTerm.localFeatures d text) = true ->
  LongTerm.sumSquares (Guide.LongTerm.localEmbedding d text) = 1.
Proof. exact (normalised_unit _). Qed.

Lemma sumSquares_repeat0 (d : nat) : LongTerm.sumSquares (repeat 0 d) = 0.
Proof.
  induction d as [|d IH].
  - reflexivity.
  - simpl. rewrite sumSquares_cons, IH. lra.
Qed.

End Embedding.

Section Cosine.
Open Scope R_scope.

Lemma dot_zero_r (a : list R) (n : nat) : Spec.dot a (repeat 0 n) = 0.
Proof.
  revert n. induction a as [|x a IH]; intro n.
  - reflexivity.
  - destruct n as [|n]; simpl; [reflexivity|]. rewrite IH. lra.
Qed.

Lemma dot_zero_l (b : list R) (n : nat) : Spec.dot (repeat 0 n) b = 0.
Proof.
  revert n. induction b as [|y b IH]; intro n.
  - destruct n; reflexivity.
  - destruct n as [|n]; simpl; [reflexivity|]. rewrite IH. lra.
Qed.

Lemma firstn_repeat {A} (x : A) (k n : nat) :
  firstn k (repeat x n) = repeat x (Nat.min k n).
Proof.
  revert n. induction k as [|k IH]; intro n.
  - reflexivity.
  - destruct n as [|n]; simpl; [reflexivity|]. now rewrite IH.
Qed.

Lemma cosine_of_zero_r (a : list R) (n : nat) :
  LongTerm.cosineSimilarity a (repeat 0 n) = 0.
Proof.
  unfold LongTerm.cosineSimilarity.
  destruct (Nat.le_gt_cases (List.length a) (List.length (repeat 0 n)))
    as [Hlen | Hlen].
  - rewrite sums_spec by exact Hlen.
    rewrite firstn_repeat, sumSquares_repeat0.
    replace (0 + 0) with 0 by lra. rewrite sqrt_0.
    rewrite (eqb_true 0 0) by reflexivity.
    now destruct (Num.eqb _ 0).
  - now rewrite sums_short.
Qed.

(** Between two embeddings the cosine similarity is the dot product. *)
Lemma cosine_of_embeddings (d : nat) (x y : string) :
  LongTerm.cosineSimilarity (LongTerm.embed d x) (LongTerm.embed d y)
  = Spec.dot (LongTerm.embed d x) (LongTerm.embed d y).
Proof.
  destruct (Spec.nonzero (LongTerm.features d x)) eqn:Hx;
    destruct (Spec.nonzero (LongTerm.features d y)) eqn:Hy.
  - apply cosine_of_units.
    + now rewrite !embed_length.
    + now apply embed_unit.
    + now apply embed_unit.
  - rewrite (embed_zero d y Hy). now rewrite cosine_of_zero_r, dot_zero_r.
  - rewrite (embed_zero d x Hx).
    rewrite cosine_of_zero_l by apply sumSquares_repeat0.
    now rewrite dot_zero_l.
  - rewrite (embed_zero d y Hy). now rewrite cosine_of_zero_r, dot_zero_r.
Qed.

(** The similarity of a text with itself, by whether it has features. *)
Lemma cosine_self (d : nat) (x : string) :
  LongTerm.cosineSimilarity (LongTerm.embed d x) (LongTerm.embed d x)
  = if Spec.nonzero (LongTerm.features d x) then 1 else 0.
Proof.
  rewrite cosine_of_embeddings, dot_self.
  destruct (Spec.nonzero (LongTerm.features d x)) eqn:Hx.
  - now apply embed_unit.
  - rewrite (embed_zero d x Hx). apply sumSquares_repeat0.
Qed.

End Cosine.

(** * C5 *)

(** C5, as the code has it.  The similarity of the embedding of a text with
    itself is 1 when the text has a feature: a trigram, or a word of two
    characters or more, whose contributions do not all cancel.  It is 0
    for every other text, empty or not. *)
Theorem self_similarity (d : nat) (x : string) :
  LongTerm.cosineSimilarity (LongTerm.embed d x) (LongTerm.embed d x)
  = if Spec.nonzero (LongTerm.features d x) then 1%R else 0%R.
Proof. apply cosine_self. Qed.

(** C5 as stated fails: the text "a" is not empty, it has no trigram and its
    one word is shorter than two characters, so its embedding is the zero
    vector and its similarity with itself is 0. *)
Lemma self_similarity_of_a_letter :
  "a" <> ""
  /\ LongTerm.embed 256 "a" = repeat 0%R 256
  /\ LongTerm.cosineSimilarity (LongTerm.embed 256 "a") (LongTerm.embed 256 "a")
     = 0%R
  /\ LongTerm.cosineSimilarity (LongTerm.embed 256 "a") (LongTerm.embed 256 "a")
     <> 1%R.
Proof.
  assert (H : Spec.nonzero (LongTerm.features 256 "a") = false)
    by (vm_compute; reflexivity).
  split; [discriminate|]. split; [now apply embed_zero|].
  rewrite cosine_self, H. split; [reflexivity | lra].
Qed.

(** * C6 *)

(** C6, as the code has it.  The default embedding of a text, in either
    source, has norm 1 when the text has a feature and is the zero vector
    otherwise; in both cases the cosine similarity of two embeddings is
    their dot product. *)
Theorem embedding_normalised (d : nat) (x : string) :
  (if Spec.nonzero (LongTerm.features d x)
   then Spec.norm (LongTerm.embed d x) = 1%R
   else LongTerm.embed d x = repeat 0%R d)
  /\ (if Spec.nonzero (Guide.LongTerm.localFeatures d x)
      then Spec.norm (Guide.LongTerm.localEmbedding d x) = 1%R
      else Guide.LongTerm.localEmbedding d x = repeat 0%R d)
  /\ (forall y : string,
        LongTerm.cosineSimilarity (LongTerm.embed d x) (LongTerm.embed d y)
        = Spec.dot (LongTerm.embed d x) (LongTerm.embed d y)).
Proof.
  split; [|split].
  - destruct (Spec.nonzero (LongTerm.features d x)) eqn:H.
    + unfold Spec.norm. rewrite (embed_unit d x H). apply sqrt_1.
    + now apply embed_zero.
  - destruct (Spec.nonzero (Guide.LongTerm.localFeatures d x)) eqn:H.
    + unfold Spec.norm. rewrite (localEmbedding_unit d x H). apply sqrt_1.
    + now apply localEmbedding_zero.
  - intro y. apply cosine_of_embeddings.
Qed.

(** C6 as stated fails: [embed] of the empty text, and of "a", is the zero
    vector, whose norm is 0. *)
Lemma embedding_of_nothing :
  LongTerm.embed 256 "" = repeat 0%R 256
  /\ Spec.norm (LongTerm.embed 256 "") = 0%R
  /\ Spec.norm (LongTerm.embed 256 "") <> 1%R
  /\ Spec.norm (LongTerm.embed 256 "a") <> 1%R.
Proof.
  assert (H : Spec.nonzero (LongTerm.features 256 "") = false)
    by (vm_compute; reflexivity).
  assert (Ha : Spec.nonzero (LongTerm.features 256 "a") = false)
    by (vm_compute; reflexivity).
  assert (N : Spec.norm (repeat 0%R 256) = 0%R).
  { unfold Spec.norm. rewrite sumSquares_repeat0. apply sqrt_0. }
  rewrite (embed_zero 256 "" H), (embed_zero 256 "a" Ha), N.
  repeat split; try reflexivity; lra.
Qed.

(** * The table of memories *)

Section Table.
Import LongTerm.

Lemma insertOrReplace_byId (row : Db.Row) (rows : list Db.Row) :
  filter (fun r => (Db.id r =? Db.id row)%string) (insertOrReplace row rows)
  = [row].
Proof.
  unfold insertOrReplace. rewrite filter_app. simpl.
  rewrite String.eqb_refl.
  replace (filter _ (filter _ rows)) with (@nil Db.Row); [reflexivity|].
  induction rows as [|r rows IH]; simpl; [reflexivity|].
  destruct (Db.id r =? Db.id row)%string eqn:E; simpl.
  - exact IH.
  - rewrite E. exact IH.
Qed.

Lemma insertOrReplace_In (row r : Db.Row) (rows : list Db.Row) :
  In r (insertOrReplace row rows)
  <-> r = row \/ (In r rows /\ Db.id r <> Db.id row).
Proof.
  unfold insertOrReplace. rewrite in_app_iff, filter_In. simpl.
  rewrite negb_true_iff, String.eqb_neq. intuition.
Qed.

Lemma insertOrReplace_byContent (row : Db.Row) (rows : list Db.Row) :
  Spec.idsFromContent rows ->
  Db.id row = idOf (Db.content row) ->
  filter (fun r => (Db.content r =? Db.content row)%string)
         (insertOrReplace row rows)
  = [row].
Proof.
  intros Hids Hrow. unfold insertOrReplace. rewrite filter_app. simpl.
  rewrite String.eqb_refl.
  replace (filter _ (filter _ rows)) with (@nil Db.Row); [reflexivity|].
  induction rows as [|r rows IH]; simpl; [reflexivity|].
  assert (Hr : Db.id r = idOf (Db.content r)) by (apply Hids; now left).
  assert (Hrows : Spec.idsFromContent rows) by (intros x Hx; apply Hids; now right).
  destruct (Db.id r =? Db.id row)%string eqn:E; simpl.
  - now apply IH.
  - destruct (Db.content r =? Db.content row)%string eqn:Ec.
    + apply String.eqb_eq in Ec. apply String.eqb_neq in E.
      exfalso. apply E. now rewrite Hr, Hrow, Ec.
    + now apply IH.
Qed.

Lemma store_keeps_ids (now : Z) (c : string) (ty : MemoryType)
    (src : string) (imp : R) (m : LongTermMemory) :
  Spec.idsFromContent (db m) -> Spec.idsFromContent (db (snd (store now c ty src imp m))).
Proof.
  intros Hids r Hr. simpl in Hr. apply insertOrReplace_In in Hr.
  destruct Hr as [-> | [Hr _]]; [reflexivity | now apply Hids].
Qed.

End Table.

(** * Sorting *)

Section Sorting.
Context {A : Type}.
Variable cmp : A -> A -> R.

Lemma insertBy_perm (x : A) (l : list A) :
  Permutation (LongTerm.insertBy cmp x l) (x :: l).
Proof.
  induction l as [|y l IH]; simpl.
  - apply Permutation_refl.
  - destruct (Num.ltb 0 (cmp x y)).
    + apply Permutation_trans with (y :: x :: l).
      * now apply perm_skip.
      * apply perm_swap.
    + apply Permutation_refl.
Qed.

Lemma sortBy_perm (l : list A) : Permutation (LongTerm.sortBy cmp l) l.
Proof.
  induction l as [|x l IH]; simpl.
  - apply perm_nil.
  - apply Permutation_trans with (x :: LongTerm.sortBy cmp l).
    + apply insertBy_perm.
    + now apply perm_skip.
Qed.

Lemma sortBy_In (x : A) (l : list A) : In x (LongTerm.sortBy cmp l) <-> In x l.
Proof.
  split; apply Permutation_in;
    [apply sortBy_perm | apply Permutation_sym, sortBy_perm].
Qed.

End Sorting.

Lemma filter_perm {A} (f : A -> bool) (l l' : list A) :
  Permutation l l' -> Permutation (filter f l) (filter f l').
Proof.
  induction 1 as [| x l l' _ IH | x y l | l l' l'' _ IH1 _ IH2]; simpl.
  - apply perm_nil.
  - destruct (f x); [now apply perm_skip | exact IH].
  - destruct (f x), (f y);
      try apply Permutation_refl; apply perm_swap.
  - now apply Permutation_trans with (filter f l').
Qed.

Lemma filter_map {A B} (g : A -> B) (f : B -> bool) (l : list A) :
  filter f (map g l) = map g (filter (fun x => f (g x)) l).
Proof.
  induction l as [|x l IH]; simpl; [reflexivity|].
  destruct (f (g x)); simpl; now rewrite IH.
Qed.

Lemma firstn_In {A} (x : A) (k : nat) (l : list A) :
  In x (firstn k l) -> In x l.
Proof.
  intro H. rewrite <- (firstn_skipn k l). apply in_or_app. now left.
Qed.

Lemma sliceTo_In {A} (x : A) (l : list A) (n : Z) :
  In x (JS.sliceTo l n) -> In x l.
Proof. unfold JS.sliceTo. destruct (n <? 0); apply firstn_In. Qed.

(** * C1 *)

(** C1.  For a content that is not empty, two calls of [store] in sequence
    return the same id, and the table then holds one record of that
    content, the one the second call wrote, with an access count of 0;
    [getAll] shows that one record.  The table the calls start from is any
    table whose ids are those of its contents, as [store] writes them. *)
Theorem store_twice (now1 now2 : Z) (c : string)
    (ty1 ty2 : LongTerm.MemoryType) (src1 src2 : string) (imp1 imp2 : R)
    (m : LongTerm.LongTermMemory)
    (Hc : c <> "")
    (Hids : Spec.idsFromContent (LongTerm.db m)) :
  let first := LongTerm.store now1 c ty1 src1 imp1 m in
  let second := LongTerm.store now2 c ty2 src2 imp2 (snd first) in
  let row :=
    {| LongTerm.Db.id := LongTerm.idOf c; LongTerm.Db.content := c;
       LongTerm.Db.embedding := LongTerm.embed (LongTerm.dimension m) c;
       LongTerm.Db.type := ty2; LongTerm.Db.source := src2;
       LongTerm.Db.importance := imp2; LongTerm.Db.created_at := now2;
       LongTerm.Db.access_count := 0; LongTerm.Db.last_accessed := now2 |} in
  fst first = fst second
  /\ filter (fun r => (LongTerm.Db.content r =? c)%string)
            (LongTerm.db (snd second)) = [row]
  /\ filter (fun r => (LongTerm.content r =? c)%string)
            (LongTerm.getAll (snd second)) = [LongTerm.toRecord row]
  /\ LongTerm.accessCount (LongTerm.toRecord row) = 0.
Proof.
  intros first second row.
  assert (Hids1 : Spec.idsFromContent (LongTerm.db (snd first)))
    by (now apply store_keeps_ids).
  assert (Hrows : filter (fun r => (LongTerm.Db.content r =? c)%string)
                         (LongTerm.db (snd second)) = [row]).
  { exact (insertOrReplace_byContent row _ Hids1 eq_refl). }
  repeat split; try reflexivity; [exact Hrows|].
  unfold LongTerm.getAll. rewrite filter_map.
  change (fun x => (LongTerm.content (LongTerm.toRecord x) =? c)%string)
    with (fun r => (LongTerm.Db.content r =? c)%string).
  change [LongTerm.toRecord row] with (map LongTerm.toRecord [row]).
  f_equal.
  apply Permutation_length_1_inv, Permutation_sym.
  rewrite <- Hrows. apply filter_perm, sortBy_perm.
Qed.

(** The scenario of the specification: the preference stored twice. *)
Lemma store_twice_witness :
  Examples.darkMode <> ""
  /\ Spec.idsFromContent (LongTerm.db (LongTerm.create 256))
  /\ fst (LongTerm.store 1 Examples.darkMode LongTerm.preference "s1" 0.9
            (LongTerm.create 256))
     = fst (LongTerm.store 2 Examples.darkMode LongTerm.preference "s1" 0.9
              (snd (LongTerm.store 1 Examples.darkMode LongTerm.preference "s1"
                      0.9 (LongTerm.create 256)))).
Proof.
  assert (H1 : Examples.darkMode <> "") by discriminate.
  assert (H2 : Spec.idsFromContent (LongTerm.db (LongTerm.create 256)))
    by (intros r []).
  split; [exact H1|]. split; [exact H2|].
  exact (proj1 (store_twice 1 2 Examples.darkMode LongTerm.preference
                  LongTerm.preference "s1" "s1" 0.9 0.9 (LongTerm.create 256)
                  H1 H2)).
Defined.

(** * C3 *)

Lemma nonzero_repeat0 (d : nat) : Spec.nonzero (repeat 0 d) = false.
Proof. induction d as [|d IH]; simpl; [reflexivity | exact IH]. Qed.

Lemma embed_empty (d : nat) : LongTerm.embed d "" = repeat 0%R d.
Proof. apply embed_zero. exact (nonzero_repeat0 d). Qed.

(** C3, as the code has it.  [store] does not look at its content: called
    with the empty string it returns the id of the empty string and the
    table holds a record of empty content afterwards. *)
Theorem store_empty_content (now : Z) (ty : LongTerm.MemoryType)
    (src : string) (imp : R) (m : LongTerm.LongTermMemory) :
  fst (LongTerm.store now "" ty src imp m) = "e3b0c44298fc"
  /\ In {| LongTerm.Db.id := "e3b0c44298fc"; LongTerm.Db.content := "";
           LongTerm.Db.embedding := repeat 0%R (LongTerm.dimension m);
           LongTerm.Db.type := ty; LongTerm.Db.source := src;
           LongTerm.Db.importance := imp; LongTerm.Db.created_at := now;
           LongTerm.Db.access_count := 0; LongTerm.Db.last_accessed := now |}
        (LongTerm.db (snd (LongTerm.store now "" ty src imp m))).
Proof.
  assert (Hid : LongTerm.idOf "" = "e3b0c44298fc") by (vm_compute; reflexivity).
  unfold LongTerm.store. cbn [fst snd LongTerm.db].
  rewrite Hid, embed_empty. split; [reflexivity|].
  apply insertOrReplace_In. now left.
Qed.

(** C3 as stated fails: on a fresh memory, [store] of the empty string
    returns an id and leaves one record where there was none. *)
Lemma store_empty_content_inserts :
  fst (LongTerm.store 1 "" LongTerm.note "" 0.5 (LongTerm.create 256))
  = "e3b0c44298fc"
  /\ LongTerm.db (LongTerm.create 256) = []
  /\ List.length
       (LongTerm.db (snd (LongTerm.store 1 "" LongTerm.note "" 0.5
                            (LongTerm.create 256)))) = 1%nat
  /\ LongTerm.db (snd (LongTerm.store 1 "" LongTerm.note "" 0.5
                         (LongTerm.create 256)))
     <> LongTerm.db (LongTerm.create 256).
Proof.
  split; [vm_compute; reflexivity|]. split; [reflexivity|].
  split; [reflexivity|]. discriminate.
Qed.

(** * What [search] returns *)

Section Ranking.
Import LongTerm.

Lemma ranked_In (query : string) (limit : Z) (minSimilarity : R)
    (m : LongTermMemory) (r : SearchResult) :
  In r (ranked query limit minSimilarity m) ->
  exists row,
    In row (db m)
    /\ r = scoreRow (embed (dimension m) query) (dimension m) row
    /\ (minSimilarity <= similarity r)%R.
Proof.
  unfold ranked. intro H.
  apply sliceTo_In, sortBy_In, filter_In in H. destruct H as [H Hmin].
  apply in_map_iff in H. destruct H as [row [<- Hrow]].
  exists row. repeat split; [exact Hrow|].
  unfold Num.leb in Hmin.
  destruct (Rle_dec minSimilarity _) as [Hle | _]; [exact Hle | discriminate].
Qed.

Lemma firstn_embed (d : nat) (text : string) :
  firstn d (embed d text) = embed d text.
Proof. apply firstn_all2. now rewrite embed_length. Qed.

(** The score of the row that [store] wrote. *)
Lemma scoreRow_stored (q : list R) (d : nat) (now : Z) (c : string)
    (ty : MemoryType) (src : string) (v : R) :
  similarity
    (scoreRow q d
       {| Db.id := idOf c; Db.content := c; Db.embedding := embed d c;
          Db.type := ty; Db.source := src; Db.importance := v;
          Db.created_at := now; Db.access_count := 0;
          Db.last_accessed := now |})
  = (cosineSimilarity q (embed d c) * 0.8 + v * 0.2)%R.
Proof. unfold scoreRow. cbn. now rewrite firstn_embed. Qed.

(** A table of one row whose score reaches the threshold: the search
    returns that row when it may return any. *)
Lemma ranked_single (query : string) (limit : Z) (minSimilarity : R)
    (d : nat) (row : Db.Row) :
  0 < limit ->
  (minSimilarity <= similarity (scoreRow (embed d query) d row))%R ->
  ranked query limit minSimilarity {| db := [row]; dimension := d |}
  = [scoreRow (embed d query) d row].
Proof.
  intros Hlimit Hmin. unfold ranked. cbn [db dimension map filter].
  rewrite (leb_true _ _ Hmin). cbn [sortBy fold_right insertBy].
  unfold JS.sliceTo.
  destruct (limit <? 0) eqn:E; [apply Z.ltb_lt in E; lia|].
  destruct (Z.to_nat limit) eqn:En; [lia|]. simpl. now rewrite firstn_nil.
Qed.

End Ranking.

(** * C10 *)

(** C10.  [store] keeps the importance it is given, whatever its value:
    the record of the content holds exactly [v]; every result that [search]
    returns for that record carries [v] and the score
    [similarity * 0.8 + v * 0.2]; and such a score can exceed 1: with an
    importance of 2, the preference of the scenario scores 1.2 against
    itself. *)
Theorem importance_not_clamped (now : Z) (c : string)
    (ty : LongTerm.MemoryType) (src : string) (v : R)
    (m : LongTerm.LongTermMemory) :
  let m' := snd (LongTerm.store now c ty src v m) in
  let d := LongTerm.dimension m in
  (exists row,
      filter (fun r => (LongTerm.Db.id r =? LongTerm.idOf c)%string)
             (LongTerm.db m') = [row]
      /\ LongTerm.Db.content row = c
      /\ LongTerm.Db.importance row = v)
  /\ (forall clock query limit minSimilarity r,
        In r (fst (LongTerm.search clock query limit minSimilarity m')) ->
        LongTerm.id (LongTerm.record r) = LongTerm.idOf c ->
        LongTerm.importance (LongTerm.record r) = v
        /\ LongTerm.similarity r
           = (LongTerm.cosineSimilarity (LongTerm.embed d query)
                                        (LongTerm.embed d c) * 0.8
              + v * 0.2)%R)
  /\ (exists r,
        fst (LongTerm.search (fun _ => 2) Examples.darkMode 5 0.1
                             (Examples.remembered 2)) = [r]
        /\ LongTerm.similarity r = 1.2%R
        /\ (1 < LongTerm.similarity r)%R).
Proof.
  intros m' d.
  set (row := {| LongTerm.Db.id := LongTerm.idOf c; LongTerm.Db.content := c;
                 LongTerm.Db.embedding := LongTerm.embed d c;
                 LongTerm.Db.type := ty; LongTerm.Db.source := src;
                 LongTerm.Db.importance := v; LongTerm.Db.created_at := now;
                 LongTerm.Db.access_count := 0;
                 LongTerm.Db.last_accessed := now |}).
  assert (Hrow : filter (fun r => (LongTerm.Db.id r =? LongTerm.idOf c)%string)
                        (LongTerm.db m') = [row])
    by exact (insertOrReplace_byId row (LongTerm.db m)).
  split; [|split].
  - exists row. now repeat split.
  - intros clock query limit minSimilarity r Hr Hid.
    cbn [LongTerm.search fst] in Hr.
    apply ranked_In in Hr. destruct Hr as [row0 [Hin [-> _]]].
    cbn in Hid.
    assert (Hrow0 : In row0 [row]).
    { rewrite <- Hrow. apply filter_In. split; [exact Hin|].
      now apply String.eqb_eq. }
    destruct Hrow0 as [<- | []].
    split; [reflexivity|].
    exact (scoreRow_stored _ d now c ty src v).
  - assert (Hf : Spec.nonzero (LongTerm.features 256 Examples.darkMode) = true)
      by (vm_compute; reflexivity).
    set (row2 := {| LongTerm.Db.id := LongTerm.idOf Examples.darkMode;
                    LongTerm.Db.content := Examples.darkMode;
                    LongTerm.Db.embedding :=
                      LongTerm.embed 256 Examples.darkMode;
                    LongTerm.Db.type := LongTerm.preference;
                    LongTerm.Db.source := "s1";
                    LongTerm.Db.importance := 2%R;
                    LongTerm.Db.created_at := 1;
                    LongTerm.Db.access_count := 0;
                    LongTerm.Db.last_accessed := 1 |}).
    assert (Hs : LongTerm.similarity
                   (LongTerm.scoreRow (LongTerm.embed 256 Examples.darkMode)
                                      256 row2) = 1.2%R).
    { unfold row2. rewrite scoreRow_stored, cosine_self, Hf. lra. }
    exists (LongTerm.scoreRow (LongTerm.embed 256 Examples.darkMode) 256 row2).
    split.
    + cbn [LongTerm.search fst].
      change (Examples.remembered 2)
        with {| LongTerm.db := [row2]; LongTerm.dimension := 256 |}.
      apply ranked_single; [lia|]. rewrite Hs. lra.
    + rewrite Hs. split; [reflexivity | lra].
Qed.

(** The theorem at the scenario's preference, stored with an importance
    of 2 and found again by its own text. *)
Lemma importance_not_clamped_witness :
  exists r,
    In r (fst (LongTerm.search (fun _ => 2) Examples.darkMode 5 0.1
                               (Examples.remembered 2)))
    /\ LongTerm.id (LongTerm.record r) = LongTerm.idOf Examples.darkMode
    /\ LongTerm.importance (LongTerm.record r) = 2%R.
Proof.
  pose proof (importance_not_clamped 1 Examples.darkMode LongTerm.preference
                "s1" 2 (LongTerm.create 256)) as [_ [Hall [r [Hr _]]]].
  exists r.
  assert (Hin : In r (fst (LongTerm.search (fun _ => 2) Examples.darkMode 5 0.1
                                           (Examples.remembered 2))))
    by (rewrite Hr; now left).
  assert (Hid : LongTerm.id (LongTerm.record r) = LongTerm.idOf Examples.darkMode).
  { cbn [LongTerm.search fst] in Hr.
    pose proof (ranked_In _ _ _ _ r ltac:(rewrite Hr; now left))
      as [row [Hrow [-> _]]].
    destruct Hrow as [<- | []]. reflexivity. }
  split; [exact Hin|]. split; [exact Hid|].
  exact (proj1 (Hall (fun _ => 2) Examples.darkMode 5 0.1%R r Hin Hid)).
Defined.

(** * C4 *)

Lemma filter_split_length {A} (f : A -> bool) (l : list A) :
  (List.length (filter f l) + List.length (filter (fun x => negb (f x)) l)
   = List.length l)%nat.
Proof.
  induction l as [|x l IH]; simpl; [reflexivity|].
  destruct (f x); simpl; lia.
Qed.

Lemma ltb_iff (x y : R) : Num.ltb x y = true <-> (x < y)%R.
Proof.
  unfold Num.ltb. destruct (Rlt_dec x y); split; auto; discriminate.
Qed.

(** C4, as the code has it.  [decay] takes the age alone; the two floors
    are constants of the code.  [decay(maxAgeDays)] of [memory.ts] deletes
    exactly the rows last accessed more than [maxAgeDays] days ago, of
    importance below 0.7 and accessed fewer than 3 times, and returns how
    many they were; [decay(maxAge)] of the guide does the same with an age
    in milliseconds and the floors 0.8 and 3. *)
Theorem decay_removes (now : Z) (age : R)
    (m : LongTerm.LongTermMemory) (g : Guide.LongTerm.LongTermMemory) :
  ((forall r,
       In r (LongTerm.db (snd (LongTerm.decay now age m)))
       <-> In r (LongTerm.db m)
           /\ ~ ((IZR now - IZR (LongTerm.Db.last_accessed r)
                  > age * 24 * 60 * 60 * 1000)%R
                 /\ (LongTerm.Db.importance r < 0.7)%R
                 /\ LongTerm.Db.access_count r < 3))
   /\ fst (LongTerm.decay now age m)
      = Z.of_nat (List.length (LongTerm.db m))
        - Z.of_nat (List.length (LongTerm.db (snd (LongTerm.decay now age m)))))
  /\ ((forall r,
         In r (Guide.LongTerm.db (snd (Guide.LongTerm.decay now age g)))
         <-> In r (Guide.LongTerm.db g)
             /\ ~ ((IZR now - IZR (Guide.LongTerm.Db.last_accessed r) > age)%R
                   /\ (Guide.LongTerm.Db.importance r < 0.8)%R
                   /\ Guide.LongTerm.Db.access_count r < 3))
      /\ fst (Guide.LongTerm.decay now age g)
         = Z.of_nat (List.length (Guide.LongTerm.db g))
           - Z.of_nat (List.length
                         (Guide.LongTerm.db (snd (Guide.LongTerm.decay now age g))))).
Proof.
  split; split.
  - intro r. cbn [LongTerm.decay snd LongTerm.db]. rewrite filter_In.
    unfold LongTerm.decays.
    rewrite negb_true_iff, <- not_true_iff_false, !andb_true_iff, !ltb_iff,
      Z.ltb_lt.
    split; intros [Hin Hn]; (split; [exact Hin|]); intro H; apply Hn;
      (repeat split; [lra | tauto | tauto]).
  - cbn [LongTerm.decay fst snd LongTerm.db].
    pose proof (filter_split_length
                  (LongTerm.decays (IZR now - age * 24 * 60 * 60 * 1000))
                  (LongTerm.db m)).
    lia.
  - intro r. cbn [Guide.LongTerm.decay snd Guide.LongTerm.db].
    rewrite filter_In. unfold Guide.LongTerm.decays.
    rewrite negb_true_iff, <- not_true_iff_false, !andb_true_iff, !ltb_iff,
      Z.ltb_lt.
    split; intros [Hin Hn]; (split; [exact Hin|]); intro H; apply Hn;
      (repeat split; [lra | tauto | tauto]).
  - cbn [Guide.LongTerm.decay fst snd Guide.LongTerm.db].
    pose proof (filter_split_length
                  (Guide.LongTerm.decays (IZR now - age))
                  (Guide.LongTerm.db g)).
    lia.
Qed.

(** C4 as stated fails.  The preference of the scenario, stored at time 1
    with an importance of 0.9 and never accessed, is a record that
    [decay(max_age = 0, importance_floor = 1.0, access_floor = infinity)]
    removes in the specification's words; [decay(0)], at time 1000, removes
    nothing and returns 0. *)
Lemma decay_keeps_important :
  Spec.decay 1000 0 1 None (Examples.remembered 0.9) = []
  /\ LongTerm.db (Examples.remembered 0.9) <> []
  /\ fst (LongTerm.decay 1000 0 (Examples.remembered 0.9)) = 0
  /\ LongTerm.db (snd (LongTerm.decay 1000 0 (Examples.remembered 0.9)))
     = LongTerm.db (Examples.remembered 0.9).
Proof.
  assert (Hspec : forall row,
             LongTerm.Db.last_accessed row = 1 ->
             LongTerm.Db.importance row = 0.9%R ->
             Spec.decays 1000 0 1 None row = true).
  { intros row Hl Hi. unfold Spec.decays. rewrite Hl, Hi.
    rewrite !ltb_true; [reflexivity | lra |].
    change (1000 - 1) with 999. lra. }
  assert (Hcode : forall row,
             LongTerm.Db.importance row = 0.9%R ->
             LongTerm.decays (IZR 1000 - 0 * 24 * 60 * 60 * 1000) row = false).
  { intros row Hi. unfold LongTerm.decays. rewrite Hi.
    rewrite (ltb_false 0.9 0.7) by lra.
    now rewrite andb_false_r. }
  set (row := {| LongTerm.Db.id := LongTerm.idOf Examples.darkMode;
                 LongTerm.Db.content := Examples.darkMode;
                 LongTerm.Db.embedding := LongTerm.embed 256 Examples.darkMode;
                 LongTerm.Db.type := LongTerm.preference;
                 LongTerm.Db.source := "s1";
                 LongTerm.Db.importance := 0.9%R;
                 LongTerm.Db.created_at := 1;
                 LongTerm.Db.access_count := 0;
                 LongTerm.Db.last_accessed := 1 |}).
  change (Examples.remembered 0.9)
    with {| LongTerm.db := [row]; LongTerm.dimension := 256 |}.
  unfold Spec.decay, LongTerm.decay.
  cbn [fst snd LongTerm.db filter].
  rewrite (Hspec row eq_refl eq_refl), (Hcode row eq_refl).
  cbn [negb List.length Z.of_nat].
  repeat split; try reflexivity; discriminate.
Qed.

(** * The order of the results *)

Section SortedByKey.
Context {A : Type}.
Variable key : A -> R.

Let cmp : A -> A -> R := fun a b => (key b - key a)%R.
Let descending : A -> A -> Prop := fun a b => (key b <= key a)%R.

Lemma insertBy_sorted (x : A) (l : list A) :
  StronglySorted descending l ->
  StronglySorted descending (LongTerm.insertBy cmp x l).
Proof.
  induction 1 as [|y l Hl IH Hy]; simpl.
  - constructor; constructor.
  - unfold cmp at 1. destruct (Num.ltb 0 (key y - key x)) eqn:E.
    + apply ltb_iff in E. constructor; [exact IH|].
      apply (Permutation_Forall (Permutation_sym (insertBy_perm cmp x l))).
      constructor; [unfold descending; lra | exact Hy].
    + assert (Hxy : (key y <= key x)%R).
      { unfold Num.ltb in E. destruct (Rlt_dec 0 (key y - key x));
          [discriminate | lra]. }
      constructor; [now constructor|].
      constructor; [exact Hxy|].
      eapply Forall_impl; [|exact Hy].
      unfold descending. intros z Hz. lra.
Qed.

Lemma sortBy_sorted (l : list A) :
  StronglySorted descending (LongTerm.sortBy cmp l).
Proof.
  induction l as [|x l IH]; simpl.
  - constructor.
  - now apply insertBy_sorted.
Qed.

(** The sort is stable: the elements of one key keep their order. *)
Lemma insertBy_stable (s : R) (x : A) (l : list A) :
  filter (fun a => Num.eqb (key a) s) (LongTerm.insertBy cmp x l)
  = filter (fun a => Num.eqb (key a) s) (x :: l).
Proof.
  induction l as [|y l IH]; [reflexivity|].
  cbn [LongTerm.insertBy]. unfold cmp at 1.
  destruct (Num.ltb 0 (key y - key x)) eqn:E; [|reflexivity].
  apply ltb_iff in E.
  cbn [filter] in *. rewrite IH.
  destruct (Num.eqb (key y) s) eqn:Ey; [|reflexivity].
  unfold Num.eqb in Ey. destruct (Req_dec_T (key y) s); [|discriminate].
  rewrite eqb_false by lra. reflexivity.
Qed.

Lemma sortBy_stable (s : R) (l : list A) :
  filter (fun a => Num.eqb (key a) s) (LongTerm.sortBy cmp l)
  = filter (fun a => Num.eqb (key a) s) l.
Proof.
  induction l as [|x l IH]; [reflexivity|].
  cbn [LongTerm.sortBy fold_right].
  change (fold_right (LongTerm.insertBy cmp) [] l) with (LongTerm.sortBy cmp l).
  rewrite insertBy_stable. cbn [filter]. now rewrite IH.
Qed.

End SortedByKey.

(** * C2 *)

(** C2, as the code has it.  [search] returns the first [limit] entries of
    a list [full] that holds exactly the stored records whose blended score
    [similarity * 0.8 + importance * 0.2] reaches [minSimilarity], in
    descending order of that score, records of equal score in the order of
    the table: the order in which they were stored.  The time of the last
    access plays no part. *)
Theorem search_ranking (clock : nat -> Z) (query : string) (limit : Z)
    (minSimilarity : R) (m : LongTerm.LongTermMemory) :
  let d := LongTerm.dimension m in
  let q := LongTerm.embed d query in
  let blended row :=
    (LongTerm.cosineSimilarity q (firstn d (LongTerm.Db.embedding row)) * 0.8
     + LongTerm.Db.importance row * 0.2)%R in
  let passing :=
    map (LongTerm.scoreRow q d)
        (filter (fun row => Num.leb minSimilarity (blended row)) (LongTerm.db m)) in
  (forall row,
      LongTerm.record (LongTerm.scoreRow q d row) = LongTerm.toRecord row
      /\ LongTerm.similarity (LongTerm.scoreRow q d row) = blended row)
  /\ exists full,
      fst (LongTerm.search clock query limit minSimilarity m)
      = JS.sliceTo full limit
      /\ (0 <= limit -> JS.sliceTo full limit = firstn (Z.to_nat limit) full)
      /\ Permutation full passing
      /\ StronglySorted
           (fun a b => (LongTerm.similarity b <= LongTerm.similarity a)%R) full
      /\ (forall s,
            filter (fun r => Num.eqb (LongTerm.similarity r) s) full
            = filter (fun r => Num.eqb (LongTerm.similarity r) s) passing).
Proof.
  intros d q blended passing.
  split; [intro row; split; reflexivity|].
  assert (Hpassing :
            passing
            = filter (fun r => Num.leb minSimilarity (LongTerm.similarity r))
                     (map (LongTerm.scoreRow q d) (LongTerm.db m))).
  { unfold passing. now rewrite filter_map. }
  exists (LongTerm.sortBy
            (fun a b => (LongTerm.similarity b - LongTerm.similarity a)%R)
            passing).
  repeat split.
  - cbn [LongTerm.search fst]. unfold LongTerm.ranked. now rewrite Hpassing.
  - intro Hlimit. unfold JS.sliceTo.
    destruct (limit <? 0) eqn:E; [apply Z.ltb_lt in E; lia | reflexivity].
  - apply sortBy_perm.
  - apply (sortBy_sorted LongTerm.similarity).
  - intro s. apply (sortBy_stable LongTerm.similarity).
Qed.

(** The theorem with a limit of 5, as [search] has it by default. *)
Lemma search_ranking_witness :
  0 <= 5
  /\ exists full,
       fst (LongTerm.search (fun _ => 3) "dark mode" 5 0.1 Examples.twoNotes)
       = firstn 5 full.
Proof.
  split; [lia|].
  destruct (search_ranking (fun _ => 3) "dark mode" 5 0.1 Examples.twoNotes)
    as [_ [full [Hs [Hn _]]]].
  exists full. rewrite Hs. apply Hn. lia.
Defined.

(** The two notes of the example: their rows, their scores. *)
Section TwoNotes.

Lemma twoNotes_ids :
  LongTerm.idOf "dark mode" = "ddf377084a32"
  /\ LongTerm.idOf "Dark Mode" = "df8c7c89b3e4".
Proof. split; vm_compute; reflexivity. Qed.

Lemma twoNotes_rows :
  Examples.twoNotes
  = {| LongTerm.db := [Examples.noteA; Examples.noteB]; LongTerm.dimension := 256 |}.
Proof.
  unfold Examples.twoNotes, LongTerm.store, LongTerm.insertOrReplace.
  cbn [fst snd LongTerm.db LongTerm.dimension LongTerm.create filter app
       LongTerm.Db.id].
  destruct twoNotes_ids as [Ha Hb]. unfold Examples.noteA, Examples.noteB. rewrite Ha, Hb.
  replace ("ddf377084a32" =? "df8c7c89b3e4")%string with false
    by (vm_compute; reflexivity).
  reflexivity.
Qed.

Lemma twoNotes_embedding :
  LongTerm.embed 256 "Dark Mode" = LongTerm.embed 256 "dark mode".
Proof.
  unfold LongTerm.embed.
  replace (LongTerm.features 256 "Dark Mode")
    with (LongTerm.features 256 "dark mode") by (vm_compute; reflexivity).
  reflexivity.
Qed.

Lemma twoNotes_scores :
  LongTerm.similarity
    (LongTerm.scoreRow (LongTerm.embed 256 "dark mode") 256 Examples.noteA) = 0.9%R
  /\ LongTerm.similarity
       (LongTerm.scoreRow (LongTerm.embed 256 "dark mode") 256 Examples.noteB) = 0.9%R.
Proof.
  assert (Hf : Spec.nonzero (LongTerm.features 256 "dark mode") = true)
    by (vm_compute; reflexivity).
  unfold LongTerm.scoreRow, Examples.noteA, Examples.noteB.
  cbn [LongTerm.similarity LongTerm.Db.embedding LongTerm.Db.importance].
  rewrite twoNotes_embedding, firstn_embed, cosine_self, Hf.
  split; lra.
Qed.

(** C2 as stated fails on the order of equal scores.  Two notes that differ
    by their capitals only have the same embedding, hence the same score
    0.9 for the query "dark mode".  The specification's [search] puts the
    note accessed last first; [search] returns them as they were stored,
    the one accessed last in second place. *)
Lemma search_ties_in_table_order :
  exists older newer,
    fst (LongTerm.search (fun _ => 3) "dark mode" 5 0.1 Examples.twoNotes)
    = [older; newer]
    /\ Spec.search "dark mode" 5 0.1 Examples.twoNotes = [newer; older]
    /\ LongTerm.similarity older = LongTerm.similarity newer
    /\ LongTerm.content (LongTerm.record older) = "dark mode"
    /\ LongTerm.content (LongTerm.record newer) = "Dark Mode"
    /\ map LongTerm.Db.last_accessed (LongTerm.db Examples.twoNotes) = [1; 2]
    /\ fst (LongTerm.search (fun _ => 3) "dark mode" 5 0.1 Examples.twoNotes)
       <> Spec.search "dark mode" 5 0.1 Examples.twoNotes.
Proof.
  destruct twoNotes_scores as [Ha Hb].
  set (q := LongTerm.embed 256 "dark mode") in *.
  exists (LongTerm.scoreRow q 256 Examples.noteA), (LongTerm.scoreRow q 256 Examples.noteB).
  assert (Hcode :
            fst (LongTerm.search (fun _ => 3) "dark mode" 5 0.1 Examples.twoNotes)
            = [LongTerm.scoreRow q 256 Examples.noteA; LongTerm.scoreRow q 256 Examples.noteB]).
  { rewrite twoNotes_rows. cbn [LongTerm.search fst]. unfold LongTerm.ranked.
    cbn [LongTerm.db LongTerm.dimension map filter]. fold q.
    rewrite Ha, Hb. rewrite (leb_true 0.1 0.9) by lra.
    cbn [LongTerm.sortBy fold_right LongTerm.insertBy].
    rewrite Ha, Hb. rewrite (ltb_false 0 (0.9 - 0.9)) by lra.
    reflexivity. }
  assert (Hspec :
            Spec.search "dark mode" 5 0.1 Examples.twoNotes
            = [LongTerm.scoreRow q 256 Examples.noteB; LongTerm.scoreRow q 256 Examples.noteA]).
  { rewrite twoNotes_rows. unfold Spec.search.
    cbn [LongTerm.db LongTerm.dimension map filter snd]. fold q.
    rewrite Ha, Hb. rewrite (leb_true 0.1 0.9) by lra.
    cbn [fold_right Spec.insertRanked]. unfold Spec.before.
    cbn [fst snd]. rewrite Ha, Hb.
    rewrite (ltb_false 0.9 0.9) by lra.
    rewrite (eqb_true 0.9 0.9) by reflexivity.
    reflexivity. }
  rewrite Hcode, Hspec, Ha, Hb, twoNotes_rows.
  split; [reflexivity|]. split; [reflexivity|]. split; [reflexivity|].
  split; [reflexivity|]. split; [reflexivity|]. split; [reflexivity|].
  intro H.
  apply (f_equal (map (fun r => LongTerm.content (LongTerm.record r)))) in H.
  cbn [map LongTerm.content LongTerm.record LongTerm.scoreRow LongTerm.toRecord
       LongTerm.Db.content Examples.noteA Examples.noteB] in H.
  discriminate H.
Qed.

End TwoNotes.

(** * The guide's long-term memory *)

Section GuideLongTerm.
Import Guide.LongTerm.





(** A search that returns nothing leaves the memory as it is. *)
Lemma guide_search_nothing (clock : nat -> Z) (k : nat) (query : string)
    (limit : Z) (ty : option EntryType) (minSimilarity : R)
    (m m' : LongTermMemory) :
  search clock k query limit ty minSimilarity m = Some ([], m') -> m' = m.
Proof.
  unfold search. destruct (scoreRows _ clock k _); [|discriminate].
  intro H. injection H as Hres <-. rewrite Hres. cbn [touchAll].
  now destruct m.
Qed.

Lemma guide_search_empty (clock : nat -> Z) (k : nat) (query : string)
    (limit : Z) (minSimilarity : R) (m : LongTermMemory) :
  db m = [] ->
  search clock k query limit None minSimilarity m = Some ([], m).
Proof.
  intro H. unfold search. rewrite H. cbn [scoreRows filter].
  cbn [LongTerm.sortBy fold_right].
  replace (JS.sliceTo [] limit) with (@nil SearchResult).
  - cbn [touchAll]. rewrite <- H. now destruct m.
  - unfold JS.sliceTo. destruct (limit <? 0); now rewrite firstn_nil.
Qed.

(** The similarity of a local embedding with itself, when the text has
    features. *)
Lemma guide_cosine_self (d : nat) (text : string) :
  Spec.nonzero (localFeatures d text) = true ->
  cosineSimilarity (localEmbedding d text) (localEmbedding d text) = Some 1%R.
Proof.
  intro H. unfold cosineSimilarity. rewrite Nat.eqb_refl.
  rewrite sums_spec by lia. rewrite firstn_all.
  rewrite (localEmbedding_unit d text H).
  replace (0 + 1)%R with 1%R by lra. rewrite sqrt_1.
  rewrite (eqb_false 1 0) by lra. cbn [orb].
  f_equal. rewrite dot_self, (localEmbedding_unit d text H). field.
Qed.

End GuideLongTerm.

(** * C8 *)

Lemma contextInjection_nothing (toLocaleDateString : Z -> string) :
  Guide.Agent.contextInjection toLocaleDateString [] [] [] = "".
Proof. reflexivity. Qed.

(** C8, as the code has it.  When the search of the long-term memory, the
    search of the episodes and the lessons learned all come back empty,
    [buildContext] returns the messages of the buffer as [getMessages]
    gives them, and the memories are what they were. *)
Theorem buildContext_nothing_found (toLocaleDateString : Z -> string)
    (clock : nat -> Z) (userMessage : string) (a : Guide.Agent.AgentMemory)
    (m' : Guide.LongTerm.LongTermMemory)
    (Hmemories :
       Guide.LongTerm.search clock 0 userMessage 5 None 0.3
                             (Guide.Agent.longTerm a) = Some ([], m'))
    (Hepisodes :
       Guide.Episodic.searchEpisodes userMessage 3 (Guide.Agent.episodic a) = [])
    (Hlessons : Guide.Episodic.getLessons (Guide.Agent.episodic a) = []) :
  Guide.Agent.buildContext toLocaleDateString clock userMessage a
  = Some (Guide.ShortTerm.getMessages (Guide.Agent.shortTerm a), a).
Proof.
  unfold Guide.Agent.buildContext.
  rewrite Hmemories, Hepisodes, Hlessons, contextInjection_nothing.
  cbn [String.length Nat.ltb Nat.leb].
  rewrite (guide_search_nothing _ _ _ _ _ _ _ _ Hmemories).
  now destruct a.
Qed.

Lemma episodes_nothing : Guide.Episodic.searchEpisodes "deploy" 3 [] = [].
Proof. reflexivity. Qed.

(** The theorem on an agent with no memory and no episode. *)
Lemma buildContext_nothing_found_witness :
  Guide.Agent.buildContext Examples.noDate (Examples.ticks 10) "deploy"
    (Examples.agent Examples.guideEmpty [])
  = Some (Guide.ShortTerm.getMessages
            (Guide.Agent.shortTerm (Examples.agent Examples.guideEmpty [])),
          Examples.agent Examples.guideEmpty []).
Proof.
  apply (buildContext_nothing_found Examples.noDate (Examples.ticks 10)
           "deploy" (Examples.agent Examples.guideEmpty []) Examples.guideEmpty).
  - apply guide_search_empty. reflexivity.
  - reflexivity.
  - reflexivity.
Defined.

(** C8 as stated fails.  With no memory and one episode that matches
    nothing but left a lesson, both searches return nothing and
    [buildContext] still inserts a system message, the lessons learned,
    after the first message of the buffer. *)
Lemma buildContext_injects_lessons :
  let a := Examples.agent Examples.guideEmpty [Examples.episode] in
  (exists m', Guide.LongTerm.search (Examples.ticks 10) 0 "deploy" 5 None 0.3
                (Guide.Agent.longTerm a) = Some ([], m'))
  /\ Guide.Episodic.searchEpisodes "deploy" 3 (Guide.Agent.episodic a) = []
  /\ (exists first injected last,
        Guide.Agent.buildContext Examples.noDate (Examples.ticks 10) "deploy" a
        = Some ([first; injected; last], a)
        /\ Guide.ShortTerm.role injected = Guide.ShortTerm.system
        /\ Guide.ShortTerm.content injected
           = "Context from your memory:" ++ Guide.Agent.newline
             ++ Guide.Agent.newline ++ "## Lessons Learned"
             ++ Guide.Agent.newline ++ "- Always run the tests"
             ++ Guide.Agent.newline)
  /\ List.length (Guide.ShortTerm.getMessages (Guide.Agent.shortTerm a)) = 2%nat.
Proof.
  intro a.
  assert (Hs : Guide.LongTerm.search (Examples.ticks 10) 0 "deploy" 5 None 0.3
                 (Guide.Agent.longTerm a) = Some ([], Examples.guideEmpty))
    by (apply guide_search_empty; reflexivity).
  assert (He : Guide.Episodic.searchEpisodes "deploy" 3 (Guide.Agent.episodic a)
               = []) by (vm_compute; reflexivity).
  assert (Hl : Guide.Episodic.getLessons (Guide.Agent.episodic a)
               = ["Always run the tests"]) by (vm_compute; reflexivity).
  split; [now exists Examples.guideEmpty|]. split; [exact He|].
  split; [|reflexivity].
  unfold Guide.Agent.buildContext. rewrite Hs, He, Hl.
  do 3 eexists. split; [reflexivity|]. split; reflexivity.
Qed.

(** * C9 *)

Section Candidates.
Import Guide.LongTerm.



End Candidates.



Section Repeated.
Import Guide.LongTerm.

Lemma guideRemembered_rows :
  Examples.guideRemembered
  = {| db := [Examples.guideRow]; embeddingDimension := 384; provider := None |}.
Proof. reflexivity. Qed.


End Repeated.


(** * More on the short-term memory of [memory.ts] *)

(** [estimateTokens] is the length divided by 4, rounded up: four times the
    estimate covers the length and exceeds it by less than 4. *)
Theorem estimateTokens_bounds (text : string) :
  JS.length text <= 4 * ShortTerm.estimateTokens text < JS.length text + 4.
Proof.
  unfold ShortTerm.estimateTokens, JS.ceilDiv, JS.length.
  set (n := Z.of_nat (String.length text)).
  pose proof (Z.div_mod (- n) 4 ltac:(lia)) as Hdm.
  pose proof (Z.mod_pos_bound (- n) 4 ltac:(lia)) as Hm.
  lia.
Qed.

Section FirstLoop.
Import ShortTerm.

Lemma update_nth {A} (f : A -> A) (l : list A) (i j : nat) :
  nth_error (JS.update l i f) j
  = if (i =? j)%nat then option_map f (nth_error l j) else nth_error l j.
Proof.
  revert i j. induction l as [|x l IH]; intros i j.
  - simpl. destruct (i =? j)%nat; destruct j; reflexivity.
  - destruct i as [|i], j as [|j]; simpl; try reflexivity. apply IH.
Qed.


(** Updating the indices [a], [a + 1], ..., [a + n - 1] in turn applies
    [f] once at each of them and nowhere else. *)
Lemma updates_nth {A} (f : A -> A) (n : nat) :
  forall (a : nat) (l : list A) (j : nat),
    nth_error (fold_left (fun acc i => JS.update acc i f) (seq a n) l) j
    = if ((a <=? j) && (j <? a + n))%nat then option_map f (nth_error l j)
      else nth_error l j.
Proof.
  induction n as [|n IH]; intros a l j.
  - simpl. replace (a + 0)%nat with a by lia.
    destruct (a <=? j)%nat eqn:E1; destruct (j <? a)%nat eqn:E2;
      try reflexivity.
    apply Nat.leb_le in E1. apply Nat.ltb_lt in E2. lia.
  - cbn [seq fold_left]. rewrite IH, update_nth.
    destruct (a =? j)%nat eqn:Ea.
    + apply Nat.eqb_eq in Ea. subst j.
      replace (S a <=? a)%nat with false by (symmetry; apply Nat.leb_gt; lia).
      replace (a <=? a)%nat with true by (symmetry; apply Nat.leb_le; lia).
      replace (a <? a + S n)%nat with true by (symmetry; apply Nat.ltb_lt; lia).
      reflexivity.
    + apply Nat.eqb_neq in Ea.
      replace (S a <=? j)%nat with (a <=? j)%nat.
      * replace (S a + n)%nat with (a + S n)%nat by lia. reflexivity.
      * destruct (a <=? j)%nat eqn:E1.
        -- apply Nat.leb_le in E1. symmetry. apply Nat.leb_le. lia.
        -- apply Nat.leb_gt in E1. symmetry. apply Nat.leb_gt. lia.
Qed.


(** The first loop of [compactIfNeeded], index by index. *)
Lemma truncateOld_nth (l : list TrackedMessage) (j : nat) :
  nth_error (truncateOld l) j
  = if ((1 <=? j) && (j <? List.length l - 6))%nat
    then option_map truncateTool (nth_error l j)
    else nth_error l j.
Proof.
  unfold truncateOld. rewrite updates_nth.
  replace (1 + (List.length l - 6 - 1))%nat
    with (Nat.max 1 (List.length l - 6)) by lia.
  destruct (1 <=? j)%nat eqn:E1; [|reflexivity]. cbn [andb].
  apply Nat.leb_le in E1.
  destruct (j <? List.length l - 6)%nat eqn:E2.
  - apply Nat.ltb_lt in E2.
    replace (j <? Nat.max 1 (List.length l - 6))%nat with true
      by (symmetry; apply Nat.ltb_lt; lia).
    reflexivity.
  - apply Nat.ltb_ge in E2.
    replace (j <? Nat.max 1 (List.length l - 6))%nat with false
      by (symmetry; apply Nat.ltb_ge; lia).
    reflexivity.
Qed.

Lemma truncateTool_role (t : TrackedMessage) :
  role (message (truncateTool t)) = role (message t).
Proof.
  unfold truncateTool.
  now destruct ((role (message t) =? "tool")%string && (300 <? tokenEstimate t)).
Qed.

Lemma truncateTool_small (t : TrackedMessage) :
  role (message t) = "tool" -> tokenEstimate (truncateTool t) <= 300.
Proof.
  intro Hrole. unfold truncateTool. rewrite Hrole, String.eqb_refl.
  cbn [andb].
  destruct (300 <? tokenEstimate t) eqn:E.
  - cbn [tokenEstimate].
    pose proof (truncated_estimate (extractContent (message t))). lia.
  - apply Z.ltb_ge in E. exact E.
Qed.

End FirstLoop.

(** After the first loop of [compactIfNeeded], every tool message that is
    neither the first message nor one of the last six is estimated at 300
    tokens at most; the loop changes no role and no other position. *)
Theorem old_tool_results_are_small (l : list ShortTerm.TrackedMessage)
    (j : nat) (t : ShortTerm.TrackedMessage)
    (Hj : (1 <= j < List.length l - 6)%nat)
    (Ht : nth_error (ShortTerm.truncateOld l) j = Some t)
    (Htool : ShortTerm.role (ShortTerm.message t) = "tool") :
  ShortTerm.tokenEstimate t <= 300.
Proof.
  rewrite truncateOld_nth in Ht.
  replace (1 <=? j)%nat with true in Ht by (symmetry; apply Nat.leb_le; lia).
  replace (j <? List.length l - 6)%nat with true in Ht
    by (symmetry; apply Nat.ltb_lt; lia).
  cbn [andb] in Ht.
  destruct (nth_error l j) as [t0|]; [|discriminate].
  injection Ht as <-.
  apply truncateTool_small. now rewrite truncateTool_role in Htool.
Qed.

(** The theorem on a buffer of eight messages whose second is a tool result
    of 325 tokens: the loop leaves 132. *)
Lemma old_tool_results_are_small_witness :
  nth_error (ShortTerm.truncateOld Examples.toolBuffer) 1
  = Some (ShortTerm.truncateTool (Examples.tracked Examples.toolResult))
  /\ ShortTerm.tokenEstimate (Examples.tracked Examples.toolResult) = 325
  /\ ShortTerm.tokenEstimate
       (ShortTerm.truncateTool (Examples.tracked Examples.toolResult)) <= 300.
Proof.
  assert (Ht : nth_error (ShortTerm.truncateOld Examples.toolBuffer) 1
               = Some (ShortTerm.truncateTool
                         (Examples.tracked Examples.toolResult)))
    by (vm_compute; reflexivity).
  split; [exact Ht|]. split; [vm_compute; reflexivity|].
  apply (old_tool_results_are_small Examples.toolBuffer 1 _).
  - vm_compute. lia.
  - exact Ht.
  - reflexivity.
Defined.

Section Compaction.
Import ShortTerm.

Lemma truncateOld_head (x : TrackedMessage) (rest : list TrackedMessage) :
  exists rest', truncateOld (x :: rest) = x :: rest'.
Proof.
  pose proof (truncateOld_nth (x :: rest) 0) as H0.
  cbn [Nat.leb andb] in H0.
  destruct (truncateOld (x :: rest)) as [|y rest'] eqn:E;
    cbn [nth_error] in H0; [discriminate|].
  injection H0 as ->. now exists rest'.
Qed.

Lemma dropMiddle_head (now limit : Z) (x : TrackedMessage)
    (rest : list TrackedMessage) :
  exists rest', dropMiddle now limit (x :: rest) = x :: rest'.
Proof.
  unfold dropMiddle.
  destruct (limit <? tokensOf (x :: rest)); [|now exists rest].
  destruct (keep + keepEnd <? List.length (x :: rest))%nat; [|now exists rest].
  cbn [keep firstn app]. eexists. reflexivity.
Qed.

Lemma compactIfNeeded_head (now : Z) (m : ShortTermMemory)
    (x : TrackedMessage) (rest : list TrackedMessage) :
  messages m = x :: rest ->
  exists rest', messages (compactIfNeeded now m) = x :: rest'.
Proof.
  intro H. unfold compactIfNeeded.
  destruct (getTokenCount m <=? maxTokens m); [now exists rest|].
  cbn [messages]. rewrite H.
  destruct (truncateOld_head x rest) as [rest1 ->].
  apply dropMiddle_head.
Qed.

Lemma add_head (now : Z) (msg : Message) (m : ShortTermMemory)
    (x : TrackedMessage) (rest : list TrackedMessage) :
  messages m = x :: rest ->
  exists rest', messages (add now msg m) = x :: rest'.
Proof.
  intro H. unfold add. eapply compactIfNeeded_head.
  cbn [messages]. rewrite H. reflexivity.
Qed.

End Compaction.

(** Whatever is added to a buffer, and however often it is compacted, its
    first message stays the system prompt it was created with. *)
Theorem system_prompt_stays_first (now0 : Z) (systemPrompt : string)
    (maxTokens : Z) (adds : list (Z * ShortTerm.Message)) :
  exists rest,
    ShortTerm.messages
      (fold_left (fun m x => ShortTerm.add (fst x) (snd x) m) adds
                 (ShortTerm.create now0 systemPrompt maxTokens))
    = {| ShortTerm.message :=
           {| ShortTerm.role := "system";
              ShortTerm.content := ShortTerm.ContentString systemPrompt;
              ShortTerm.tool_calls := None |};
         ShortTerm.timestamp := now0;
         ShortTerm.tokenEstimate := ShortTerm.estimateTokens systemPrompt |}
       :: rest.
Proof.
  set (first := {| ShortTerm.message := _ |}).
  assert (H : forall m rest0,
             ShortTerm.messages m = first :: rest0 ->
             exists rest,
               ShortTerm.messages
                 (fold_left (fun m x => ShortTerm.add (fst x) (snd x) m) adds m)
               = first :: rest).
  { induction adds as [|[now msg] adds IH]; intros m rest0 Hm.
    - now exists rest0.
    - cbn [fold_left fst snd].
      destruct (add_head now msg m first rest0 Hm) as [rest1 H1].
      exact (IH _ rest1 H1). }
  exact (H (ShortTerm.create now0 systemPrompt maxTokens) [] eq_refl).
Qed.

(** After [add], the buffer is within its budget or holds twelve messages
    at most. *)
Theorem add_bounds_the_buffer (now : Z) (msg : ShortTerm.Message)
    (m : ShortTerm.ShortTermMemory) :
  let m' := ShortTerm.add now msg m in
  ShortTerm.maxTokens m' = ShortTerm.maxTokens m
  /\ (ShortTerm.getTokenCount m' <= ShortTerm.maxTokens m
      \/ (ShortTerm.length m' <= 12)%nat).
Proof.
  cbv zeta. unfold ShortTerm.add, ShortTerm.compactIfNeeded.
  set (p := {| ShortTerm.messages := _ |}).
  change (ShortTerm.maxTokens p) with (ShortTerm.maxTokens m).
  destruct (ShortTerm.getTokenCount p <=? ShortTerm.maxTokens m) eqn:E.
  - split; [reflexivity|]. left. now apply Z.leb_le.
  - split; [reflexivity|].
    unfold ShortTerm.getTokenCount, ShortTerm.length. cbn [ShortTerm.messages].
    set (l1 := ShortTerm.truncateOld (ShortTerm.messages p)).
    unfold ShortTerm.dropMiddle.
    destruct (ShortTerm.maxTokens m <? ShortTerm.tokensOf l1) eqn:E1;
      [|left; now apply Z.ltb_ge].
    right.
    destruct (ShortTerm.keep + ShortTerm.keepEnd <? List.length l1)%nat eqn:E2.
    + apply Nat.ltb_lt in E2. unfold ShortTerm.keep, ShortTerm.keepEnd in *.
      rewrite length_app. cbn [List.length].
      unfold JS.sliceLast. rewrite length_firstn, length_skipn. lia.
    + apply Nat.ltb_ge in E2. unfold ShortTerm.keep, ShortTerm.keepEnd in *. lia.
Qed.

Section LastSix.
Import ShortTerm.



End LastSix.


(** A message that fits in the budget is appended and nothing else changes:
    the token count grows by the estimate of the message. *)
Theorem add_within_budget (now : Z) (msg : ShortTerm.Message)
    (m : ShortTerm.ShortTermMemory)
    (Hfits : ShortTerm.getTokenCount m
             + ShortTerm.estimateTokens (ShortTerm.extractContent msg)
             <= ShortTerm.maxTokens m) :
  ShortTerm.messages (ShortTerm.add now msg m)
  = (ShortTerm.messages m
     ++ [ {| ShortTerm.message := msg; ShortTerm.timestamp := now;
             ShortTerm.tokenEstimate :=
               ShortTerm.estimateTokens (ShortTerm.extractContent msg) |} ])%list
  /\ ShortTerm.getTokenCount (ShortTerm.add now msg m)
     = ShortTerm.getTokenCount m
       + ShortTerm.estimateTokens (ShortTerm.extractContent msg).
Proof.
  unfold ShortTerm.add, ShortTerm.compactIfNeeded.
  set (p := {| ShortTerm.messages := _ |}).
  assert (Hp : ShortTerm.getTokenCount p
               = ShortTerm.getTokenCount m
                 + ShortTerm.estimateTokens (ShortTerm.extractContent msg)).
  { unfold ShortTerm.getTokenCount, p. cbn [ShortTerm.messages].
    rewrite tokensOf_app, tokensOf_cons.
    change (ShortTerm.tokensOf []) with 0.
    cbn [ShortTerm.tokenEstimate]. lia. }
  change (ShortTerm.maxTokens p) with (ShortTerm.maxTokens m).
  replace (ShortTerm.getTokenCount p <=? ShortTerm.maxTokens m) with true
    by (symmetry; apply Z.leb_le; lia).
  split; [reflexivity | exact Hp].
Qed.

(** The theorem on a fresh buffer of 100 tokens that receives "hi". *)
Lemma add_within_budget_witness :
  ShortTerm.getTokenCount (ShortTerm.add 1 Examples.hi (ShortTerm.create 0 "sys" 100))
  = 2.
Proof.
  rewrite (proj2 (add_within_budget 1 Examples.hi (ShortTerm.create 0 "sys" 100)
                    ltac:(vm_compute; discriminate))).
  reflexivity.
Defined.

(** * More on the utilities of [memory.ts] *)

Section Hash.

Lemma toInt32_mod (x : Z) : JS.toInt32 x mod 2 ^ 32 = x mod 2 ^ 32.
Proof.
  unfold JS.toInt32. rewrite Zminus_mod_idemp_l. f_equal. lia.
Qed.

Lemma toInt32_congr (x y : Z) :
  x mod 2 ^ 32 = y mod 2 ^ 32 -> JS.toInt32 x = JS.toInt32 y.
Proof.
  intro H. unfold JS.toInt32.
  rewrite <- (Zplus_mod_idemp_l x), <- (Zplus_mod_idemp_l y), H. reflexivity.
Qed.

Lemma toInt32_range (x : Z) : - 2 ^ 31 <= JS.toInt32 x < 2 ^ 31.
Proof.
  unfold JS.toInt32.
  pose proof (Z.mod_pos_bound (x + 2 ^ 31) (2 ^ 32) ltac:(lia)). lia.
Qed.

Lemma hashStep_poly (h : Z) (c : ascii) :
  Util.hashStep h c = JS.toInt32 (31 * h + JS.charCode c).
Proof.
  unfold Util.hashStep, JS.shl. apply toInt32_congr.
  rewrite Z.shiftl_mul_pow2 by lia.
  rewrite <- Zplus_mod_idemp_l, <- Zminus_mod_idemp_l, toInt32_mod.
  rewrite <- Zmult_mod_idemp_l, toInt32_mod, Zmult_mod_idemp_l.
  rewrite Zminus_mod_idemp_l, Zplus_mod_idemp_l. f_equal. lia.
Qed.

Lemma poly31_congr (s : string) :
  forall h h', h mod 2 ^ 32 = h' mod 2 ^ 32 ->
               Spec.poly31 h s mod 2 ^ 32 = Spec.poly31 h' s mod 2 ^ 32.
Proof.
  induction s as [|c s IH]; intros h h' H; cbn [Spec.poly31].
  - exact H.
  - apply IH.
    rewrite <- Zplus_mod_idemp_l, <- Zmult_mod_idemp_r, H.
    now rewrite Zmult_mod_idemp_r, Zplus_mod_idemp_l.
Qed.

Lemma hashFrom_poly (s : string) :
  forall h, Util.hashFrom h s mod 2 ^ 32 = Spec.poly31 h s mod 2 ^ 32.
Proof.
  induction s as [|c s IH]; intro h; cbn [Util.hashFrom Spec.poly31].
  - reflexivity.
  - rewrite IH. apply poly31_congr. rewrite hashStep_poly. apply toInt32_mod.
Qed.

Lemma hashFrom_int32 (s : string) :
  forall h, JS.toInt32 h = h -> JS.toInt32 (Util.hashFrom h s) = Util.hashFrom h s.
Proof.
  induction s as [|c s IH]; intros h Hh; cbn [Util.hashFrom].
  - exact Hh.
  - apply IH. unfold Util.hashStep.
    apply toInt32_congr. apply toInt32_mod.
Qed.

End Hash.

(** [hash] is the polynomial hash of base 31 over the code units of the
    string, [s[0] * 31^(n-1) + ... + s[n-1]], wrapped to a signed 32-bit
    integer. *)
Theorem hash_is_polynomial (str : string) :
  Util.hash str = JS.toInt32 (Spec.poly31 0 str)
  /\ - 2 ^ 31 <= Util.hash str < 2 ^ 31.
Proof.
  assert (H : Util.hash str = JS.toInt32 (Spec.poly31 0 str)).
  { unfold Util.hash. rewrite <- (hashFrom_int32 str 0 eq_refl).
    apply toInt32_congr, hashFrom_poly. }
  split; [exact H|]. rewrite H. apply toInt32_range.
Qed.

(** The default embedding of either source has as many components as the
    memory has dimensions, whatever the text. *)
Theorem embedding_has_the_dimension (d : nat) (text : string) :
  List.length (LongTerm.embed d text) = d
  /\ List.length (Guide.LongTerm.localEmbedding d text) = d.
Proof.
  split; [apply embed_length|].
  unfold Guide.LongTerm.localEmbedding.
  destruct (Rlt_dec 0 _); rewrite ?length_map; apply localFeatures_length.
Qed.

Section Normalisation.

Lemma isSpace_lowerChar (c : ascii) : JS.isSpace (JS.lowerChar c) = JS.isSpace c.
Proof.
  destruct c as [[] [] [] [] [] [] [] []]; vm_compute; reflexivity.
Qed.

Lemma lowerChar_idem (c : ascii) : JS.lowerChar (JS.lowerChar c) = JS.lowerChar c.
Proof.
  destruct c as [[] [] [] [] [] [] [] []]; vm_compute; reflexivity.
Qed.

Lemma toLowerCase_idem (s : string) :
  JS.toLowerCase (JS.toLowerCase s) = JS.toLowerCase s.
Proof.
  induction s as [|c s IH]; cbn [JS.toLowerCase]; [reflexivity|].
  now rewrite lowerChar_idem, IH.
Qed.

Lemma trimStart_lower (s : string) :
  JS.trimStart (JS.toLowerCase s) = JS.toLowerCase (JS.trimStart s).
Proof.
  induction s as [|c s IH]; cbn [JS.toLowerCase JS.trimStart]; [reflexivity|].
  rewrite isSpace_lowerChar. destruct (JS.isSpace c); [exact IH | reflexivity].
Qed.

Lemma trimEnd_lower (s : string) :
  JS.trimEnd (JS.toLowerCase s) = JS.toLowerCase (JS.trimEnd s).
Proof.
  induction s as [|c s IH]; cbn [JS.toLowerCase JS.trimEnd]; [reflexivity|].
  rewrite IH, isSpace_lowerChar.
  destruct (JS.trimEnd s); cbn [JS.toLowerCase]; [|reflexivity].
  now destruct (JS.isSpace c).
Qed.

Lemma trim_lower (s : string) :
  JS.trim (JS.toLowerCase s) = JS.toLowerCase (JS.trim s).
Proof. unfold JS.trim. now rewrite trimStart_lower, trimEnd_lower. Qed.

(** A string is bare when it does not start with white space. *)
Lemma trimStart_bare (s : string) :
  match JS.trimStart s with
  | EmptyString => True
  | String c _ => JS.isSpace c = false
  end.
Proof.
  induction s as [|c s IH]; cbn [JS.trimStart]; [exact I|].
  destruct (JS.isSpace c) eqn:E; [exact IH | exact E].
Qed.

Lemma trimEnd_cons (c : ascii) (s : string) :
  JS.trimEnd (String c s)
  = match JS.trimEnd s with
    | EmptyString =>
        if JS.isSpace c then EmptyString else String c EmptyString
    | t => String c t
    end.
Proof. reflexivity. Qed.

Lemma trimEnd_idem (s : string) : JS.trimEnd (JS.trimEnd s) = JS.trimEnd s.
Proof.
  induction s as [|c s IH]; [reflexivity|].
  rewrite trimEnd_cons.
  destruct (JS.trimEnd s) as [|c' t] eqn:E.
  - destruct (JS.isSpace c) eqn:Ec; [reflexivity|].
    rewrite trimEnd_cons. cbn [JS.trimEnd]. now rewrite Ec.
  - rewrite trimEnd_cons, IH. reflexivity.
Qed.

Lemma trimStart_trimEnd (s : string) :
  match s with
  | EmptyString => True
  | String c _ => JS.isSpace c = false
  end ->
  JS.trimStart (JS.trimEnd s) = JS.trimEnd s.
Proof.
  destruct s as [|c s]; [reflexivity|]. intro Hc. rewrite trimEnd_cons.
  destruct (JS.trimEnd s); [rewrite Hc|]; cbn [JS.trimStart]; now rewrite Hc.
Qed.

Lemma trim_idem (s : string) : JS.trim (JS.trim s) = JS.trim s.
Proof.
  unfold JS.trim.
  rewrite (trimStart_trimEnd (JS.trimStart s) (trimStart_bare s)).
  apply trimEnd_idem.
Qed.

(** [toLowerCase().trim()] does nothing to a text it has been applied
    to. *)
Lemma normalise_idem (s : string) :
  JS.trim (JS.toLowerCase (JS.trim (JS.toLowerCase s)))
  = JS.trim (JS.toLowerCase s).
Proof. now rewrite <- trim_lower, toLowerCase_idem, trim_idem. Qed.

Lemma features_normalised (d : nat) (x y : string) :
  JS.trim (JS.toLowerCase x) = JS.trim (JS.toLowerCase y) ->
  LongTerm.features d x = LongTerm.features d y.
Proof. intro H. unfold LongTerm.features. now rewrite H. Qed.

End Normalisation.

(** [embed] reads its text through [toLowerCase().trim()] only: two texts
    that this makes equal have the same embedding.  In particular capitals
    and white space around the text do not count. *)
Theorem embed_ignores_case_and_margins (d : nat) (x y : string)
    (Hxy : JS.trim (JS.toLowerCase x) = JS.trim (JS.toLowerCase y)) :
  LongTerm.embed d x = LongTerm.embed d y
  /\ LongTerm.embed d (JS.toLowerCase x) = LongTerm.embed d x
  /\ LongTerm.embed d (JS.trim x) = LongTerm.embed d x.
Proof.
  assert (H : forall a b,
             JS.trim (JS.toLowerCase a) = JS.trim (JS.toLowerCase b) ->
             LongTerm.embed d a = LongTerm.embed d b).
  { intros a b Hab. unfold LongTerm.embed.
    now rewrite (features_normalised d a b Hab). }
  split; [now apply H|]. split; apply H.
  - now rewrite toLowerCase_idem.
  - now rewrite <- trim_lower, trim_idem.
Qed.

(** The theorem on the two notes of the example, which differ by their
    capitals. *)
Lemma embed_ignores_case_and_margins_witness :
  LongTerm.embed 256 "Dark Mode" = LongTerm.embed 256 "dark mode".
Proof.
  apply (embed_ignores_case_and_margins 256 "Dark Mode" "dark mode").
  vm_compute. reflexivity.
Defined.

Section CosineBounds.
Open Scope R_scope.







End CosineBounds.



(** * More on the long-term memory of [memory.ts] *)

Section Scores.
Import LongTerm.
Open Scope R_scope.


Lemma filter_nothing {A} (f : A -> bool) (l : list A) :
  (forall x, In x l -> f x = false) -> filter f l = [].
Proof.
  induction l as [|x l IH]; intro H; [reflexivity|]. cbn [filter].
  rewrite (H x (or_introl eq_refl)). apply IH. intros y Hy. apply H. now right.
Qed.

End Scores.



Section Keys.
Import LongTerm.

Lemma filter_keeps_keys_apart {Row Key : Type} (key : Row -> Key)
    (keep : Row -> bool) (rows : list Row)
    (Hrows : NoDup (map key rows)) :
  NoDup (map key (filter keep rows)).
Proof.
  induction rows as [|row rows IH]; cbn [filter map]; [constructor|].
  cbn [map] in Hrows. inversion Hrows as [|? ? Hrow Hrest]; subst.
  destruct (keep row); cbn [map]; [|exact (IH Hrest)].
  constructor; [|exact (IH Hrest)].
  intro Hin. apply Hrow. apply in_map_iff in Hin.
  destruct Hin as [other [Ekey Hother]]. apply filter_In in Hother.
  rewrite <- Ekey. apply in_map. exact (proj1 Hother).
Qed.

Lemma touch_ids (now : Z) (i : string) (rows : list Db.Row) :
  map Db.id (touch now i rows) = map Db.id rows.
Proof.
  unfold touch. rewrite map_map. apply map_ext.
  intro r. now destruct (Db.id r =? i)%string.
Qed.

Lemma touchAll_ids (clock : nat -> Z) (results : list SearchResult) :
  forall k rows, map Db.id (touchAll clock k results rows) = map Db.id rows.
Proof.
  induction results as [|r results IH]; intros k rows; cbn [touchAll].
  - reflexivity.
  - now rewrite IH, touch_ids.
Qed.

Lemma insertOrReplace_unique (row : Db.Row) (rows : list Db.Row) :
  Spec.uniqueIds rows -> Spec.uniqueIds (insertOrReplace row rows).
Proof.
  unfold Spec.uniqueIds, insertOrReplace. intro H.
  rewrite map_app. cbn [map].
  apply Permutation_NoDup with (l := Db.id row :: map Db.id
            (filter (fun r => negb (Db.id r =? Db.id row)%string) rows)).
  - apply Permutation_cons_append.
  - constructor; [|now apply filter_keeps_keys_apart].
    intro Hin. apply in_map_iff in Hin. destruct Hin as [y [Hy Hin]].
    apply filter_In in Hin. destruct Hin as [_ Hn].
    apply negb_true_iff, String.eqb_neq in Hn. contradiction.
Qed.

End Keys.

(** The primary key holds: from a table in which no two records share an
    id, [store], [search], [delete] and [decay] lead to such a table. *)
Theorem ids_stay_unique (m : LongTerm.LongTermMemory)
    (Hm : Spec.uniqueIds (LongTerm.db m)) :
  (forall now c ty src imp,
      Spec.uniqueIds (LongTerm.db (snd (LongTerm.store now c ty src imp m))))
  /\ (forall clock query limit minSimilarity,
        Spec.uniqueIds
          (LongTerm.db (snd (LongTerm.search clock query limit minSimilarity m))))
  /\ (forall id, Spec.uniqueIds (LongTerm.db (snd (LongTerm.delete id m))))
  /\ (forall now maxAgeDays,
        Spec.uniqueIds (LongTerm.db (snd (LongTerm.decay now maxAgeDays m)))).
Proof.
  split; [|split; [|split]].
  - intros. cbn [LongTerm.store snd LongTerm.db].
    now apply insertOrReplace_unique.
  - intros. cbn [LongTerm.search snd LongTerm.db].
    unfold Spec.uniqueIds. now rewrite touchAll_ids.
  - intros. cbn [LongTerm.delete snd LongTerm.db].
    now apply filter_keeps_keys_apart.
  - intros. cbn [LongTerm.decay snd LongTerm.db].
    now apply filter_keeps_keys_apart.
Qed.

(** The theorem on the memory that holds the preference of the scenario:
    storing it again leaves one id. *)
Lemma ids_stay_unique_witness :
  Spec.uniqueIds (LongTerm.db (Examples.remembered 0.9))
  /\ Spec.uniqueIds
       (LongTerm.db (snd (LongTerm.store 2 Examples.darkMode LongTerm.note
                                         "s2" 0.5 (Examples.remembered 0.9)))).
Proof.
  assert (H : Spec.uniqueIds (LongTerm.db (Examples.remembered 0.9))).
  { unfold Spec.uniqueIds. cbn [Examples.remembered LongTerm.store snd
      LongTerm.db LongTerm.create LongTerm.insertOrReplace filter app map].
    constructor; [intros [] | constructor]. }
  split; [exact H|].
  apply (proj1 (ids_stay_unique (Examples.remembered 0.9) H)).
Defined.

Section RoundTrip.
Import LongTerm.

Lemma sliceTo_all {A} (l : list A) (n : Z) :
  Z.of_nat (List.length l) <= n -> JS.sliceTo l n = l.
Proof.
  intro H. unfold JS.sliceTo.
  destruct (n <? 0) eqn:E; [apply Z.ltb_lt in E; lia|].
  apply firstn_all2. lia.
Qed.

Lemma filter_length_le {A} (f : A -> bool) (l : list A) :
  (List.length (filter f l) <= List.length l)%nat.
Proof.
  induction l as [|x l IH]; cbn [filter]; [lia|].
  destruct (f x); cbn [List.length]; lia.
Qed.

Lemma sortBy_length {A} (cmp : A -> A -> R) (l : list A) :
  List.length (sortBy cmp l) = List.length l.
Proof. apply Permutation_length, sortBy_perm. Qed.

Lemma insertOrReplace_length (row : Db.Row) (rows : list Db.Row) :
  (List.length (insertOrReplace row rows) <= S (List.length rows))%nat.
Proof.
  unfold insertOrReplace. rewrite length_app. cbn [List.length].
  pose proof (filter_length_le (fun r => negb (Db.id r =? Db.id row)%string) rows).
  lia.
Qed.

End RoundTrip.

(** The record that [store] wrote, as the next search scores it. *)
Lemma store_then_search (now : Z) (clock : nat -> Z) (c : string)
    (ty : LongTerm.MemoryType) (src : string) (imp : R) (limit : Z)
    (minSimilarity : R) (m : LongTerm.LongTermMemory)
    (Hfeatures : Spec.nonzero (LongTerm.features (LongTerm.dimension m) c) = true)
    (Hmin : (minSimilarity <= 0.8 + imp * 0.2)%R)
    (Hlimit : Z.of_nat (List.length (LongTerm.db m)) < limit) :
  exists r,
    In r (fst (LongTerm.search clock c limit minSimilarity
                               (snd (LongTerm.store now c ty src imp m))))
    /\ LongTerm.id (LongTerm.record r) = LongTerm.idOf c
    /\ LongTerm.content (LongTerm.record r) = c
    /\ LongTerm.importance (LongTerm.record r) = imp
    /\ LongTerm.similarity r = (0.8 + imp * 0.2)%R.
Proof.
  set (d := LongTerm.dimension m).
  set (row := {| LongTerm.Db.id := LongTerm.idOf c; LongTerm.Db.content := c;
                 LongTerm.Db.embedding := LongTerm.embed d c;
                 LongTerm.Db.type := ty; LongTerm.Db.source := src;
                 LongTerm.Db.importance := imp; LongTerm.Db.created_at := now;
                 LongTerm.Db.access_count := 0;
                 LongTerm.Db.last_accessed := now |}).
  assert (Hs : LongTerm.similarity (LongTerm.scoreRow (LongTerm.embed d c) d row)
               = (0.8 + imp * 0.2)%R).
  { unfold row. rewrite scoreRow_stored, cosine_self.
    unfold d. rewrite Hfeatures. lra. }
  exists (LongTerm.scoreRow (LongTerm.embed d c) d row).
  split; [|repeat split; exact Hs].
  cbn [LongTerm.search fst]. unfold LongTerm.ranked.
  cbn [LongTerm.store snd LongTerm.db LongTerm.dimension]. fold d row.
  rewrite sliceTo_all.
  - apply sortBy_In, filter_In. split.
    + apply in_map. apply insertOrReplace_In. now left.
    + apply leb_true. rewrite Hs. exact Hmin.
  - rewrite sortBy_length.
    pose proof (filter_length_le
                  (fun r => Num.leb minSimilarity (LongTerm.similarity r))
                  (map (LongTerm.scoreRow (LongTerm.embed d c) d)
                       (LongTerm.insertOrReplace row (LongTerm.db m)))) as H1.
    rewrite length_map in H1.
    pose proof (insertOrReplace_length row (LongTerm.db m)) as H2. lia.
Qed.



Section Touch.
Import LongTerm.

Let rid (r : SearchResult) : string := id (record r).

Lemma touch_In_same (now : Z) (i : string) (rows : list Db.Row) (row : Db.Row) :
  In row rows -> Db.id row = i -> In (Spec.touched now row) (touch now i rows).
Proof.
  intros Hin Hid. unfold touch. apply in_map_iff. exists row.
  split; [|exact Hin]. apply String.eqb_eq in Hid. now rewrite Hid.
Qed.

Lemma touch_In_other (now : Z) (i : string) (rows : list Db.Row) (row : Db.Row) :
  In row rows -> Db.id row <> i -> In row (touch now i rows).
Proof.
  intros Hin Hid. unfold touch. apply in_map_iff. exists row.
  split; [|exact Hin]. apply String.eqb_neq in Hid. now rewrite Hid.
Qed.

Lemma touchAll_untouched (clock : nat -> Z) (results : list SearchResult) :
  forall k rows row,
    In row rows -> ~ In (Db.id row) (map rid results) ->
    In row (touchAll clock k results rows).
Proof.
  induction results as [|r0 rest IH]; intros k rows row Hin Hn;
    cbn [touchAll]; [exact Hin|].
  apply IH.
  - apply touch_In_other; [exact Hin|]. intro H. apply Hn. left. now rewrite H.
  - intro H. apply Hn. now right.
Qed.

Lemma touchAll_touched (clock : nat -> Z) (results : list SearchResult) :
  NoDup (map rid results) ->
  forall k rows row j r,
    In row rows -> nth_error results j = Some r -> rid r = Db.id row ->
    In (Spec.touched (clock (k + j)%nat) row) (touchAll clock k results rows).
Proof.
  induction results as [|r0 rest IH]; intros Hnd k rows row j r Hin Hj Hid.
  - destruct j; discriminate.
  - cbn [map] in Hnd. apply NoDup_cons_iff in Hnd. destruct Hnd as [Hr0 Hrest].
    cbn [touchAll]. destruct j as [|j].
    + injection Hj as ->. replace (k + 0)%nat with k by lia.
      apply touchAll_untouched.
      * apply touch_In_same; [exact Hin | now symmetry].
      * cbn [Spec.touched Db.id]. now rewrite <- Hid.
    + cbn [nth_error] in Hj. replace (k + S j)%nat with (S k + j)%nat by lia.
      apply (IH Hrest (S k) _ row j r); [|exact Hj | exact Hid].
      apply touch_In_other; [exact Hin|].
      intro H. apply Hr0. change (id (record r0)) with (rid r0) in H.
      rewrite <- H, <- Hid. apply in_map. eapply nth_error_In. exact Hj.
Qed.

Lemma NoDup_firstn {A} (n : nat) (l : list A) : NoDup l -> NoDup (firstn n l).
Proof.
  intro H. rewrite <- (firstn_skipn n l) in H.
  now apply NoDup_app_remove_r in H.
Qed.

Lemma ranked_unique (query : string) (limit : Z) (minSimilarity : R)
    (m : LongTermMemory) :
  Spec.uniqueIds (db m) ->
  NoDup (map rid (ranked query limit minSimilarity m)).
Proof.
  intro H. unfold ranked, JS.sliceTo.
  set (scored := map _ (db m)).
  assert (Hs : NoDup (map rid scored)).
  { unfold scored. rewrite map_map. exact H. }
  assert (Hf : NoDup (map rid (filter (fun r => Num.leb minSimilarity (similarity r))
                                      scored)))
    by (now apply filter_keeps_keys_apart).
  assert (Hsorted : NoDup (map rid (sortBy (fun a b => (similarity b - similarity a)%R)
                                      (filter (fun r => Num.leb minSimilarity (similarity r))
                                              scored)))).
  { eapply Permutation_NoDup; [|exact Hf].
    apply Permutation_map, Permutation_sym, sortBy_perm. }
  destruct (limit <? 0); rewrite <- firstn_map; now apply NoDup_firstn.
Qed.

End Touch.

(** The read-through touch.  In a table without duplicate ids, [search]
    changes no id; it leaves the records that it does not return as they
    are; and the record that it returns in place [k] has afterwards one
    access more and was last accessed at the [k]-th reading of the
    clock. *)
Theorem search_touches_what_it_returns (clock : nat -> Z) (query : string)
    (limit : Z) (minSimilarity : R) (m : LongTerm.LongTermMemory)
    (Hm : Spec.uniqueIds (LongTerm.db m)) :
  let results := fst (LongTerm.search clock query limit minSimilarity m) in
  let m' := snd (LongTerm.search clock query limit minSimilarity m) in
  map LongTerm.Db.id (LongTerm.db m') = map LongTerm.Db.id (LongTerm.db m)
  /\ (forall row,
        In row (LongTerm.db m) ->
        ~ In (LongTerm.Db.id row)
             (map (fun r => LongTerm.id (LongTerm.record r)) results) ->
        In row (LongTerm.db m'))
  /\ (forall k r row,
        nth_error results k = Some r ->
        In row (LongTerm.db m) ->
        LongTerm.id (LongTerm.record r) = LongTerm.Db.id row ->
        In (Spec.touched (clock k) row) (LongTerm.db m')).
Proof.
  cbn [LongTerm.search fst snd LongTerm.db]. split; [|split].
  - apply touchAll_ids.
  - intros row Hin Hn. now apply touchAll_untouched.
  - intros k r row Hk Hin Hid.
    apply (touchAll_touched clock _ (ranked_unique _ _ _ _ Hm) 0 _ row k r);
      assumption.
Qed.

(** The theorem on the memory that holds the preference of the scenario:
    a search for it leaves it with one access, at the time of the
    search. *)
Lemma search_touches_what_it_returns_witness :
  exists row,
    In row (LongTerm.db (snd (LongTerm.search (fun _ => 7) Examples.darkMode 5
                                              0.1 (Examples.remembered 0.9))))
    /\ LongTerm.Db.access_count row = 1
    /\ LongTerm.Db.last_accessed row = 7.
Proof.
  assert (Hu : Spec.uniqueIds (LongTerm.db (Examples.remembered 0.9))).
  { unfold Spec.uniqueIds. cbn [Examples.remembered LongTerm.store snd
      LongTerm.db LongTerm.create LongTerm.insertOrReplace filter app map].
    constructor; [intros [] | constructor]. }
  destruct (store_then_search 1 (fun _ => 7) Examples.darkMode LongTerm.preference
              "s1" 0.9 5 0.1 (LongTerm.create 256))
    as [r [Hin [Hid _]]].
  { vm_compute. reflexivity. }
  { lra. }
  { cbn [LongTerm.create LongTerm.db List.length Z.of_nat]. lia. }
  apply In_nth_error in Hin. destruct Hin as [k Hk].
  pose proof (search_touches_what_it_returns (fun _ => 7) Examples.darkMode 5
                0.1 (Examples.remembered 0.9) Hu) as [_ [_ Htouch]].
  set (row := {| LongTerm.Db.id := LongTerm.idOf Examples.darkMode;
                 LongTerm.Db.content := Examples.darkMode;
                 LongTerm.Db.embedding := LongTerm.embed 256 Examples.darkMode;
                 LongTerm.Db.type := LongTerm.preference;
                 LongTerm.Db.source := "s1";
                 LongTerm.Db.importance := 0.9%R;
                 LongTerm.Db.created_at := 1;
                 LongTerm.Db.access_count := 0;
                 LongTerm.Db.last_accessed := 1 |}).
  exists (Spec.touched 7 row). split.
  - apply (Htouch k r row Hk).
    + left. reflexivity.
    + exact Hid.
  - split; reflexivity.
Defined.

Lemma filter_idem {A} (f : A -> bool) (l : list A) :
  filter f (filter f l) = filter f l.
Proof.
  induction l as [|x l IH]; [reflexivity|]. cbn [filter].
  destruct (f x) eqn:E; [|exact IH]. cbn [filter]. now rewrite E, IH.
Qed.

(** [search] returns no more results than its limit, when the limit is not
    negative, and no more than the memory holds records. *)
Theorem search_respects_the_limit (clock : nat -> Z) (query : string)
    (limit : Z) (minSimilarity : R) (m : LongTerm.LongTermMemory)
    (Hlimit : 0 <= limit) :
  Z.of_nat (List.length (fst (LongTerm.search clock query limit minSimilarity m)))
  <= limit
  /\ (List.length (fst (LongTerm.search clock query limit minSimilarity m))
      <= List.length (LongTerm.db m))%nat.
Proof.
  cbn [LongTerm.search fst]. unfold LongTerm.ranked, JS.sliceTo.
  destruct (limit <? 0) eqn:E; [apply Z.ltb_lt in E; lia|].
  set (sorted := LongTerm.sortBy _ _).
  assert (Hs : (List.length sorted <= List.length (LongTerm.db m))%nat).
  { unfold sorted. rewrite sortBy_length.
    etransitivity; [apply filter_length_le|]. now rewrite length_map. }
  rewrite length_firstn. split; lia.
Qed.

(** The theorem with the limit 1 on the two notes of the example. *)
Lemma search_respects_the_limit_witness :
  Z.of_nat (List.length
              (fst (LongTerm.search (fun _ => 3) "dark mode" 1 0.1
                                    Examples.twoNotes))) <= 1.
Proof.
  apply (search_respects_the_limit (fun _ => 3) "dark mode" 1 0.1
                                   Examples.twoNotes).
  lia.
Defined.

(** A negative limit does not empty the result: [search] with the limit
    [-k] returns the ranked records without the last [k] of them. *)
Theorem search_with_a_negative_limit (clock : nat -> Z) (query : string)
    (limit : Z) (minSimilarity : R) (m : LongTerm.LongTermMemory)
    (Hlimit : limit < 0) :
  let all :=
    fst (LongTerm.search clock query
           (Z.of_nat (List.length (LongTerm.db m))) minSimilarity m) in
  fst (LongTerm.search clock query limit minSimilarity m)
  = firstn (List.length all - Z.to_nat (- limit)) all.
Proof.
  cbn [LongTerm.search fst]. unfold LongTerm.ranked.
  set (sorted := LongTerm.sortBy _ _).
  assert (Hs : (List.length sorted <= List.length (LongTerm.db m))%nat).
  { unfold sorted. rewrite sortBy_length.
    etransitivity; [apply filter_length_le|]. now rewrite length_map. }
  rewrite (sliceTo_all sorted (Z.of_nat (List.length (LongTerm.db m)))) by lia.
  unfold JS.sliceTo. apply Z.ltb_lt in Hlimit. rewrite Hlimit.
  apply Z.ltb_lt in Hlimit. f_equal. lia.
Qed.

(** The two notes of the example, ranked for the query "dark mode": both
    score 0.9 and stay in table order. *)
Lemma twoNotes_ranked (limit : Z) :
  LongTerm.ranked "dark mode" limit 0.1 Examples.twoNotes
  = JS.sliceTo
      [LongTerm.scoreRow (LongTerm.embed 256 "dark mode") 256 Examples.noteA;
       LongTerm.scoreRow (LongTerm.embed 256 "dark mode") 256 Examples.noteB]
      limit.
Proof.
  destruct twoNotes_scores as [Ha Hb].
  rewrite twoNotes_rows. unfold LongTerm.ranked.
  cbn [LongTerm.db LongTerm.dimension map filter].
  rewrite Ha, Hb. rewrite (leb_true 0.1 0.9) by lra.
  cbn [LongTerm.sortBy fold_right LongTerm.insertBy].
  rewrite Ha, Hb. rewrite (ltb_false 0 (0.9 - 0.9)) by lra.
  reflexivity.
Qed.

(** The theorem on the two notes of the example: the limit -1 returns one
    of the two. *)
Lemma search_with_a_negative_limit_witness :
  List.length (fst (LongTerm.search (fun _ => 3) "dark mode" (-1) 0.1
                                    Examples.twoNotes)) = 1%nat.
Proof.
  rewrite (search_with_a_negative_limit (fun _ => 3) "dark mode" (-1) 0.1
             Examples.twoNotes ltac:(lia)).
  cbv zeta. cbn [LongTerm.search fst]. rewrite twoNotes_ranked.
  rewrite twoNotes_rows. reflexivity.
Defined.

(** [delete] answers whether the id was there, removes every record of
    that id and no other; after [store], deleting the id that [store]
    returned answers true and leaves what the table held under other
    ids. *)
Theorem delete_removes (id : string) (m : LongTerm.LongTermMemory) :
  (fst (LongTerm.delete id m) = true
   <-> exists row, In row (LongTerm.db m) /\ LongTerm.Db.id row = id)
  /\ (forall r,
        In r (LongTerm.db (snd (LongTerm.delete id m)))
        <-> In r (LongTerm.db m) /\ LongTerm.Db.id r <> id)
  /\ (forall now c ty src imp,
        let stored := LongTerm.store now c ty src imp m in
        fst (LongTerm.delete (fst stored) (snd stored)) = true
        /\ LongTerm.db (snd (LongTerm.delete (fst stored) (snd stored)))
           = filter (fun r => negb (LongTerm.Db.id r =? LongTerm.idOf c)%string)
                    (LongTerm.db m)).
Proof.
  assert (Hlen : forall (l : list LongTerm.Db.Row),
             (List.length
                (filter (fun r => negb (LongTerm.Db.id r =? id)%string) l)
              < List.length l)%nat
             <-> exists row, In row l /\ LongTerm.Db.id row = id).
  { induction l as [|x l IH]; cbn [filter List.length].
    - split; [lia | intros [row [[] _]]].
    - pose proof (filter_length_le
                    (fun r => negb (LongTerm.Db.id r =? id)%string) l) as Hle.
      destruct (LongTerm.Db.id x =? id)%string eqn:E; cbn [negb List.length].
      + apply String.eqb_eq in E. split; [|lia]. intros _. exists x. now split; [left|].
      + apply String.eqb_neq in E. split.
        * intro H. assert (H' : (List.length (filter (fun r => negb (LongTerm.Db.id r =? id)%string) l) < List.length l)%nat) by lia.
          apply IH in H'. destruct H' as [row [Hin Hid]].
          exists row. split; [now right | exact Hid].
        * intros [row [[-> | Hin] Hid]]; [contradiction|].
          assert (H' : exists row, In row l /\ LongTerm.Db.id row = id)
            by (now exists row).
          apply IH in H'. lia. }
  split; [|split].
  - cbn [LongTerm.delete fst]. rewrite Nat.ltb_lt. apply Hlen.
  - intro r. cbn [LongTerm.delete snd LongTerm.db].
    rewrite filter_In, negb_true_iff, String.eqb_neq. reflexivity.
  - intros now c ty src imp stored. split.
    + cbn [LongTerm.delete fst]. apply Nat.ltb_lt.
      unfold stored. cbn [LongTerm.store fst snd LongTerm.db].
      unfold LongTerm.insertOrReplace. rewrite filter_app, !length_app.
      cbn [filter LongTerm.Db.id]. rewrite String.eqb_refl.
      cbn [negb List.length].
      pose proof (filter_length_le
                    (fun r => negb (LongTerm.Db.id r =? LongTerm.idOf c)%string)
                    (filter (fun r => negb (LongTerm.Db.id r =? LongTerm.idOf c)%string)
                            (LongTerm.db m))).
      lia.
    + unfold stored. cbn [LongTerm.store LongTerm.delete fst snd LongTerm.db].
      unfold LongTerm.insertOrReplace. rewrite filter_app.
      cbn [filter LongTerm.Db.id]. rewrite String.eqb_refl. cbn [negb].
      rewrite app_nil_r. apply filter_idem.
Qed.

(** [decay] is complete in one pass: a second [decay] at the same time and
    with the same age removes nothing. *)
Theorem decay_twice_removes_nothing (now : Z) (maxAgeDays : R)
    (m : LongTerm.LongTermMemory) :
  LongTerm.decay now maxAgeDays (snd (LongTerm.decay now maxAgeDays m))
  = (0, snd (LongTerm.decay now maxAgeDays m)).
Proof.
  unfold LongTerm.decay. cbn [snd LongTerm.db LongTerm.dimension].
  set (cutoff := (IZR now - maxAgeDays * 24 * 60 * 60 * 1000)%R).
  assert (H1 : filter (LongTerm.decays cutoff)
                      (filter (fun r => negb (LongTerm.decays cutoff r))
                              (LongTerm.db m)) = []).
  { apply filter_nothing. intros x Hx. apply filter_In in Hx.
    now apply negb_true_iff. }
  assert (H2 : filter (fun r => negb (LongTerm.decays cutoff r))
                      (filter (fun r => negb (LongTerm.decays cutoff r))
                              (LongTerm.db m))
               = filter (fun r => negb (LongTerm.decays cutoff r)) (LongTerm.db m)).
  { apply filter_idem. }
  now rewrite H1, H2.
Qed.

(** * Session persistence *)

Section Sessions.

Lemma find_app {A} (f : A -> bool) (l1 l2 : list A) :
  find f (l1 ++ l2)
  = match find f l1 with Some x => Some x | None => find f l2 end.
Proof.
  induction l1 as [|x l1 IH]; [reflexivity|]. cbn [app find].
  destruct (f x); [reflexivity | exact IH].
Qed.

Lemma find_filtered_out (sid : string) (db : SessionStore.SessionStore) :
  find (fun r => (SessionStore.id r =? sid)%string)
       (filter (fun r => negb (SessionStore.id r =? sid)%string) db) = None.
Proof.
  induction db as [|x db IH]; [reflexivity|]. cbn [filter].
  destruct (SessionStore.id x =? sid)%string eqn:E; cbn [negb]; [exact IH|].
  cbn [find]. now rewrite E.
Qed.

Lemma find_other (sid sid' : string) (db : SessionStore.SessionStore) :
  sid' <> sid ->
  find (fun r => (SessionStore.id r =? sid')%string)
       (filter (fun r => negb (SessionStore.id r =? sid)%string) db)
  = find (fun r => (SessionStore.id r =? sid')%string) db.
Proof.
  intro Hne. induction db as [|x db IH]; [reflexivity|]. cbn [filter find].
  destruct (SessionStore.id x =? sid)%string eqn:E; cbn [negb].
  - apply String.eqb_eq in E.
    replace (SessionStore.id x =? sid')%string with false; [exact IH|].
    symmetry. apply String.eqb_neq. congruence.
  - cbn [find]. destruct (SessionStore.id x =? sid')%string; [reflexivity | exact IH].
Qed.

(** The row that [save] writes is the one found under its id. *)
Lemma save_find (now : Z) (sid : string) (msgs : list ShortTerm.Message)
    (sum : option string) (db : SessionStore.SessionStore) :
  find (fun r => (SessionStore.id r =? sid)%string) (SessionStore.save now sid msgs sum db)
  = Some {| SessionStore.id := sid; SessionStore.messages := msgs;
            SessionStore.created_at :=
              match find (fun r => (SessionStore.id r =? sid)%string) db with
              | Some r => SessionStore.created_at r
              | None => now
              end;
            SessionStore.updated_at := now; SessionStore.summary := sum |}.
Proof.
  unfold SessionStore.save. rewrite find_app, find_filtered_out.
  cbn [find SessionStore.id].
  now rewrite String.eqb_refl.
Qed.

End Sessions.

(** A session that is saved can be loaded: [load] gives back the messages
    of the last [save] under that id; saving under one id changes what
    [load] gives under no other; and nothing is loaded from an empty
    store. *)
Theorem save_then_load (now : Z) (sessionId other : string)
    (messages : list ShortTerm.Message) (summary : option string)
    (db : SessionStore.SessionStore) :
  SessionStore.load sessionId
    (SessionStore.save now sessionId messages summary db) = Some messages
  /\ (other <> sessionId ->
      SessionStore.load other
        (SessionStore.save now sessionId messages summary db)
      = SessionStore.load other db)
  /\ SessionStore.load sessionId [] = None.
Proof.
  split; [|split].
  - unfold SessionStore.load. now rewrite save_find.
  - intro Hne. unfold SessionStore.load, SessionStore.save.
    rewrite find_app, (find_other sessionId other db Hne).
    destruct (find _ db); [reflexivity|].
    cbn [find SessionStore.id].
    replace (sessionId =? other)%string with false; [reflexivity|].
    symmetry. apply String.eqb_neq. congruence.
  - reflexivity.
Qed.

(** The theorem on two sessions. *)
Lemma save_then_load_witness :
  SessionStore.load "s2"
    (SessionStore.save 2 "s1" [Examples.hi] None
       (SessionStore.save 1 "s2" [Examples.forty] None []))
  = Some [Examples.forty].
Proof.
  rewrite (proj1 (proj2 (save_then_load 2 "s1" "s2" [Examples.hi] None
                           (SessionStore.save 1 "s2" [Examples.forty] None [])))
                 ltac:(discriminate)).
  apply (proj1 (save_then_load 1 "s2" "s2" [Examples.forty] None [])).
Defined.

(** A session keeps the time of its first [save]: a second [save] under the
    same id replaces the messages and the summary, moves [updated_at] and
    leaves [created_at] where the first had put it. *)
Theorem save_again_keeps_the_creation_time (now1 now2 : Z) (sessionId : string)
    (messages1 messages2 : list ShortTerm.Message)
    (summary1 summary2 : option string) (db : SessionStore.SessionStore) :
  let first := SessionStore.save now1 sessionId messages1 summary1 db in
  let second := SessionStore.save now2 sessionId messages2 summary2 first in
  exists created,
    find (fun r => (SessionStore.id r =? sessionId)%string) first
    = Some {| SessionStore.id := sessionId;
              SessionStore.messages := messages1;
              SessionStore.created_at := created;
              SessionStore.updated_at := now1;
              SessionStore.summary := summary1 |}
    /\ filter (fun r => (SessionStore.id r =? sessionId)%string) second
       = [ {| SessionStore.id := sessionId;
              SessionStore.messages := messages2;
              SessionStore.created_at := created;
              SessionStore.updated_at := now2;
              SessionStore.summary := summary2 |} ].
Proof.
  intros first second.
  pose proof (save_find now1 sessionId messages1 summary1 db) as Hf.
  fold first in Hf.
  eexists. split; [exact Hf|].
  unfold second, SessionStore.save. fold first. cbv zeta.
  rewrite Hf. cbn [SessionStore.created_at].
  rewrite filter_app. cbn [filter SessionStore.id].
  rewrite String.eqb_refl.
  replace (filter _ (filter _ first)) with (@nil SessionStore.Row);
    [reflexivity|].
  symmetry. apply filter_nothing. intros x Hx.
  apply filter_In in Hx. destruct Hx as [_ Hx].
  now apply negb_true_iff in Hx.
Qed.



(** * More on the guide's classes *)

Section GuideErrors.
Import Guide.LongTerm.

Lemma guide_cosine_none (a b : list R) :
  cosineSimilarity a b = None <-> List.length a <> List.length b.
Proof.
  unfold cosineSimilarity.
  destruct (List.length a =? List.length b)%nat eqn:E.
  - apply Nat.eqb_eq in E. rewrite sums_spec by lia.
    split; [|contradiction].
    destruct (Num.eqb _ 0 || Num.eqb _ 0); discriminate.
  - apply Nat.eqb_neq in E. tauto.
Qed.

Lemma scoreRows_none (q : list R) (clock : nat -> Z) (rows : list Db.Row) :
  forall k,
    scoreRows q clock k rows = None
    <-> exists row, In row rows
                    /\ List.length (Db.embedding row) <> List.length q.
Proof.
  induction rows as [|row rows IH]; intro k; cbn [scoreRows].
  - split; [discriminate | intros [row [[] _]]].
  - unfold scoreRow at 1.
    destruct (cosineSimilarity q (Db.embedding row)) as [s|] eqn:Ec.
    + assert (Hlen : List.length q = List.length (Db.embedding row)).
      { destruct (Nat.eq_dec (List.length q) (List.length (Db.embedding row)))
          as [H | H]; [exact H|].
        apply guide_cosine_none in H. congruence. }
      destruct (scoreRows q clock (S k) rows) as [rs|] eqn:Er.
      * split; [discriminate|]. intros [r [[<- | Hin] Hne]]; [congruence|].
        assert (Hx : scoreRows q clock (S k) rows = None)
          by (apply IH; now exists r).
        congruence.
      * split; [|reflexivity]. intros _.
        apply IH in Er. destruct Er as [r [Hin Hne]].
        exists r. split; [now right | exact Hne].
    + split; [|reflexivity]. intros _. exists row. split; [now left|].
      apply guide_cosine_none in Ec. congruence.
Qed.

Lemma typeName_inj (a b : EntryType) : typeName a = typeName b -> a = b.
Proof. destruct a, b; cbn; intro H; try reflexivity; discriminate H. Qed.

Lemma scoreRows_In (q : list R) (clock : nat -> Z) (rows : list Db.Row) :
  forall k scored r,
    scoreRows q clock k rows = Some scored -> In r scored ->
    exists row, In row rows
                /\ id (entry r) = Db.id row
                /\ content (entry r) = Db.content row
                /\ type (metadata (entry r)) = Db.type row.
Proof.
  induction rows as [|row rows IH]; intros k scored r Hs Hin;
    cbn [scoreRows] in Hs.
  - injection Hs as <-. destruct Hin.
  - unfold scoreRow at 1 in Hs.
    destruct (cosineSimilarity q (Db.embedding row)) as [s|]; [|discriminate].
    destruct (scoreRows q clock (S k) rows) as [rs|] eqn:Er; [|discriminate].
    injection Hs as <-. destruct Hin as [<- | Hin].
    + exists row. cbn. repeat split. now left.
    + destruct (IH (S k) rs r Er Hin) as [row' [Hin' H]].
      exists row'. split; [now right | exact H].
Qed.

End GuideErrors.

(** The guide's [cosineSimilarity] throws exactly when the two vectors
    differ in length, and the guide's [search] throws exactly when a record
    that it scans holds a vector of another length than the embedding of
    the query. *)
Theorem guide_search_throws_on_length_mismatch (clock : nat -> Z) (k : nat)
    (query : string) (limit : Z) (minSimilarity : R)
    (m : Guide.LongTerm.LongTermMemory) (a b : list R) :
  (Guide.LongTerm.cosineSimilarity a b = None
   <-> List.length a <> List.length b)
  /\ (Guide.LongTerm.search clock k query limit None minSimilarity m = None
      <-> exists row,
            In row (Guide.LongTerm.db m)
            /\ List.length (Guide.LongTerm.Db.embedding row)
               <> List.length (Guide.LongTerm.getEmbedding m query)).
Proof.
  split; [apply guide_cosine_none|].
  unfold Guide.LongTerm.search.
  rewrite <- scoreRows_none with (clock := clock) (k := k).
  destruct (Guide.LongTerm.scoreRows _ clock k (Guide.LongTerm.db m));
    split; intro H; try reflexivity; discriminate H.
Qed.

(** A search of the guide for one type returns records of that type only,
    each of them a record of the table. *)
Theorem guide_search_filters_by_type (clock : nat -> Z) (k : nat)
    (query : string) (limit : Z) (t : Guide.LongTerm.EntryType)
    (minSimilarity : R) (m m' : Guide.LongTerm.LongTermMemory)
    (results : list Guide.LongTerm.SearchResult)
    (r : Guide.LongTerm.SearchResult)
    (Hsearch : Guide.LongTerm.search clock k query limit (Some t) minSimilarity m
               = Some (results, m'))
    (Hr : In r results) :
  Guide.LongTerm.type (Guide.LongTerm.metadata (Guide.LongTerm.entry r)) = t
  /\ exists row,
       In row (Guide.LongTerm.db m)
       /\ Guide.LongTerm.id (Guide.LongTerm.entry r) = Guide.LongTerm.Db.id row
       /\ Guide.LongTerm.content (Guide.LongTerm.entry r)
          = Guide.LongTerm.Db.content row.
Proof.
  unfold Guide.LongTerm.search in Hsearch.
  destruct (Guide.LongTerm.scoreRows _ clock k _) as [scored|] eqn:Es;
    [|discriminate].
  injection Hsearch as <- _.
  apply sliceTo_In, sortBy_In, filter_In in Hr. destruct Hr as [Hr _].
  destruct (scoreRows_In _ _ _ _ _ _ Es Hr) as [row [Hin [Hid [Hc Hty]]]].
  apply filter_In in Hin. destruct Hin as [Hin Ht].
  apply String.eqb_eq, typeName_inj in Ht.
  split; [congruence|]. exists row. now repeat split.
Qed.

(** The preference of the example is found by a search for preferences. *)
Lemma guideRemembered_found_typed :
  exists r m',
    Guide.LongTerm.search (Examples.ticks 10) 0 Examples.darkMode 1
      (Some Guide.LongTerm.preference) 0.85 Examples.guideRemembered
    = Some ([r], m').
Proof.
  assert (Hf : Spec.nonzero (Guide.LongTerm.localFeatures 384 Examples.darkMode)
               = true) by (vm_compute; reflexivity).
  rewrite guideRemembered_rows. unfold Guide.LongTerm.search.
  cbn [Guide.LongTerm.db Guide.LongTerm.getEmbedding Guide.LongTerm.provider
       Guide.LongTerm.embeddingDimension filter].
  change (Guide.LongTerm.typeName (Guide.LongTerm.Db.type Examples.guideRow)
          =? Guide.LongTerm.typeName Guide.LongTerm.preference)%string
    with true.
  cbn [Guide.LongTerm.scoreRows].
  unfold Guide.LongTerm.scoreRow, Examples.guideRow at 1.
  cbn [Guide.LongTerm.Db.embedding Guide.LongTerm.Db.importance].
  rewrite (guide_cosine_self 384 Examples.darkMode Hf).
  cbn [filter Guide.LongTerm.similarity].
  set (recency := Rmax 0 _).
  assert (Hr : (0 <= recency)%R) by apply Rmax_l.
  change (Guide.LongTerm.Db.importance Examples.guideRow) with 0.9%R.
  rewrite leb_true by lra.
  cbn [LongTerm.sortBy fold_right LongTerm.insertBy].
  do 2 eexists. reflexivity.
Qed.

(** The theorem on the memory of the example, searched for preferences. *)
Lemma guide_search_filters_by_type_witness :
  exists r m',
    Guide.LongTerm.search (Examples.ticks 10) 0 Examples.darkMode 1
      (Some Guide.LongTerm.preference) 0.85 Examples.guideRemembered
    = Some ([r], m')
    /\ Guide.LongTerm.type (Guide.LongTerm.metadata (Guide.LongTerm.entry r))
       = Guide.LongTerm.preference.
Proof.
  destruct guideRemembered_found_typed as [r [m' Hs]].
  exists r, m'. split; [exact Hs|].
  apply (proj1 (guide_search_filters_by_type _ _ _ _ _ _ _ _ _ r Hs
                  (or_introl eq_refl))).
Defined.

(** * Episodes *)

Section Lessons.
Import Guide.Episodic.

Lemma existsb_eqb (x : string) (seen : list string) :
  existsb (String.eqb x) seen = true <-> In x seen.
Proof.
  rewrite existsb_exists. split.
  - intros [y [Hin Heq]]. apply String.eqb_eq in Heq. now subst.
  - intro H. exists x. split; [exact H | apply String.eqb_refl].
Qed.

Lemma dedupe_In (l : list string) :
  forall seen x, In x (dedupe seen l) <-> In x l /\ ~ In x seen.
Proof.
  induction l as [|y l IH]; intros seen x; cbn [dedupe].
  - cbn. tauto.
  - destruct (existsb (String.eqb y) seen) eqn:E.
    + apply existsb_eqb in E. rewrite IH. cbn [In]. split.
      * intros [H1 H2]. tauto.
      * intros [[-> | H1] H2]; [contradiction | tauto].
    + assert (Hy : ~ In y seen).
      { intro H. apply existsb_eqb in H. congruence. }
      cbn [In]. rewrite IH. cbn [In].
      destruct (string_dec y x) as [-> | Hne]; tauto.
Qed.

Lemma dedupe_NoDup (l : list string) : forall seen, NoDup (dedupe seen l).
Proof.
  induction l as [|y l IH]; intro seen; cbn [dedupe]; [constructor|].
  destruct (existsb (String.eqb y) seen); [apply IH|].
  constructor; [|apply IH]. rewrite dedupe_In. cbn [In]. tauto.
Qed.

Lemma jsonArray_empty (l : list string) :
  (jsonArray l =? "[]")%string = true <-> l = [].
Proof.
  split; [|intros ->; reflexivity].
  destruct l as [|x l]; [reflexivity|]. intro H. exfalso.
  apply String.eqb_eq in H. unfold jsonArray in H.
  cbn [map] in H.
  assert (Hj : exists rest,
             JS.join "," (jsonString x :: map jsonString l)
             = String (ascii_of_nat 34) rest).
  { destruct l as [|y l]; cbn [map JS.join]; unfold jsonString at 1;
      eexists; cbn [append]; reflexivity. }
  destruct Hj as [rest Hj]. rewrite Hj in H. cbn [append] in H.
  discriminate H.
Qed.

End Lessons.

(** What [getLessons] holds. *)
Lemma getLessons_spec (e : Guide.Episodic.EpisodicMemory) :
  NoDup (Guide.Episodic.getLessons e)
  /\ (forall x,
        In x (Guide.Episodic.getLessons e)
        <-> exists row l,
              In row e /\ Guide.Episodic.lessons row = Some l /\ In x l).
Proof.
  unfold Guide.Episodic.getLessons. split; [apply dedupe_NoDup|].
  intro x. rewrite dedupe_In, in_flat_map. split.
  - intros [[row [Hrow Hx]] _]. apply filter_In in Hrow.
    destruct Hrow as [Hrow _].
    destruct (Guide.Episodic.lessons row) as [l|] eqn:El; [|destruct Hx].
    now exists row, l.
  - intros [row [l [Hrow [Hl Hx]]]]. split; [|intros []].
    exists row. rewrite Hl. split; [|exact Hx].
    apply filter_In. split; [exact Hrow|]. rewrite Hl.
    apply negb_true_iff. apply not_true_iff_false. intro H.
    apply jsonArray_empty in H. subst l. destruct Hx.
Qed.

(** [getLessons] is the union of the lessons of the episodes without
    repetition: it holds no lesson twice, and a lesson is in it exactly
    when some episode has it. *)
Theorem getLessons_is_the_union (e : Guide.Episodic.EpisodicMemory) :
  NoDup (Guide.Episodic.getLessons e)
  /\ (forall x,
        In x (Guide.Episodic.getLessons e)
        <-> exists row l,
              In row e /\ Guide.Episodic.lessons row = Some l /\ In x l).
Proof. apply getLessons_spec. Qed.

Section EmptyQuery.
Import Guide.Episodic.

Lemma like_percent (text : string) : like "%" text = true.
Proof.
  induction text as [|c text IH]; [reflexivity|].
  change (like "%" (String c text))
    with (like "" (String c text) || like "%" text).
  rewrite IH. apply orb_true_r.
Qed.

Lemma like_percent_percent (text : string) : like "%%" text = true.
Proof.
  destruct text as [|c text].
  - reflexivity.
  - change (like "%%" (String c text))
      with (like "%" (String c text) || like "%%" text).
    now rewrite like_percent.
Qed.

End EmptyQuery.

(** An empty query matches every episode: [searchEpisodes("", limit)] is
    [getRecent(limit)]. *)
Theorem searchEpisodes_of_nothing (limit : Z) (e : Guide.Episodic.EpisodicMemory) :
  Guide.Episodic.searchEpisodes "" limit e = Guide.Episodic.getRecent limit e.
Proof.
  unfold Guide.Episodic.searchEpisodes, Guide.Episodic.getRecent.
  replace (filter (Guide.Episodic.matches "") e) with e; [reflexivity|].
  induction e as [|row e IH]; [reflexivity|]. cbn [filter].
  replace (Guide.Episodic.matches "" row) with true; [now rewrite <- IH|].
  unfold Guide.Episodic.matches.
  change ("%" ++ "" ++ "%") with "%%". now rewrite like_percent_percent.
Qed.

(** * The context that [buildContext] injects *)

Section Injection.
Import Guide.Agent.

Lemma appended_length' {A} (f : string -> A -> string) (l : list A) :
  (forall acc x, String.length acc <= String.length (f acc x))%nat ->
  forall init, (String.length init <= String.length (fold_left f l init))%nat.
Proof.
  intro Hf. induction l as [|x l IH]; intro init; cbn [fold_left]; [lia|].
  etransitivity; [apply (Hf init x) | apply IH].
Qed.

Lemma contextInjection_something (toLocaleDateString : Z -> string)
    (memories : list Guide.LongTerm.SearchResult)
    (episodes : list Guide.Episodic.Row) (lessons : list string) :
  memories <> [] \/ episodes <> [] \/ lessons <> [] ->
  (0 < String.length
         (contextInjection toLocaleDateString memories episodes lessons))%nat.
Proof.
  intro H. unfold contextInjection.
  set (i1 := if (0 <? List.length memories)%nat then _ else "").
  set (i2 := if (0 <? List.length episodes)%nat then _ else i1).
  assert (H1 : memories <> [] -> (0 < String.length i1)%nat).
  { intro Hm. unfold i1. destruct memories as [|x l]; [contradiction|].
    cbn [List.length Nat.ltb Nat.leb].
    eapply Nat.lt_le_trans; [|apply appended_length'].
    - rewrite !append_length. cbn [String.length newline]. lia.
    - intros acc y. rewrite !append_length. lia. }
  assert (H12 : (String.length i1 <= String.length i2)%nat).
  { unfold i2. destruct (0 <? List.length episodes)%nat; [|lia].
    etransitivity; [|apply appended_length'].
    - rewrite !append_length. lia.
    - intros acc y. rewrite !append_length. lia. }
  assert (H2 : episodes <> [] -> (0 < String.length i2)%nat).
  { intro He. unfold i2. destruct episodes as [|x l]; [contradiction|].
    cbn [List.length Nat.ltb Nat.leb].
    eapply Nat.lt_le_trans; [|apply appended_length'].
    - rewrite !append_length. cbn [String.length newline]. lia.
    - intros acc y. rewrite !append_length. lia. }
  destruct (0 <? List.length lessons)%nat eqn:El.
  - eapply Nat.lt_le_trans; [|apply appended_length'].
    + rewrite !append_length. cbn [String.length newline]. lia.
    + intros acc y. rewrite !append_length. lia.
  - destruct lessons; [|discriminate El].
    destruct H as [H | [H | H]]; [specialize (H1 H); lia | now apply H2 |
                                   contradiction].
Qed.

End Injection.

(** When the long-term memory, the episodes or the lessons have something
    to offer, [buildContext] returns the messages of the buffer, in the
    form that [getForAPI] gives them, with one system message inserted
    after the first: one message more than the buffer holds. *)
Theorem buildContext_inserts_one_message (toLocaleDateString : Z -> string)
    (clock : nat -> Z) (userMessage : string) (a : Guide.Agent.AgentMemory)
    (memories : list Guide.LongTerm.SearchResult)
    (m' : Guide.LongTerm.LongTermMemory)
    (Hsearch : Guide.LongTerm.search clock 0 userMessage 5 None 0.3
                 (Guide.Agent.longTerm a) = Some (memories, m'))
    (Hfound : memories <> []
              \/ Guide.Episodic.searchEpisodes userMessage 3
                   (Guide.Agent.episodic a) <> []
              \/ Guide.Episodic.getLessons (Guide.Agent.episodic a) <> []) :
  exists text,
    Guide.Agent.buildContext toLocaleDateString clock userMessage a
    = Some (Guide.Agent.spliceAt1
              (Guide.ShortTerm.getForAPI (Guide.Agent.shortTerm a))
              (Guide.Agent.systemMessage ("Context from your memory:" ++ text)),
            {| Guide.Agent.shortTerm := Guide.Agent.shortTerm a;
               Guide.Agent.longTerm := m';
               Guide.Agent.episodic := Guide.Agent.episodic a |})
    /\ List.length
         (Guide.Agent.spliceAt1
            (Guide.ShortTerm.getForAPI (Guide.Agent.shortTerm a))
            (Guide.Agent.systemMessage ("Context from your memory:" ++ text)))
       = S (List.length (Guide.ShortTerm.messages (Guide.Agent.shortTerm a))).
Proof.
  unfold Guide.Agent.buildContext. rewrite Hsearch.
  set (text := Guide.Agent.contextInjection _ _ _ _).
  pose proof (contextInjection_something toLocaleDateString memories _ _ Hfound)
    as Hlen.
  fold text in Hlen. apply Nat.ltb_lt in Hlen. rewrite Hlen.
  exists text. split; [reflexivity|].
  unfold Guide.Agent.spliceAt1, Guide.ShortTerm.getForAPI.
  rewrite length_app. cbn [List.length].
  rewrite length_firstn, length_skipn, length_map. lia.
Qed.

(** The theorem on the agent that has a lesson and nothing else. *)
Lemma buildContext_inserts_one_message_witness :
  exists text a',
    Guide.Agent.buildContext Examples.noDate (Examples.ticks 10) "deploy"
      (Examples.agent Examples.guideEmpty [Examples.episode])
    = Some (Guide.Agent.spliceAt1
              (Guide.ShortTerm.getForAPI
                 (Guide.Agent.shortTerm
                    (Examples.agent Examples.guideEmpty [Examples.episode])))
              (Guide.Agent.systemMessage ("Context from your memory:" ++ text)),
            a').
Proof.
  destruct (buildContext_inserts_one_message Examples.noDate (Examples.ticks 10)
              "deploy" (Examples.agent Examples.guideEmpty [Examples.episode])
              [] Examples.guideEmpty)
    as [text [H _]].
  - apply guide_search_empty. reflexivity.
  - right. right. vm_compute. discriminate.
  - exists text. eexists. exact H.
Defined.

(** * The importance that the guide scores *)

(** [scoreImportance] answers between 0.5 and 1, whatever the content, and
    does not read its second argument. *)
Theorem scoreImportance_is_bounded (content context context' : string) :
  (0.5 <= Guide.Strategies.scoreImportance content context <= 1)%R
  /\ Guide.Strategies.scoreImportance content context
     = Guide.Strategies.scoreImportance content context'.
Proof.
  split; [|reflexivity].
  unfold Guide.Strategies.scoreImportance.
  destruct (Guide.Strategies.test _ content);
    destruct (Guide.Strategies.test _ content);
    destruct (Guide.Strategies.test _ content);
    destruct (Guide.Strategies.test _ content);
    unfold Rmin; match goal with |- context [Rle_dec ?x ?y] =>
                   destruct (Rle_dec x y) end; lra.
Qed.

(** * The agent of [index.ts] *)



(** * Saving an episode *)

(** [saveEpisode] fails exactly when an episode carries the id already.
    When it succeeds the table holds one episode more, with the messages as
    they were given, and [getLessons] holds the lessons it held and those
    of the new episode. *)
Theorem saveEpisode_outcomes (clock : nat -> Z) (k : nat) (sessionId : string)
    (messages : list Guide.ShortTerm.Message) (meta : Guide.Episodic.Meta)
    (e : Guide.Episodic.EpisodicMemory) :
  let id := "ep_" ++ sessionId ++ "_" ++ Guide.Episodic.ofZ (clock k) in
  (Guide.Episodic.saveEpisode clock k sessionId messages meta e = None
   <-> exists row, In row e /\ Guide.Episodic.id row = id)
  /\ (forall id' e',
        Guide.Episodic.saveEpisode clock k sessionId messages meta e
        = Some (id', e') ->
        id' = id
        /\ List.length e' = S (List.length e)
        /\ (exists row,
              In row e' /\ Guide.Episodic.id row = id
              /\ Guide.Episodic.messages row = messages)
        /\ (forall x,
              In x (Guide.Episodic.getLessons e')
              <-> In x (Guide.Episodic.getLessons e)
                  \/ In x (Guide.Episodic.orEmpty
                             (Guide.Episodic.lessonsLearned meta)))).
Proof.
  intro id. unfold Guide.Episodic.saveEpisode. fold id.
  destruct (existsb (fun r => (Guide.Episodic.id r =? id)%string) e) eqn:E.
  - split.
    + split; [|reflexivity]. intros _. apply existsb_exists in E.
      destruct E as [row [Hin Heq]]. exists row.
      split; [exact Hin | now apply String.eqb_eq].
    + intros id' e' H. discriminate H.
  - split.
    + split; [discriminate|]. intros [row [Hin Hid]]. exfalso.
      assert (Ht : existsb (fun r => (Guide.Episodic.id r =? id)%string) e = true).
      { apply existsb_exists. exists row. split; [exact Hin|].
        now apply String.eqb_eq. }
      congruence.
    + intros id' e' H. injection H as <- <-.
      split; [reflexivity|]. split.
      { rewrite length_app. cbn [List.length]. lia. }
      split.
      { eexists. split; [apply in_or_app; right; left; reflexivity|].
        split; reflexivity. }
      intro x.
      rewrite (proj2 (getLessons_spec _) x), (proj2 (getLessons_spec e) x).
      split.
      * intros [row [l [Hin [Hl Hx]]]]. apply in_app_or in Hin.
        destruct Hin as [Hin | [<- | []]].
        -- left. now exists row, l.
        -- right. cbn [Guide.Episodic.lessons] in Hl. injection Hl as <-.
           exact Hx.
      * intros [[row [l [Hin [Hl Hx]]]] | Hx].
        -- exists row, l. split; [apply in_or_app; now left | now split].
        -- eexists. eexists. split; [apply in_or_app; right; left; reflexivity|].
           split; [reflexivity | exact Hx].
Qed.

(** The theorem on an empty log: the lesson of the episode saved is among
    the lessons afterwards. *)
Lemma saveEpisode_outcomes_witness :
  let meta := {| Guide.Episodic.metaSummary := "Fixed the build";
                 Guide.Episodic.userGoal := None;
                 Guide.Episodic.metaOutcome := "success";
                 Guide.Episodic.toolsUsed := None;
                 Guide.Episodic.topicsDiscussed := None;
                 Guide.Episodic.lessonsLearned := Some ["Always run the tests"] |} in
  exists id e',
    Guide.Episodic.saveEpisode (Examples.ticks 5) 0 "s1" [] meta [] = Some (id, e')
    /\ In "Always run the tests" (Guide.Episodic.getLessons e').
Proof.
  intro meta.
  destruct (Guide.Episodic.saveEpisode (Examples.ticks 5) 0 "s1" [] meta [])
    as [[id e']|] eqn:E; [|discriminate E].
  exists id, e'. split; [reflexivity|].
  destruct (proj2 (saveEpisode_outcomes (Examples.ticks 5) 0 "s1" [] meta [])
              id e' E) as [_ [_ [_ H]]].
  apply H. right. left. reflexivity.
Defined.

(** [truncate(str, max)] returns [str] itself when it has [max] characters
    at most; otherwise its first [max] characters followed by three dots:
    never more than [max + 3] characters. *)
Theorem truncate_bounds (str : string) (max : nat) :
  (String.length (Agent.truncate str max) <= max + 3)%nat
  /\ ((String.length str <= max)%nat -> Agent.truncate str max = str)
  /\ ((max < String.length str)%nat ->
      Agent.truncate str max = substring 0 max str ++ "..."
      /\ String.length (Agent.truncate str max) = (max + 3)%nat).
Proof.
  assert (Hsub : forall (s : string) (n : nat),
             (n <= String.length s)%nat ->
             String.length (substring 0 n s) = n).
  { induction s as [|c s IH]; intros n Hn.
    - destruct n; [reflexivity | cbn in Hn; lia].
    - destruct n as [|n]; [reflexivity|]. cbn [substring String.length].
      f_equal. apply IH. cbn [String.length] in Hn. lia. }
  unfold Agent.truncate, JS.slice.
  destruct (max <? String.length str)%nat eqn:E.
  - apply Nat.ltb_lt in E. replace (max - 0)%nat with max by lia.
    rewrite append_length, Hsub by lia. cbn [String.length].
    split; [lia|]. split; [lia|]. intros _. split; [reflexivity | lia].
  - apply Nat.ltb_ge in E. split; [lia|]. split; [reflexivity | lia].
Qed.

(** The theorem on a text of 1300 characters cut to 100. *)
Lemma truncate_bounds_witness :
  String.length (Agent.truncate (Examples.xs 1300) 100) = 103%nat.
Proof.
  apply (proj2 (proj2 (truncate_bounds (Examples.xs 1300) 100))).
  vm_compute. lia.
Defined.

(** * The mailboxes of the agents *)

Section Mailboxes.

Import Guide.Network.

Lemma get_set_same (name : string) (value : list AgentMessage)
    (net : AgentNetwork) :
  get name (set name value net) = Some value.
Proof.
  unfold get. induction net as [|[k x] net IH]; cbn [set find fst snd].
  - rewrite String.eqb_refl. reflexivity.
  - destruct (k =? name)%string eqn:E; cbn [find fst snd]; rewrite E.
    + reflexivity.
    + exact IH.
Qed.

Lemma get_set_other (name other : string) (value : list AgentMessage)
    (net : AgentNetwork) :
  other <> name -> get other (set name value net) = get other net.
Proof.
  intro Hne. unfold get.
  induction net as [|[k x] net IH]; cbn [set find fst snd].
  - destruct (String.eqb_spec name other) as [->|_]; [contradiction | reflexivity].
  - destruct (String.eqb_spec k name) as [->|Hk]; cbn [find fst snd].
    + destruct (String.eqb_spec name other) as [->|_];
        [contradiction | reflexivity].
    + destruct (k =? other)%string; [reflexivity | exact IH].
Qed.

Lemma inboxOf_send (msg : AgentMessage) (name : string) (net : AgentNetwork) :
  inboxOf name (send msg net)
  = (inboxOf name net ++ if (to msg =? name)%string then [msg] else [])%list.
Proof.
  unfold send. destruct (String.eqb_spec (to msg) name) as [<-|Hne].
  - unfold inboxOf at 1. rewrite get_set_same. reflexivity.
  - unfold inboxOf at 1. rewrite get_set_other by congruence.
    fold (inboxOf name net). rewrite app_nil_r. reflexivity.
Qed.

Lemma inboxOf_sends (msgs : list AgentMessage) (name : string)
    (net : AgentNetwork) :
  inboxOf name (fold_left (fun n m => send m n) msgs net)
  = (inboxOf name net ++ filter (fun m => (to m =? name)%string) msgs)%list.
Proof.
  revert net. induction msgs as [|m msgs IH]; intro net; cbn [fold_left filter].
  - rewrite app_nil_r. reflexivity.
  - rewrite IH, inboxOf_send.
    destruct (to m =? name)%string; rewrite <- app_assoc; reflexivity.
Qed.

End Mailboxes.

(** [receive] gives an agent the messages that were sent to it since it
    last received, in the order in which they were sent, and then its
    mailbox is empty; the mail of the other agents stays where it is. *)
Theorem receive_gives_what_was_sent (msgs : list Guide.Network.AgentMessage)
    (agentName other : string) (net : Guide.Network.AgentNetwork) :
  let emptied := snd (Guide.Network.receive agentName net) in
  let sent := fold_left (fun n m => Guide.Network.send m n) msgs emptied in
  fst (Guide.Network.receive agentName sent)
  = filter (fun m => (Guide.Network.to m =? agentName)%string) msgs
  /\ fst (Guide.Network.receive agentName
            (snd (Guide.Network.receive agentName sent))) = []
  /\ (other <> agentName ->
      fst (Guide.Network.receive other
             (snd (Guide.Network.receive agentName sent)))
      = (fst (Guide.Network.receive other net)
         ++ filter (fun m => (Guide.Network.to m =? other)%string) msgs)%list).
Proof.
  cbn zeta. unfold Guide.Network.receive. cbn [fst snd].
  split; [|split].
  - rewrite inboxOf_sends. unfold Guide.Network.inboxOf at 1.
    rewrite get_set_same. reflexivity.
  - unfold Guide.Network.inboxOf. rewrite get_set_same. reflexivity.
  - intro Hne. unfold Guide.Network.inboxOf at 1.
    rewrite get_set_other by exact Hne.
    fold (Guide.Network.inboxOf other
            (fold_left (fun n m => Guide.Network.send m n) msgs
                       (Guide.Network.set agentName [] net))).
    rewrite inboxOf_sends. f_equal.
    unfold Guide.Network.inboxOf. rewrite get_set_other by exact Hne.
    reflexivity.
Qed.

(** The theorem on three messages, two of them for the researcher. *)
Lemma receive_gives_what_was_sent_witness :
  fst (Guide.Network.receive "writer"
         (snd (Guide.Network.receive "researcher"
                 (fold_left (fun n m => Guide.Network.send m n)
                    [Examples.mail "writer" "researcher" "find sources";
                     Examples.mail "researcher" "writer" "three found";
                     Examples.mail "critic" "researcher" "check the dates"]
                    (snd (Guide.Network.receive "researcher" []))))))
  = [Examples.mail "researcher" "writer" "three found"].
Proof.
  refine (eq_trans
    (proj2 (proj2 (receive_gives_what_was_sent
       [Examples.mail "writer" "researcher" "find sources";
        Examples.mail "researcher" "writer" "three found";
        Examples.mail "critic" "researcher" "check the dates"]
       "researcher" "writer" [])) _) _).
  - discriminate.
  - reflexivity.
Defined.

(** * The order of the steps of a plan *)

Section TopologicalSort.

Import Guide.Plan.

Variable steps : list PlanStep.

Lemma has_true (i : Z) (l : list Z) : has i l = true <-> In i l.
Proof.
  unfold has. rewrite existsb_exists. split.
  - intros [x [Hx E]]. apply Z.eqb_eq in E. subst x. exact Hx.
  - intro H. exists i. split; [exact H | apply Z.eqb_refl].
Qed.

Lemma has_false (i : Z) (l : list Z) : has i l = false <-> ~ In i l.
Proof.
  rewrite <- has_true. destruct (has i l); split; intro H.
  - discriminate H.
  - exfalso. apply H. reflexivity.
  - intro H'. discriminate H'.
  - reflexivity.
Qed.

Lemma findStep_some (d : Z) (s : PlanStep) :
  findStep steps d = Some s -> In s steps /\ id s = d.
Proof.
  unfold findStep. intro H. apply find_some in H. destruct H as [Hin E].
  apply Z.eqb_eq in E. split; assumption.
Qed.

Lemma findStep_first (d : Z) (s : PlanStep) :
  findStep steps d = Some s -> Spec.firstOfId steps s.
Proof.
  intro H. unfold Spec.firstOfId.
  destruct (findStep_some d s H) as [_ E]. rewrite E. exact H.
Qed.

Lemma findStep_none (d : Z) :
  findStep steps d = None -> ~ In d (map id steps).
Proof.
  unfold findStep. intros H Hin. apply in_map_iff in Hin.
  destruct Hin as [s [E Hs]].
  pose proof (find_none _ _ H s Hs) as Hf. cbn beta in Hf.
  apply Z.eqb_neq in Hf. contradiction.
Qed.

Lemma firstOfId_In (s : PlanStep) : Spec.firstOfId steps s -> In s steps.
Proof. intro H. exact (proj1 (findStep_some _ _ H)). Qed.

Lemma depsFirst_snoc (l : list PlanStep) (s : PlanStep) :
  Spec.depsFirst steps l ->
  (forall d, In d (dependencies s) -> In d (map id steps) -> In d (map id l)) ->
  Spec.depsFirst steps (l ++ [s]).
Proof.
  intros Hl Hs l1 x l2 d E Hd Hin.
  destruct l2 as [|y l2 _] using rev_ind.
  - apply app_inj_tail in E. destruct E as [-> ->]. exact (Hs d Hd Hin).
  - change (l1 ++ x :: l2 ++ [y])%list
      with (l1 ++ (x :: l2) ++ [y])%list in E.
    rewrite app_assoc in E. apply app_inj_tail in E. destruct E as [E _].
    exact (Hl l1 x l2 d E Hd Hin).
Qed.

Lemma onStack_done (st : State) (v : Z) :
  In v (visited st) -> ~ Spec.onStack st v -> In v (map id (sorted st)).
Proof.
  intros Hv Hn.
  destruct (in_dec Z.eq_dec v (map id (sorted st))) as [H|H]; [exact H|].
  exfalso. apply Hn. split; assumption.
Qed.

(** The loop over the dependencies, for a [visit] that keeps its word. *)
Lemma visitAll_spec (visit : PlanStep -> State -> option State)
    (Hvisit : forall step st st',
        visit step st = Some st' ->
        Spec.visitPre steps step st -> Spec.sortInv steps st ->
        Spec.visitPost steps step st st')
    (deps : list Z) :
  forall st st',
    visitAll visit steps deps st = Some st' ->
    Spec.sortInv steps st ->
    Spec.sortInv steps st'
    /\ (exists extra, sorted st' = (sorted st ++ extra)%list)
    /\ (forall v, In v (visited st) -> In v (visited st'))
    /\ (forall v, Spec.onStack st' v <-> Spec.onStack st v)
    /\ (forall d, In d deps -> In d (map id steps) -> In d (visited st'))
    /\ (forall rank,
          Spec.ranked steps rank ->
          Spec.depsFirst steps (sorted st) ->
          (forall d v, In d deps -> In d (map id steps) ->
                       Spec.onStack st v -> (rank d < rank v)%nat) ->
          Spec.depsFirst steps (sorted st')).
Proof.
  induction deps as [|depId deps IH]; intros st st' H Hinv; cbn [visitAll] in H.
  - injection H as <-. split; [exact Hinv|]. split.
    { exists []. rewrite app_nil_r. reflexivity. }
    split; [auto|]. split; [intro v; reflexivity|].
    split; [intros d []|]. intros rank _ Hd _. exact Hd.
  - destruct (findStep steps depId) as [dep|] eqn:Ef.
    + destruct (visit dep st) as [st1|] eqn:Ev; [|discriminate H].
      destruct (findStep_some _ _ Ef) as [Hdep Eid].
      destruct (Hvisit dep st st1 Ev (fun _ => findStep_first _ _ Ef) Hinv)
        as [Hinv1 [[ex1 Hex1] [Hmono1 [Hstack1 [Hin1 Hord1]]]]].
      destruct (IH st1 st' H Hinv1)
        as [Hinv' [[ex2 Hex2] [Hmono2 [Hstack2 [Hin2 Hord2]]]]].
      split; [exact Hinv'|]. split.
      { exists (ex1 ++ ex2)%list. rewrite Hex2, Hex1, app_assoc. reflexivity. }
      split; [auto|]. split.
      { intro v. rewrite Hstack2. apply Hstack1. }
      split.
      { intros d [<-|Hd] Hids.
        - apply Hmono2. rewrite <- Eid. exact Hin1.
        - exact (Hin2 d Hd Hids). }
      intros rank Hrank Hd Habove. apply (Hord2 rank Hrank).
      * apply (Hord1 rank Hrank Hd). intros v Hv. rewrite Eid.
        apply (Habove depId v); [left; reflexivity | | exact Hv].
        rewrite <- Eid. apply in_map. exact Hdep.
      * intros d v Hdd Hids Hv. apply (Habove d v); [right; exact Hdd | exact Hids |].
        apply Hstack1. exact Hv.
    + destruct (IH st st' H Hinv)
        as [Hinv' [Hex [Hmono [Hstack [Hin Hord]]]]].
      split; [exact Hinv'|]. split; [exact Hex|]. split; [exact Hmono|].
      split; [exact Hstack|]. split.
      { intros d [<-|Hd] Hids.
        - exfalso. exact (findStep_none _ Ef Hids).
        - exact (Hin d Hd Hids). }
      intros rank Hrank Hd Habove. apply (Hord rank Hrank Hd).
      intros d v Hdd. apply Habove. right. exact Hdd.
Qed.

(** What a visit that returns has done. *)
Lemma visit_spec (fuel : nat) :
  forall step st st',
    visit fuel steps step st = Some st' ->
    Spec.visitPre steps step st -> Spec.sortInv steps st ->
    Spec.visitPost steps step st st'.
Proof.
  induction fuel as [|fuel IH]; intros step st st' H Hpre Hinv;
    cbn [visit] in H; [discriminate H|].
  destruct (has (id step) (visited st)) eqn:Ehas.
  - injection H as <-. split; [exact Hinv|]. split.
    { exists []. rewrite app_nil_r. reflexivity. }
    split; [auto|]. split; [intro v; reflexivity|].
    split; [apply has_true; exact Ehas|]. intros rank _ Hd _. exact Hd.
  - pose proof (Hpre Ehas) as Hfirst. apply has_false in Ehas.
    set (st1 := {| sorted := sorted st; visited := id step :: visited st |}) in H.
    destruct (visitAll (visit fuel steps) steps (dependencies step) st1)
      as [st2|] eqn:Eloop; [|discriminate H].
    injection H as <-.
    destruct Hinv as [Hfirsts [Hnodup Hvisited]].
    assert (Hinv1 : Spec.sortInv steps st1).
    { split; [exact Hfirsts|]. split; [exact Hnodup|].
      intros s Hs. right. exact (Hvisited s Hs). }
    assert (Hnew : ~ In (id step) (map id (sorted st))).
    { intro Hin. apply in_map_iff in Hin. destruct Hin as [s [E Hs]].
      apply Ehas. rewrite <- E. exact (Hvisited s Hs). }
    destruct (visitAll_spec (visit fuel steps) (IH) (dependencies step)
                st1 st2 Eloop Hinv1)
      as [[Hfirsts2 [Hnodup2 Hvisited2]]
            [[extra Hex] [Hmono [Hstack [Hdeps Hord]]]]].
    assert (Hon : Spec.onStack st2 (id step)).
    { apply Hstack. split; [left; reflexivity | exact Hnew]. }
    unfold Spec.visitPost, Spec.sortInv. cbn [sorted visited].
    split; [split; [|split]|].
    + intros s Hs. apply in_app_or in Hs. destruct Hs as [Hs|[<-|[]]].
      * exact (Hfirsts2 s Hs).
      * exact Hfirst.
    + rewrite map_app. apply NoDup_app; [exact Hnodup2 | |].
      * constructor; [intros [] | constructor].
      * intros a Ha [<-|[]]. exact (proj2 Hon Ha).
    + intros s Hs. apply in_app_or in Hs. destruct Hs as [Hs|[<-|[]]].
      * exact (Hvisited2 s Hs).
      * exact (proj1 Hon).
    + split.
      { exists (extra ++ [step])%list. rewrite Hex, app_assoc. reflexivity. }
      split.
      { intros v Hv. apply Hmono. right. exact Hv. }
      split.
      { intro v. unfold Spec.onStack. cbn [sorted visited].
        rewrite map_app, in_app_iff. cbn [map In]. split.
        - intros [Hv Hn].
          assert (H2 : Spec.onStack st2 v).
          { split; [exact Hv|]. intro Hd. apply Hn. left. exact Hd. }
          apply Hstack in H2. destruct H2 as [[E|Hv1] Hn1].
          + exfalso. apply Hn. right. left. exact E.
          + split; [exact Hv1 | exact Hn1].
        - intros [Hv Hn].
          assert (H1 : Spec.onStack st1 v).
          { split; [right; exact Hv | exact Hn]. }
          apply Hstack in H1. destruct H1 as [Hv2 Hn2].
          split; [exact Hv2|]. intros [Hd|[E|[]]]; [exact (Hn2 Hd)|].
          apply Ehas. rewrite E. exact Hv. }
      split; [exact (proj1 Hon)|].
      intros rank Hrank Hd Habove.
      assert (Hbelow : forall d v, In d (dependencies step) ->
                                   In d (map id steps) ->
                                   Spec.onStack st1 v -> (rank d < rank v)%nat).
      { intros d v Hdd Hids [[<-|Hv] Hn].
        - exact (Hrank step d Hfirst Hdd Hids).
        - pose proof (Hrank step d Hfirst Hdd Hids).
          pose proof (Habove v (conj Hv Hn)). lia. }
      apply depsFirst_snoc.
      * exact (Hord rank Hrank Hd Hbelow).
      * intros d Hdd Hids. apply onStack_done; [exact (Hdeps d Hdd Hids)|].
        intro Hs. apply Hstack in Hs.
        pose proof (Hbelow d d Hdd Hids Hs). lia.
Qed.

Lemma unvisited_le (v v' : list Z) :
  (forall i, In i v -> In i v') ->
  (Spec.unvisited steps v' <= Spec.unvisited steps v)%nat.
Proof.
  intro Hsub. unfold Spec.unvisited.
  induction (map id steps) as [|i l IH]; cbn [filter]; [lia|].
  destruct (has i v') eqn:E'; destruct (has i v) eqn:E;
    cbn [negb List.length]; try lia.
  apply has_true in E. apply Hsub in E. apply has_true in E. congruence.
Qed.

Lemma unvisited_lt (i : Z) (v : list Z) :
  In i (map id steps) -> ~ In i v ->
  (Spec.unvisited steps (i :: v) < Spec.unvisited steps v)%nat.
Proof.
  intros Hin Hnot. unfold Spec.unvisited.
  induction (map id steps) as [|j l IH]; [destruct Hin|].
  assert (Hle : (List.length (filter (fun k => negb (has k (i :: v))) l)
                 <= List.length (filter (fun k => negb (has k v)) l))%nat).
  { clear. induction l as [|k l IHl]; cbn [filter]; [lia|].
    unfold has at 1. cbn [existsb]. fold (has k v).
    destruct (k =? i); destruct (has k v); cbn [orb negb List.length]; lia. }
  cbn [filter]. unfold has at 1. cbn [existsb]. fold (has j v).
  destruct (Z.eqb_spec j i) as [->|Hne].
  - apply has_false in Hnot. rewrite Hnot. cbn [orb negb List.length]. lia.
  - destruct Hin as [E|Hin]; [contradiction|].
    specialize (IH Hin).
    destruct (has j v); cbn [orb negb List.length]; lia.
Qed.

Lemma unvisited_bound (v : list Z) :
  (Spec.unvisited steps v <= List.length steps)%nat.
Proof.
  unfold Spec.unvisited.
  rewrite <- (length_map id steps). apply filter_length_le.
Qed.

(** The loop returns, when the visits do. *)
Lemma visitAll_total (visit : PlanStep -> State -> option State) (n : nat)
    (Hvisit : forall step st st',
        visit step st = Some st' ->
        Spec.visitPre steps step st -> Spec.sortInv steps st ->
        Spec.visitPost steps step st st')
    (Htotal : forall step st,
        (Spec.unvisited steps (visited st) < n)%nat ->
        Spec.visitPre steps step st -> Spec.sortInv steps st ->
        exists st', visit step st = Some st')
    (deps : list Z) :
  forall st,
    (Spec.unvisited steps (visited st) < n)%nat ->
    Spec.sortInv steps st ->
    exists st', visitAll visit steps deps st = Some st'.
Proof.
  induction deps as [|depId deps IH]; intros st Hn Hinv; cbn [visitAll].
  - exists st. reflexivity.
  - destruct (findStep steps depId) as [dep|] eqn:Ef; [|exact (IH st Hn Hinv)].
    assert (Hpre : Spec.visitPre steps dep st)
      by exact (fun _ => findStep_first _ _ Ef).
    destruct (Htotal dep st Hn Hpre Hinv) as [st1 Ev]. rewrite Ev.
    destruct (Hvisit dep st st1 Ev Hpre Hinv) as [Hinv1 [_ [Hmono _]]].
    apply IH; [|exact Hinv1].
    pose proof (unvisited_le _ _ Hmono). lia.
Qed.

(** A visit returns, when its bound exceeds the number of the steps that
    are not visited yet. *)
Lemma visit_total (fuel : nat) :
  forall step st,
    (Spec.unvisited steps (visited st) < fuel)%nat ->
    Spec.visitPre steps step st -> Spec.sortInv steps st ->
    exists st', visit fuel steps step st = Some st'.
Proof.
  induction fuel as [|fuel IH]; intros step st Hn Hpre Hinv; [lia|].
  cbn [visit]. destruct (has (id step) (visited st)) eqn:Ehas.
  - exists st. reflexivity.
  - pose proof (Hpre Ehas) as Hfirst. apply has_false in Ehas.
    set (st1 := {| sorted := sorted st; visited := id step :: visited st |}).
    assert (Hinv1 : Spec.sortInv steps st1).
    { destruct Hinv as [Hfirsts [Hnodup Hvisited]].
      split; [exact Hfirsts|]. split; [exact Hnodup|].
      intros s Hs. right. exact (Hvisited s Hs). }
    assert (Hn1 : (Spec.unvisited steps (visited st1) < fuel)%nat).
    { pose proof (unvisited_lt (id step) (visited st)
                    (in_map id _ _ (firstOfId_In _ Hfirst)) Ehas).
      cbn [visited st1]. lia. }
    destruct (visitAll_total (visit fuel steps) fuel (visit_spec fuel) IH
                (dependencies step) st1 Hn1 Hinv1) as [st2 E].
    rewrite E. eexists. reflexivity.
Qed.

(** The loop over the steps of the plan. *)
Lemma forEach_spec (l : list PlanStep) :
  forall pre st,
    steps = (pre ++ l)%list ->
    Spec.sortInv steps st ->
    (forall s, In s pre -> In (id s) (visited st)) ->
    (forall v, ~ Spec.onStack st v) ->
    exists st',
      forEach (visit (S (List.length steps)) steps) l st = Some st'
      /\ Spec.sortInv steps st'
      /\ (forall s, In s steps -> In (id s) (visited st'))
      /\ (forall v, ~ Spec.onStack st' v)
      /\ (forall rank, Spec.ranked steps rank ->
                       Spec.depsFirst steps (sorted st) ->
                       Spec.depsFirst steps (sorted st')).
Proof.
  induction l as [|step l IH]; intros pre st Esteps Hinv Hpre Hempty;
    cbn [forEach].
  - exists st. split; [reflexivity|]. split; [exact Hinv|]. split.
    { intros s Hs. apply Hpre. rewrite Esteps, app_nil_r in Hs. exact Hs. }
    split; [exact Hempty|]. intros rank _ Hd. exact Hd.
  - assert (Hvpre : Spec.visitPre steps step st).
    { intro Ehas. apply has_false in Ehas. unfold Spec.firstOfId, findStep.
      rewrite Esteps. clear IH Esteps.
      induction pre as [|p pre IHp]; cbn [app find].
      - rewrite Z.eqb_refl. reflexivity.
      - destruct (Z.eqb_spec (id p) (id step)) as [E|_].
        + exfalso. apply Ehas. rewrite <- E. apply Hpre. left. reflexivity.
        + apply IHp. intros s Hs. apply Hpre. right. exact Hs. }
    assert (Hn : (Spec.unvisited steps (visited st) < S (List.length steps))%nat).
    { pose proof (unvisited_bound (visited st)). lia. }
    destruct (visit_total _ step st Hn Hvpre Hinv) as [st1 Ev]. rewrite Ev.
    destruct (visit_spec _ step st st1 Ev Hvpre Hinv)
      as [Hinv1 [_ [Hmono [Hstack [Hin Hord]]]]].
    destruct (IH (pre ++ [step])%list st1) as [st' [E [Hinv' [Hall [Hemp' Hord']]]]].
    + rewrite <- app_assoc. exact Esteps.
    + exact Hinv1.
    + intros s Hs. apply in_app_or in Hs. destruct Hs as [Hs|[<-|[]]].
      * apply Hmono. exact (Hpre s Hs).
      * exact Hin.
    + intros v Hv. apply Hstack in Hv. exact (Hempty v Hv).
    + exists st'. split; [exact E|]. split; [exact Hinv'|].
      split; [exact Hall|]. split; [exact Hemp'|].
      intros rank Hrank Hd. apply (Hord' rank Hrank).
      apply (Hord rank Hrank Hd). intros v Hv. exfalso. exact (Hempty v Hv).
Qed.

(** The sort returns, and what it returns. *)
Lemma topologicalSort_spec :
  exists st,
    topologicalSort steps = Some (sorted st)
    /\ Spec.sortInv steps st
    /\ (forall s, In s steps -> In (id s) (map id (sorted st)))
    /\ (forall rank, Spec.ranked steps rank -> Spec.depsFirst steps (sorted st)).
Proof.
  destruct (forEach_spec steps [] {| sorted := []; visited := [] |})
    as [st [E [Hinv [Hall [Hempty Hord]]]]].
  - reflexivity.
  - split; [intros s []|]. split; [constructor | intros s []].
  - intros s [].
  - intros v [[] _].
  - exists st. unfold topologicalSort. rewrite E.
    split; [reflexivity|]. split; [exact Hinv|]. split.
    + intros s Hs. apply onStack_done; [exact (Hall s Hs) | apply Hempty].
    + intros rank Hrank. apply (Hord rank Hrank).
      intros l1 s l2 d El. destruct l1; discriminate El.
Qed.

Lemma firstOfId_unique :
  NoDup (map id steps) -> forall s, In s steps -> Spec.firstOfId steps s.
Proof.
  unfold Spec.firstOfId, findStep.
  induction steps as [|p l IH]; intros Hnd s Hs; [destruct Hs|].
  cbn [map] in Hnd. inversion Hnd as [|? ? Hp Hl]; subst.
  cbn [find]. destruct Hs as [->|Hs].
  - rewrite Z.eqb_refl. reflexivity.
  - destruct (Z.eqb_spec (id p) (id s)) as [E|_].
    + exfalso. apply Hp. rewrite E. apply in_map. exact Hs.
    + exact (IH Hl s Hs).
Qed.

End TopologicalSort.

(** [topologicalSort] returns for every plan, also for one whose
    dependencies run in a circle.  It returns each id of the plan once: of
    the steps that share an id the first, and no other step.  A plan
    without repeated ids is returned whole, in some order. *)
Theorem topologicalSort_keeps_each_id_once (steps : list Guide.Plan.PlanStep) :
  exists sorted,
    Guide.Plan.topologicalSort steps = Some sorted
    /\ NoDup (map Guide.Plan.id sorted)
    /\ (forall s, In s sorted <-> Spec.firstOfId steps s)
    /\ (NoDup (map Guide.Plan.id steps) -> Permutation steps sorted).
Proof.
  destruct (topologicalSort_spec steps)
    as [st [E [[Hfirsts [Hnodup _]] [Hall _]]]].
  exists (Guide.Plan.sorted st). split; [exact E|]. split; [exact Hnodup|].
  assert (Hiff : forall s, In s (Guide.Plan.sorted st) <-> Spec.firstOfId steps s).
  { intro s. split; [apply Hfirsts|]. intro Hs.
    pose proof (Hall s (firstOfId_In steps s Hs)) as Hin.
    apply in_map_iff in Hin. destruct Hin as [s' [Eid Hs']].
    pose proof (Hfirsts s' Hs') as Hf. unfold Spec.firstOfId in Hf, Hs.
    rewrite Eid, Hs in Hf. injection Hf as ->. exact Hs'. }
  split; [exact Hiff|].
  intro Hnd. apply NoDup_Permutation.
  - exact (NoDup_map_inv _ _ Hnd).
  - exact (NoDup_map_inv _ _ Hnodup).
  - intro s. rewrite Hiff. split.
    + apply firstOfId_unique. exact Hnd.
    + apply firstOfId_In.
Qed.

(** The theorem on a plan of three steps: they are returned, all three. *)
Lemma topologicalSort_keeps_each_id_once_witness :
  exists sorted,
    Guide.Plan.topologicalSort Examples.plan = Some sorted
    /\ Permutation Examples.plan sorted.
Proof.
  destruct (topologicalSort_keeps_each_id_once Examples.plan)
    as [sorted [E [_ [_ Hperm]]]].
  exists sorted. split; [exact E|]. apply Hperm.
  repeat constructor; cbn; intuition discriminate.
Defined.

(** In a plan without circular dependencies the sort puts every step
    after the steps that it depends on: whatever a step depends on, if it
    names a step of the plan, has come before. *)
Theorem topologicalSort_puts_dependencies_first
    (steps sorted l1 l2 : list Guide.Plan.PlanStep) (s : Guide.Plan.PlanStep)
    (d : Z)
    (Hacyclic : Spec.acyclic steps)
    (Hsorted : Guide.Plan.topologicalSort steps = Some sorted)
    (Hsplit : sorted = (l1 ++ s :: l2)%list)
    (Hd : In d (Guide.Plan.dependencies s))
    (Hnames : In d (map Guide.Plan.id steps)) :
  In d (map Guide.Plan.id l1).
Proof.
  destruct Hacyclic as [rank Hrank].
  destruct (topologicalSort_spec steps) as [st [E [_ [_ Hord]]]].
  rewrite E in Hsorted. injection Hsorted as <-.
  exact (Hord rank Hrank l1 s l2 d Hsplit Hd Hnames).
Qed.

(** The theorem on the plan of three steps, which is given with the last
    step first: the second step comes after the first. *)
Lemma topologicalSort_puts_dependencies_first_witness :
  Guide.Plan.topologicalSort Examples.plan
  = Some [Examples.planStep 1 []; Examples.planStep 2 [1];
          Examples.planStep 3 [1; 2]]
  /\ In 1 (map Guide.Plan.id [Examples.planStep 1 []]).
Proof.
  split; [reflexivity|].
  apply (topologicalSort_puts_dependencies_first Examples.plan
           [Examples.planStep 1 []; Examples.planStep 2 [1];
            Examples.planStep 3 [1; 2]]
           [Examples.planStep 1 []] [Examples.planStep 3 [1; 2]]
           (Examples.planStep 2 [1]) 1).
  - exists Z.to_nat. intros s d Hs Hd Hin.
    pose proof (firstOfId_In _ _ Hs) as Hs'.
    cbn in Hs'. destruct Hs' as [<-|[<-|[<-|[]]]]; cbn in Hd |- *;
      intuition (subst; lia).
  - reflexivity.
  - reflexivity.
  - left. reflexivity.
  - right. right. left. reflexivity.
Defined.
